(** * PDF harvester: a shallow embedding of the page-navigation pipeline

    The repository holds two implementations of the same pipeline:
    - [pdf_harvester.py], a stand-alone script ([harvest_one] and its
      handlers), embedded in module [PdfHarvester];
    - the package [harvester.py] / [config.py] / [utils.py] (the method
      [process_url] of its harvester class and the methods it calls),
      embedded in module [Harvester].

    Python strings are modelled as [string] (sequences of 8-bit characters; a
    character outside ASCII is held as the bytes of its UTF-8 encoding);
    [str.lower] acts on the letters A-Z, which is what it does on the ASCII
    text all keyword lists of the repository are written in.  The browser
    engine is not part of the repository: it is an abstract interface
    ([Browser]) whose calls may raise, and every definition below is
    parametrised by it.  Modules [PdfHarvester] and [Harvester] take the
    opening and the closing of a page as calls that return; module
    [Raising] has the same tasks over page calls that may raise, and the
    two agree when these calls return ([TotalCalls]). *)

From Stdlib Require Import String Ascii List Bool Arith NArith ZArith Lia.
From Stdlib Require Import Permutation Sorted.
Import ListNotations.
Open Scope string_scope.

(** ** Python string primitives *)

Module PyStr.

Definition is_upper (c : ascii) : bool :=
  ((65 <=? nat_of_ascii c) && (nat_of_ascii c <=? 90))%nat.

Definition lower_char (c : ascii) : ascii :=
  if is_upper c then ascii_of_nat (nat_of_ascii c + 32) else c.

(** [s.lower()] *)
Fixpoint lower (s : string) : string :=
  match s with
  | EmptyString => EmptyString
  | String c s' => String (lower_char c) (lower s')
  end.

(** [s.startswith(p)] *)
Fixpoint startswith (p s : string) : bool :=
  match p, s with
  | EmptyString, _ => true
  | String _ _, EmptyString => false
  | String a p', String b s' => Ascii.eqb a b && startswith p' s'
  end.

(** [sub in s] *)
Fixpoint contains (sub s : string) : bool :=
  startswith sub s ||
  match s with
  | EmptyString => false
  | String _ s' => contains sub s'
  end.

(** [s.endswith(suf)]: some suffix of [s] is [suf]. *)
Fixpoint endswith (suf s : string) : bool :=
  String.eqb s suf ||
  match s with
  | EmptyString => false
  | String _ s' => endswith suf s'
  end.

(** [s.split(sep)] for a one-character separator; never the empty list. *)
Fixpoint split (sep : ascii) (s : string) : list string :=
  match s with
  | EmptyString => [EmptyString]
  | String c s' =>
      if Ascii.eqb c sep then EmptyString :: split sep s'
      else match split sep s' with
           | [] => [String c EmptyString]
           | w :: ws => String c w :: ws
           end
  end.

(** [sep.join(parts)] *)
Fixpoint join (sep : string) (parts : list string) : string :=
  match parts with
  | [] => EmptyString
  | [w] => w
  | w :: ws => w ++ sep ++ join sep ws
  end.

Definition rev (s : string) : string :=
  string_of_list_ascii (List.rev (list_ascii_of_string s)).

Fixpoint lstrip (drop : ascii -> bool) (s : string) : string :=
  match s with
  | EmptyString => EmptyString
  | String c s' => if drop c then lstrip drop s' else s
  end.

Definition rstrip (drop : ascii -> bool) (s : string) : string :=
  rev (lstrip drop (rev s)).

(** [s.strip(chars)] *)
Definition strip (drop : ascii -> bool) (s : string) : string :=
  rstrip drop (lstrip drop s).

(** The characters [str.strip()] removes when called without argument. *)
Definition is_space (c : ascii) : bool :=
  let n := nat_of_ascii c in
  ((n =? 32) || ((9 <=? n) && (n <=? 13)) || ((28 <=? n) && (n <=? 31)))%nat.

(** [re.sub(r"[^...]+", rep, s)]: every maximal run of characters outside
    [keep] is replaced by the single character [rep]. *)
Fixpoint sub_runs (keep : ascii -> bool) (rep : ascii) (in_run : bool)
         (s : string) : string :=
  match s with
  | EmptyString => EmptyString
  | String c s' =>
      if keep c then String c (sub_runs keep rep false s')
      else if in_run then sub_runs keep rep true s'
      else String rep (sub_runs keep rep true s')
  end.

(** [re.sub] with a character class and an empty replacement: the
    characters of the class are deleted. *)
Fixpoint delete_chars (del : ascii -> bool) (s : string) : string :=
  match s with
  | EmptyString => EmptyString
  | String c s' =>
      if del c then delete_chars del s' else String c (delete_chars del s')
  end.

(** [s.replace(a, b)] for one-character [a] and [b]. *)
Fixpoint replace_char (a b : ascii) (s : string) : string :=
  match s with
  | EmptyString => EmptyString
  | String c s' =>
      String (if Ascii.eqb c a then b else c) (replace_char a b s')
  end.

(** [any(k in t for k in keys)] *)
Definition any_in (keys : list string) (t : string) : bool :=
  existsb (fun k => contains k t) keys.

(** Truthiness of a string: [bool(s)]. *)
Definition truthy (s : string) : bool :=
  match s with EmptyString => false | String _ _ => true end.

End PyStr.

(** ** Pure helpers of [pdf_harvester.py] *)

Module PdfUtil.
Import PyStr.

Definition is_slug_char (c : ascii) : bool :=
  let n := nat_of_ascii c in
  (((97 <=? n) && (n <=? 122)) || ((48 <=? n) && (n <=? 57)))%nat.

Definition underscore : ascii := "_"%char.

(** [slugify]:
    s = s.lower().strip();
    s = re.sub(r"[^a-z0-9]+", "_", s);
    return re.sub(r"_+", "_", s).strip("_") *)
Definition slugify (s : string) : string :=
  let s1 := strip is_space (lower s) in
  let s2 := sub_runs is_slug_char underscore false s1 in
  let s3 := sub_runs (fun c => negb (Ascii.eqb c underscore)) underscore false s2 in
  strip (fun c => Ascii.eqb c underscore) s3.

(** [is_pdf_url]:
    base = url.split("?")[0].lower(); return base.endswith(".pdf") *)
Definition is_pdf_url (url : string) : bool :=
  let base := lower (hd EmptyString (split "?"%char url)) in
  endswith ".pdf" base.

(** [safe_filename]: first two words of the slug, then "_2026.pdf". *)
Definition safe_filename (institution : string) : string :=
  let slug := slugify institution in
  let parts := firstn 2 (split underscore slug) in
  let short := join "_" parts in
  short ++ "_2026.pdf".

(** [contains_any]:
    t = text.lower(); return any(h.lower() in t for h in hints)
    (a missing text counts as the empty string). *)
Definition contains_any (text : string) (hints : list string) : bool :=
  let t := lower text in
  existsb (fun h => contains (lower h) t) hints.

End PdfUtil.

(** ** Pure helpers of [utils.py] *)

Module Utils.
Import PyStr.

Definition dquote : ascii := ascii_of_nat 34.
Definition backslash : ascii := ascii_of_nat 92.

(** The character class of [sanitize_filename]: backslash, slash, star,
    question mark, colon, double quote, angle brackets and bar. *)
Definition is_invalid_char (c : ascii) : bool :=
  existsb (Ascii.eqb c)
    [backslash; "/"%char; "*"%char; "?"%char; ":"%char; dquote;
     "<"%char; ">"%char; "|"%char].

(** [sanitize_filename(institution)], with [date_str] the value of
    [datetime.now().strftime("%Y%m%d")] at the call:
    the characters of the class are deleted, every space becomes an
    underscore, and the result is followed by _2026_Outlook_, the date
    and .pdf. *)
Definition sanitize_filename (institution date_str : string) : string :=
  let safe_institution :=
    replace_char " "%char "_"%char (delete_chars is_invalid_char institution) in
  safe_institution ++ "_2026_Outlook_" ++ date_str ++ ".pdf".

End Utils.

(** ** The browser engine and the effect monad *)

Module Browser.

(** Result of a call that may raise; [Raise e] carries the description of
    the exception. *)
Inductive outcome (A : Type) : Type :=
| Ok (a : A)
| Raise (e : string).
Arguments Ok {A} a.
Arguments Raise {A} e.

Definition PageId := nat.
Definition ElemId := nat.
Definition DownloadId := nat.

Inductive Role := role_button | role_link.

(** What the code reads of a network response. *)
Record Response := {
  resp_url : string;
  resp_content_type : option string;
  resp_content_disposition : option string
}.

(** The components of the pipeline; entering one is recorded in the trace. *)
Inductive Component := CCookies | CModals | CGate | CDownload.

(** One entry of the trace per browser call, in the order of the calls. *)
Inductive Event :=
| EvEnter (c : Component)
| EvNewPage (p : PageId)
| EvClose (p : PageId)
| EvGoto (p : PageId) (url : string)
| EvInnerText (p : PageId)
| EvContent (p : PageId)
| EvRoleCount (p : PageId) (r : Role) (name : string)
| EvRoleClick (p : PageId) (r : Role) (name : string)
| EvLocatorCount (p : PageId) (sel : string)
| EvLocatorClick (p : PageId) (sel : string)
| EvIsVisible (p : PageId) (sel : string)
| EvClick (p : PageId) (sel : string)
| EvLocatorAll (p : PageId) (sel : string)
| EvElemVisible (el : ElemId)
| EvElemClick (el : ElemId)
| EvElemAttr (el : ElemId)
| EvElemText (el : ElemId)
| EvEvaluate (p : PageId) (js : string)
| EvEvalHrefs (p : PageId)
| EvExpectDownload (p : PageId)
| EvDownloadValue (p : PageId)
| EvSaveAs (d : DownloadId) (path : string)
| EvScreenshot (p : PageId) (path : string)
| EvWaitLoad (p : PageId)
| EvSleep (ms : N).

(** The capability set the pipeline needs from the browser-automation
    engine.  Every call takes the current world and returns the next one;
    calls that query or act on a page may raise.  Reading [page.url],
    sleeping and reading the clock do not raise.  Opening and closing a page
    are taken here as calls that return; module [Raising] has them as calls
    that may raise. *)
Record Engine := {
  World : Type;
  new_page : World -> PageId * World;
  close : PageId -> World -> World;
  page_url : PageId -> World -> string;
  (** responses delivered so far to the response listeners of a page *)
  responses_seen : PageId -> World -> list Response;
  goto : PageId -> string -> World -> outcome (option Response) * World;
  inner_text_body : PageId -> World -> outcome string * World;
  content : PageId -> World -> outcome string * World;
  (** [page.get_by_role(role, name=re.compile(re.escape(t), re.I))] *)
  role_count : PageId -> Role -> string -> World -> outcome nat * World;
  role_click_first : PageId -> Role -> string -> N -> World -> outcome unit * World;
  locator_count : PageId -> string -> World -> outcome nat * World;
  locator_click_first : PageId -> string -> N -> World -> outcome unit * World;
  is_visible : PageId -> string -> World -> outcome bool * World;
  click : PageId -> string -> World -> outcome unit * World;
  locator_all : PageId -> string -> World -> outcome (list ElemId) * World;
  elem_is_visible : ElemId -> World -> outcome bool * World;
  elem_click : ElemId -> World -> outcome unit * World;
  elem_get_attribute : ElemId -> string -> World -> outcome (option string) * World;
  elem_text_content : ElemId -> World -> outcome (option string) * World;
  evaluate : PageId -> string -> World -> outcome unit * World;
  (** [page.eval_on_selector_all] on the anchors carrying an href *)
  eval_hrefs : PageId -> World -> outcome (list string) * World;
  (** entering [with page.expect_download(timeout=...)] *)
  expect_download : PageId -> N -> World -> outcome unit * World;
  (** leaving the [with] block without exception: the context manager waits
      for the download event and raises when none fires in time *)
  download_value : PageId -> World -> outcome DownloadId * World;
  save_as : DownloadId -> string -> World -> outcome unit * World;
  screenshot : PageId -> string -> World -> outcome unit * World;
  wait_for_load_state : PageId -> string -> World -> outcome unit * World;
  sleep : N -> World -> World;
  (** [datetime.now()] formatted as %Y%m%d and as %Y%m%d_%H%M%S *)
  now_date : World -> string;
  now_stamp : World -> string
}.

(** State threaded through the code: the browser world, the trace of the
    calls made so far, and the result object the task mutates in place. *)
Record St (E : Engine) (R : Type) := mkSt {
  world : World E;
  trace : list Event;
  obj : R
}.
Arguments mkSt {E R} world trace obj.
Arguments world {E R} s.
Arguments trace {E R} s.
Arguments obj {E R} s.

Section Monad.
Context {E : Engine} {R : Type}.

Definition M (A : Type) : Type := St E R -> outcome A * St E R.

Definition ret {A} (a : A) : M A := fun st => (Ok a, st).

Definition raise {A} (e : string) : M A := fun st => (Raise e, st).

Definition bind {A B} (m : M A) (k : A -> M B) : M B :=
  fun st =>
    match m st with
    | (Ok a, st') => k a st'
    | (Raise e, st') => (Raise e, st')
    end.

(** [try: m  except Exception as e: h e]; what [m] did before raising stays
    done. *)
Definition try_catch {A} (m : M A) (h : string -> M A) : M A :=
  fun st =>
    match m st with
    | (Ok a, st') => (Ok a, st')
    | (Raise e, st') => h e st'
    end.

(** [try: m  finally: f], for a clean-up [f] that does not raise. *)
Definition finally {A} (m : M A) (f : St E R -> St E R) : M A :=
  fun st => let (r, st') := m st in (r, f st').

(** A fallible browser call, logged. *)
Definition call {A} (ev : Event)
           (op : World E -> outcome A * World E) : M A :=
  fun st =>
    let (r, w') := op (world st) in
    (r, mkSt w' (trace st ++ [ev]) (obj st)).

(** A browser call that cannot raise, logged. *)
Definition call_total (ev : Event) (op : World E -> World E) : M unit :=
  fun st => (Ok tt, mkSt (op (world st)) (trace st ++ [ev]) (obj st)).

(** A read of the world that is not a browser round trip. *)
Definition observe {A} (f : World E -> A) : M A :=
  fun st => (Ok (f (world st)), st).

(** Entering a component: a trace entry only. *)
Definition enter (c : Component) : M unit :=
  fun st => (Ok tt, mkSt (world st) (trace st ++ [EvEnter c]) (obj st)).

Definition get_obj : M R := fun st => (Ok (obj st), st).

Definition modify (f : R -> R) : M unit :=
  fun st => (Ok tt, mkSt (world st) (trace st) (f (obj st))).

Definition closing (p : PageId) (st : St E R) : St E R :=
  mkSt (close E p (world st)) (trace st ++ [EvClose p]) (obj st).

Definition open_page : M PageId :=
  fun st =>
    let (p, w') := new_page E (world st) in
    (Ok p, mkSt w' (trace st ++ [EvNewPage p]) (obj st)).

End Monad.

Declare Scope harvest_scope.
Delimit Scope harvest_scope with harvest.
Notation "x <- m ;; k" := (bind m (fun x => k))
  (at level 61, m at next level, right associativity) : harvest_scope.
Notation "m ;; k" := (bind m (fun _ => k))
  (at level 61, right associativity) : harvest_scope.

End Browser.

Definition bytes (l : list nat) : string :=
  string_of_list_ascii (map ascii_of_nat l).
(** ** [pdf_harvester.py] *)

Module PdfHarvester.
Import PyStr PdfUtil Browser.
Local Open Scope harvest_scope.

(** *** Configuration *)

Definition TIMEOUT_MS : N := 45000%N.
Definition MAX_CANDIDATE_LINKS : nat := 10.
Definition DOWNLOAD_DIR : string := "downloads".
Definition SCREENSHOT_DIR : string := "logs/screenshots".

Definition COOKIE_TEXTS : list string :=
  ["Accept all"; "Accept All"; "Accept"; "I agree"; "I Agree"; "Agree";
   "OK"; "Okay"; "Allow all"; "Got it"; "Accept cookies"; "Accept Cookies"].

Definition CLOSE_TEXTS : list string :=
  ["Close"; "Dismiss"; "No thanks"; "Not now"].

Definition DOWNLOAD_HINTS : list string :=
  ["download full pdf"; "download pdf"; "download"; "pdf";
   "full report"; "report pdf"; "outlook"; "view pdf"; "download report"].

Definition GATE_HINTS : list string :=
  ["financial intermediary"; "professional investor"; "institutional investor";
   "retail investor"; "accredited"; "qualified investor"; "i certify";
   "jurisdiction"; "disclaimer"; "terms and conditions"; "important information"].

Definition PROFILE_MAP : list (string * list string) :=
  [("retail", ["Retail"; "Individual"; "Private investor"; "Private Investor"]);
   ("professional", ["Professional"; "Qualified"; "Professional investor"; "Professional Investor"]);
   ("institutional", ["Institutional"; "Financial intermediary"; "Intermediary"; "Institutional Investor"])].

(** [d.get(key, [])] on a dict of lists. *)
Fixpoint dict_get (d : list (string * list string)) (key : string) : list string :=
  match d with
  | [] => []
  | (k, v) :: d' => if String.eqb k key then v else dict_get d' key
  end.

Definition CLOSE_SELECTORS : list string :=
  ["button[aria-label='Close']"; "button[aria-label='close']";
   "button:has-text('" ++ bytes [195; 131; 226; 128; 148] ++ "')"].

Definition CONTINUE_TEXTS : list string :=
  ["Continue"; "Enter"; "Proceed"; "Confirm"; "I agree"; "Agree"].

Definition FALLBACK_URL_KEYWORDS : list string :=
  ["pdf"; "download"; "outlook"; "report"; "publication"].

(** [pathlib]: DIR / name, rendered with [str]. *)
Definition path_join (dir name : string) : string := dir ++ "/" ++ name.

(** *** Result record *)

Record HarvestResult := mkResult {
  institution : string;
  start_url : string;
  final_url : option string;
  status : string;
  file_path : option string;
  notes : option string;
  actions : list string
}.

(** [HarvestResult(institution=..., start_url=...)] with the defaults of the
    dataclass. *)
Definition new_result (inst url : string) : HarvestResult :=
  mkResult inst url None "error" None None [].

Definition set_final_url (u : string) (r : HarvestResult) : HarvestResult :=
  mkResult (institution r) (start_url r) (Some u) (status r) (file_path r)
           (notes r) (actions r).
Definition set_status (s : string) (r : HarvestResult) : HarvestResult :=
  mkResult (institution r) (start_url r) (final_url r) s (file_path r)
           (notes r) (actions r).
Definition set_file_path (f : string) (r : HarvestResult) : HarvestResult :=
  mkResult (institution r) (start_url r) (final_url r) (status r) (Some f)
           (notes r) (actions r).
Definition set_notes (n : string) (r : HarvestResult) : HarvestResult :=
  mkResult (institution r) (start_url r) (final_url r) (status r) (file_path r)
           (Some n) (actions r).
(** [result.actions.append(tag)] *)
Definition append_action (tag : string) (r : HarvestResult) : HarvestResult :=
  mkResult (institution r) (start_url r) (final_url r) (status r) (file_path r)
           (notes r) (actions r ++ [tag])%list.

(** *** PDF sniffer *)

(** [on_response]: the callback registered by [attach_pdf_sniffer]; a
    missing header reads as the empty string. *)
Definition on_response (last_pdf_url : string) (resp : Response) : string :=
  let ct := lower (match resp_content_type resp with Some v => v | None => EmptyString end) in
  let cd := lower (match resp_content_disposition resp with Some v => v | None => EmptyString end) in
  if contains "application/pdf" ct || contains ".pdf" cd
  then resp_url resp else last_pdf_url.

(** *** De-duplication through [dict.fromkeys] *)

(** [list(dict.fromkeys(l))]: keys are inserted one by one; a key already
    present keeps its place. *)
Definition dict_fromkeys (l : list string) : list string :=
  fold_left
    (fun keys k => if existsb (String.eqb k) keys then keys else (keys ++ [k])%list)
    l [].

(** The body of [collect_candidate_links] once the hrefs are read. *)
Definition candidate_links_of (hrefs : list string) : list string :=
  let pdfs := filter is_pdf_url hrefs in
  match pdfs with
  | _ :: _ => firstn MAX_CANDIDATE_LINKS (dict_fromkeys pdfs)
  | [] =>
      let pdfish :=
        filter (fun h => any_in FALLBACK_URL_KEYWORDS (lower h)) hrefs in
      firstn MAX_CANDIDATE_LINKS (dict_fromkeys pdfish)
  end.

Section Pipeline.
Variable E : Engine.
(** The module-level setting [INVESTOR_PROFILE]. *)
Variable INVESTOR_PROFILE : string.

Local Abbreviation M := (@Browser.M E HarvestResult).

(** [sniffer_state["last_pdf_url"]] of a page: the callback folded over the
    responses the page has seen. *)
Definition last_pdf_url (p : PageId) : M string :=
  observe (fun w => fold_left on_response (responses_seen E p w) EmptyString).

Definition body_text (p : PageId) : M string :=
  try_catch (call (EvInnerText p) (inner_text_body E p))
            (fun _ => ret EmptyString).

(** One [try] block of [click_by_text]: count the matches for the role and
    click the first one; [true] stands for the [return True]. *)
Definition click_role (p : PageId) (r : Role) (t : string) (timeout_ms : N)
  : M bool :=
  try_catch
    (n <- call (EvRoleCount p r t) (role_count E p r t) ;;
     if (0 <? n)%nat
     then call (EvRoleClick p r t) (role_click_first E p r t timeout_ms) ;;
          ret true
     else ret false)
    (fun _ => ret false).

Fixpoint click_by_text (p : PageId) (texts : list string) (timeout_ms : N)
  : M bool :=
  match texts with
  | [] => ret false
  | t :: rest =>
      b <- click_role p role_button t timeout_ms ;;
      if b then ret true
      else
        l <- click_role p role_link t timeout_ms ;;
        if l then ret true else click_by_text p rest timeout_ms
  end.

Definition handle_cookies (p : PageId) : M unit :=
  enter CCookies ;;
  b <- click_by_text p COOKIE_TEXTS 1500%N ;;
  if b then modify (append_action "accepted_cookies") else ret tt.

Definition handle_linkedin_interstitial (p : PageId) : M unit :=
  u <- observe (page_url E p) ;;
  if contains "linkedin.com" u then
    txt <- body_text p ;;
    if contains "leaving" (lower txt) then
      try_catch
        (b <- click_by_text p ["Continue"; "Go to link"; "Proceed"] 2000%N ;;
         if b then
           modify (append_action "handled_linkedin_redirect") ;;
           call_total (EvSleep 2000%N) (sleep E 2000%N)
         else ret tt)
        (fun _ => ret tt)
    else ret tt
  else ret tt.

(** The loop over the close icons of [close_modals]; it stops at the first
    selector that was clicked. *)
Fixpoint close_icons (p : PageId) (sels : list string) : M unit :=
  match sels with
  | [] => ret tt
  | sel :: rest =>
      stop <-
        try_catch
          (n <- call (EvLocatorCount p sel) (locator_count E p sel) ;;
           if (0 <? n)%nat
           then call (EvLocatorClick p sel) (locator_click_first E p sel 800%N) ;;
                modify (append_action "closed_modal_x") ;;
                ret true
           else ret false)
          (fun _ => ret false) ;;
      if stop then ret tt else close_icons p rest
  end.

Definition close_modals (p : PageId) : M unit :=
  enter CModals ;;
  b <- click_by_text p CLOSE_TEXTS 1500%N ;;
  (if b then modify (append_action "closed_modal") else ret tt) ;;
  close_icons p CLOSE_SELECTORS.

Definition detect_gate (p : PageId) : M bool :=
  txt <- body_text p ;;
  ret (contains_any txt GATE_HINTS).

(** [resolve_gate]: returns (handled, note). *)
Definition resolve_gate (p : PageId) : M (bool * string) :=
  enter CGate ;;
  g <- detect_gate p ;;
  if negb g then ret (true, "no_gate")
  else
    modify (append_action "gate_detected") ;;
    if String.eqb INVESTOR_PROFILE "unknown" then
      ret (false, "Gate detected; profile=unknown => manual required.")
    else
      let choices := dict_get PROFILE_MAP INVESTOR_PROFILE in
      match choices with
      | [] =>
          ret (false, "Gate detected; no mapping for profile=" ++ INVESTOR_PROFILE ++ ".")
      | _ :: _ =>
          b <- click_by_text p choices 2500%N ;;
          if b then
            modify (append_action ("gate_selected_" ++ INVESTOR_PROFILE)) ;;
            call_total (EvSleep 700%N) (sleep E 700%N) ;;
            handle_cookies p ;;
            close_modals p ;;
            _ <- click_by_text p CONTINUE_TEXTS 2500%N ;;
            modify (append_action "gate_continued") ;;
            ret (true, "Gate handled using profile=" ++ INVESTOR_PROFILE ++ ".")
          else
            ret (false, "Gate detected; could not find clickable option for profile="
                          ++ INVESTOR_PROFILE ++ ".")
      end.

(** One iteration of the loop of [try_download_event]; [None] stands for
    [continue], [Some out] for [return out]. *)
Definition try_hint (p : PageId) (inst hint : string) : M (option string) :=
  try_catch
    (call (EvExpectDownload p) (expect_download E p 3000%N) ;;
     clicked <- click_by_text p [hint] 1500%N ;;
     dl <- call (EvDownloadValue p) (download_value E p) ;;
     if negb clicked then ret None
     else
       let out := path_join DOWNLOAD_DIR (safe_filename inst) in
       call (EvSaveAs dl out) (save_as E dl out) ;;
       modify (append_action ("downloaded_via_click:" ++ hint)) ;;
       ret (Some out))
    (fun _ => ret None).

Fixpoint try_hints (p : PageId) (inst : string) (hints : list string)
  : M (option string) :=
  match hints with
  | [] => ret None
  | hint :: rest =>
      r <- try_hint p inst hint ;;
      match r with
      | Some out => ret (Some out)
      | None => try_hints p inst rest
      end
  end.

Definition try_download_event (p : PageId) (inst : string) : M (option string) :=
  enter CDownload ;;
  try_hints p inst DOWNLOAD_HINTS.

Definition collect_candidate_links (p : PageId) : M (list string) :=
  r <- try_catch
         (hrefs <- call (EvEvalHrefs p) (eval_hrefs E p) ;; ret (Some hrefs))
         (fun _ => ret None) ;;
  match r with
  | None => ret []
  | Some hrefs => ret (candidate_links_of hrefs)
  end.

(** The three assignments made on every successful download. *)
Definition mark_downloaded (out : string) (final : PageId) : M unit :=
  modify (set_status "downloaded") ;;
  modify (set_file_path out) ;;
  u <- observe (page_url E final) ;;
  modify (set_final_url u).

(** Open in page [q] the address [url] evaluates to and run the download
    trigger there; [true] stands for [return r].  Used for a sniffed PDF
    address. *)
Definition follow_pdf_url (q : PageId) (inst : string) (url : M string)
  : M bool :=
  finally
    (try_catch
       (u <- url ;;
        call (EvGoto q u) (goto E q u) ;;
        call_total (EvSleep 800%N) (sleep E 800%N) ;;
        out <- try_download_event q inst ;;
        match out with
        | Some o => mark_downloaded o q ;; ret true
        | None => ret false
        end)
       (fun _ => ret false))
    (closing q).

(** One candidate of the fallback crawl. *)
Definition visit_candidate (p2 : PageId) (inst cand : string) : M bool :=
  finally
    (try_catch
       (call (EvGoto p2 cand) (goto E p2 cand) ;;
        call_total (EvSleep 800%N) (sleep E 800%N) ;;
        handle_cookies p2 ;;
        close_modals p2 ;;
        g <- resolve_gate p2 ;;
        if negb (fst g) then ret false
        else
          out2 <- try_download_event p2 inst ;;
          match out2 with
          | Some o => mark_downloaded o p2 ;; ret true
          | None =>
              s2 <- last_pdf_url p2 ;;
              if truthy s2 then
                p3 <- open_page ;;
                follow_pdf_url p3 inst (last_pdf_url p2)
              else ret false
          end)
       (fun _ => ret false))
    (closing p2).

Fixpoint crawl (inst : string) (candidates : list string) : M bool :=
  match candidates with
  | [] => ret false
  | cand :: rest =>
      p2 <- open_page ;;
      found <- visit_candidate p2 inst cand ;;
      if found then ret true else crawl inst rest
  end.

Definition screenshot_path (inst tag : string) : string :=
  path_join SCREENSHOT_DIR (slugify inst ++ "_" ++ tag ++ ".png").

Definition scroll_page (p : PageId) : M unit :=
  try_catch
    (call (EvEvaluate p "window.scrollTo(0, document.body.scrollHeight / 2)")
          (evaluate E p "window.scrollTo(0, document.body.scrollHeight / 2)") ;;
     call_total (EvSleep 500%N) (sleep E 500%N) ;;
     call (EvEvaluate p "window.scrollTo(0, document.body.scrollHeight)")
          (evaluate E p "window.scrollTo(0, document.body.scrollHeight)") ;;
     call_total (EvSleep 1000%N) (sleep E 1000%N))
    (fun _ => ret tt).

(** Load the page and clear the obstacles: everything [harvest_one] does
    inside its [try] before it calls [resolve_gate]. *)
Definition open_and_clear (page : PageId) (url : string) : M unit :=
  call (EvGoto page url) (goto E page url) ;;
  call_total (EvSleep 1000%N) (sleep E 1000%N) ;;
  handle_linkedin_interstitial page ;;
  scroll_page page ;;
  handle_cookies page ;;
  close_modals page.

(** [harvest_one] from its comment Try click-to-download on: the
    trigger on the page itself, then the sniffed address, then the crawl of
    the candidate links. *)
Definition click_then_crawl (page : PageId) (inst : string) : M unit :=
  out <- try_download_event page inst ;;
  match out with
  | Some o => mark_downloaded o page
  | None =>
      s <- last_pdf_url page ;;
      found <- (if truthy s
                then p2 <- open_page ;; follow_pdf_url p2 inst (ret s)
                else ret false) ;;
      if found then ret tt
      else
        candidates <- collect_candidate_links page ;;
        found <- crawl inst candidates ;;
        if found then ret tt
        else
          modify (set_status "not_found") ;;
          modify (set_notes "No downloadable PDF detected via heuristics. Manual check needed.") ;;
          u <- observe (page_url E page) ;;
          modify (set_final_url u) ;;
          call (EvScreenshot page (screenshot_path inst "not_found"))
               (screenshot E page (screenshot_path inst "not_found"))
  end.

(** What [harvest_one] does once [resolve_gate] has answered. *)
Definition after_gate (page : PageId) (inst : string) (g : bool * string)
  : M unit :=
  let (handled, note) := g in
  if negb handled then
    u <- observe (page_url E page) ;;
    modify (set_final_url u) ;;
    modify (set_status "manual_required") ;;
    modify (set_notes note) ;;
    call (EvScreenshot page (screenshot_path inst "manual_required"))
         (screenshot E page (screenshot_path inst "manual_required"))
  else
    u <- observe (page_url E page) ;;
    modify (set_final_url u) ;;
    s <- last_pdf_url page ;;
    out <- (if is_pdf_url u || truthy s
            then try_download_event page inst else ret None) ;;
    match out with
    | Some o => modify (set_status "downloaded") ;; modify (set_file_path o)
    | None => click_then_crawl page inst
    end.

(** The [except Exception as e] clause of [harvest_one]; [e] is repr(e). *)
Definition on_error (page : PageId) (inst e : string) : M unit :=
  modify (set_status "error") ;;
  modify (set_notes e) ;;
  try_catch
    (u <- observe (page_url E page) ;;
     modify (set_final_url u) ;;
     call (EvScreenshot page (screenshot_path inst "error"))
          (screenshot E page (screenshot_path inst "error")))
    (fun _ => ret tt).

(** [harvest_one(context, institution, url)]: returns the result object. *)
Definition harvest_one (inst url : string) : M HarvestResult :=
  modify (fun _ => new_result inst url) ;;
  page <- open_page ;;
  finally
    (try_catch
       (open_and_clear page url ;;
        g <- resolve_gate page ;;
        after_gate page inst g)
       (on_error page inst))
    (closing page) ;;
  get_obj.

End Pipeline.

End PdfHarvester.

(** ** [harvester.py], with [config.py] and [utils.py] *)

Module Harvester.
Import PyStr Browser.
Local Open Scope harvest_scope.

(** *** [config.py] *)

Definition COOKIE_BUTTON_TEXTS : list string :=
  ["Accept all"; "Accept"; "I agree"; "Agree"; "OK"; "Allow all"; "Got it";
   "Accept Cookies"; "Allow Cookies"].

Definition POPUP_CLOSE_TEXTS : list string :=
  ["X"; "Close"; "Dismiss"; "No thanks"; "Later"].

Definition POPUP_CLOSE_SELECTORS : list string :=
  ["button[aria-label='Close']"; "button[class*='close']"; ".close-icon";
   ".modal-close"].

Definition PDF_LINK_KEYWORDS_PRIORITY : list string :=
  ["download full pdf"; "download pdf"; "view pdf"; "full report"; "download"].

Definition COMPLIANCE_GATE_KEYWORDS : list string :=
  ["financial intermediary"; "professional investor"; "institutional";
   "retail"; "accredited"; "qualified"; "jurisdiction"; "i certify";
   "investor type"; "client type"].

Definition FALLBACK_LINK_KEYWORDS : list string :=
  ["pdf"; "download"; "report"; "outlook"].

(** [os.path.join] on two components. *)
Definition os_path_join (a b : string) : string :=
  if startswith "/" b then b
  else if String.eqb a EmptyString || endswith "/" a then a ++ b
  else a ++ "/" ++ b.

(** The selector [text=/.../i] built by the f-strings. *)
Definition text_selector (t : string) : string := "text=/" ++ t ++ "/i".

(** *** The result dictionary of [process_url] *)

Record ResultDict := mkDict {
  start_url : string;
  final_url : string;
  status : string;
  notes : string;
  file_path : string
}.

Definition set_final_url (u : string) (r : ResultDict) : ResultDict :=
  mkDict (start_url r) u (status r) (notes r) (file_path r).
Definition set_status (s : string) (r : ResultDict) : ResultDict :=
  mkDict (start_url r) (final_url r) s (notes r) (file_path r).
Definition set_notes (n : string) (r : ResultDict) : ResultDict :=
  mkDict (start_url r) (final_url r) (status r) n (file_path r).
Definition set_file_path (f : string) (r : ResultDict) : ResultDict :=
  mkDict (start_url r) (final_url r) (status r) (notes r) f.

(** What [process_url] returns: the dictionary, or the [False] it passes on
    from [_handle_direct_pdf_download]. *)
Inductive Returned :=
| RetResult (r : ResultDict)
| RetFalse.

(** *** Response check *)

(** [_is_pdf_response(response)] *)
Definition _is_pdf_response (response : option Response) : bool :=
  match response with
  | None => false
  | Some r =>
      let content_type :=
        lower (match resp_content_type r with Some v => v | None => EmptyString end) in
      contains "application/pdf" content_type
      || endswith ".pdf" (lower (resp_url r))
  end.

(** *** Scored fallback candidates *)

(** What the first loop of [_try_fallback_links] reads of one anchor:
    [get_attribute] and [text_content] either raise or give values that may
    be [None]. *)
Inductive AnchorRead :=
| ReadRaises
| ReadOk (href : option string) (text : option string).

Local Open Scope Z_scope.

(** The score the loop body computes for an anchor with a non-empty href. *)
Definition link_score (href : string) (text : option string) : Z :=
  let score := 0 in
  let score := if endswith ".pdf" (lower href) then score + 10 else score in
  let score := if contains "pdf" (lower href) then score + 5 else score in
  let score :=
    if match text with
       | Some t => truthy t && any_in FALLBACK_LINK_KEYWORDS (lower t)
       | None => false
       end
    then score + 3 else score in
  score.

(** One iteration of the loop: the candidates list after the anchor. *)
Definition add_candidate (candidates : list (Z * string)) (a : AnchorRead)
  : list (Z * string) :=
  match a with
  | ReadRaises => candidates
  | ReadOk None _ => candidates
  | ReadOk (Some href) text =>
      if negb (truthy href) then candidates
      else
        let score := link_score href text in
        if 0 <? score then (candidates ++ [(score, href)])%list else candidates
  end.

Definition scored_candidates (anchors : list AnchorRead) : list (Z * string) :=
  fold_left add_candidate anchors [].

(** [candidates.sort(key=lambda x: x[0], reverse=True)]: Python's sort is
    stable, and with reverse=True entries of equal key keep their order. *)
Fixpoint insert_desc (c : Z * string) (l : list (Z * string))
  : list (Z * string) :=
  match l with
  | [] => [c]
  | d :: l' => if fst d <=? fst c then c :: d :: l' else d :: insert_desc c l'
  end.

Definition sort_desc (l : list (Z * string)) : list (Z * string) :=
  fold_right insert_desc [] l.

(** [top_candidates = candidates[:10]] after the sort. *)
Definition top_candidates (anchors : list AnchorRead) : list (Z * string) :=
  firstn 10 (sort_desc (scored_candidates anchors)).

Local Close Scope Z_scope.

Section Pipeline.
Variable E : Engine.
(** [config.INVESTOR_PROFILE], [config.DOWNLOAD_DIR], [config.SCREENSHOT_DIR]. *)
Variable INVESTOR_PROFILE : string.
Variable DOWNLOAD_DIR : string.
Variable SCREENSHOT_DIR : string.
(** Whether the name [os] is bound in the namespace of [harvester.py].  The
    file imports time, logging, playwright, config and utils only, so in the
    source it is not: see [source_os_bound]. *)
Variable os_bound : bool.

Local Abbreviation M := (@Browser.M E ResultDict).

(** [utils.save_screenshot(page, name_prefix)]: never raises. *)
Definition save_screenshot (p : PageId) (name_prefix : string)
  : M (option string) :=
  timestamp <- observe (now_stamp E) ;;
  let filename := name_prefix ++ "_" ++ timestamp ++ ".png" in
  let filepath := os_path_join SCREENSHOT_DIR filename in
  try_catch
    (call (EvScreenshot p filepath) (screenshot E p filepath) ;;
     ret (Some filepath))
    (fun _ => ret None).

(** [_handle_cookies]: the first visible text is clicked and the method
    returns. *)
Fixpoint _handle_cookies_loop (p : PageId) (texts : list string) : M unit :=
  match texts with
  | [] => ret tt
  | text :: rest =>
      let selector := text_selector text in
      stop <-
        try_catch
          (v <- call (EvIsVisible p selector) (is_visible E p selector) ;;
           if v then
             call (EvClick p selector) (click E p selector) ;;
             call_total (EvSleep 1000%N) (sleep E 1000%N) ;;
             ret true
           else ret false)
          (fun _ => ret false) ;;
      if stop then ret tt else _handle_cookies_loop p rest
  end.

Definition _handle_cookies (p : PageId) : M unit :=
  enter CCookies ;;
  _handle_cookies_loop p COOKIE_BUTTON_TEXTS.

(** One loop of [_handle_popups]: every visible selector is clicked. *)
Fixpoint click_visible (p : PageId) (selectors : list string) : M unit :=
  match selectors with
  | [] => ret tt
  | selector :: rest =>
      try_catch
        (v <- call (EvIsVisible p selector) (is_visible E p selector) ;;
         if v then
           call (EvClick p selector) (click E p selector) ;;
           call_total (EvSleep 500%N) (sleep E 500%N)
         else ret tt)
        (fun _ => ret tt) ;;
      click_visible p rest
  end.

Definition _handle_popups (p : PageId) : M unit :=
  enter CModals ;;
  click_visible p (map text_selector POPUP_CLOSE_TEXTS) ;;
  click_visible p POPUP_CLOSE_SELECTORS.

(** Evaluating [os.path.join] in [harvester.py]. *)
Definition harvester_os_path_join (a b : string) : M string :=
  if os_bound then ret (os_path_join a b)
  else raise "NameError: name 'os' is not defined".

(** [_save_download(download, institution, result)] *)
Definition _save_download (download : DownloadId) (institution : string)
  : M bool :=
  try_catch
    (date_str <- observe (now_date E) ;;
     let filename := Utils.sanitize_filename institution date_str in
     save_path <- harvester_os_path_join DOWNLOAD_DIR filename ;;
     call (EvSaveAs download save_path) (save_as E download save_path) ;;
     modify (set_status "downloaded") ;;
     modify (set_file_path save_path) ;;
     modify (set_notes "Successfully downloaded PDF.") ;;
     ret true)
    (fun _ => ret false).

(** The inner loop of [_try_download_buttons] over the located elements;
    [Some b] stands for [return b], [None] for the end of the loop. *)
Fixpoint try_elements (p : PageId) (institution : string)
         (elements : list ElemId) : M (option bool) :=
  match elements with
  | [] => ret None
  | element :: rest =>
      v <- call (EvElemVisible element) (elem_is_visible E element) ;;
      if negb v then try_elements p institution rest
      else
        call (EvExpectDownload p) (expect_download E p 5000%N) ;;
        call (EvElemClick element) (elem_click E element) ;;
        download <- call (EvDownloadValue p) (download_value E p) ;;
        b <- _save_download download institution ;;
        ret (Some b)
  end.

Fixpoint try_keywords (p : PageId) (institution : string)
         (keywords : list string) : M bool :=
  match keywords with
  | [] => ret false
  | keyword :: rest =>
      let selector := text_selector keyword in
      r <- try_catch
             (elements <- call (EvLocatorAll p selector) (locator_all E p selector) ;;
              try_elements p institution elements)
             (fun _ => ret None) ;;
      match r with
      | Some b => ret b
      | None => try_keywords p institution rest
      end
  end.

Definition _try_download_buttons (p : PageId) (institution : string) : M bool :=
  enter CDownload ;;
  try_keywords p institution PDF_LINK_KEYWORDS_PRIORITY.

(** [_check_compliance_gate]: one of none, gate_passed, manual_required. *)
Definition _check_compliance_gate (p : PageId) : M string :=
  enter CGate ;;
  c <- call (EvContent p) (content E p) ;;
  let content := lower c in
  let found_gate := any_in COMPLIANCE_GATE_KEYWORDS content in
  if negb found_gate then ret "none"
  else if String.eqb INVESTOR_PROFILE "unknown" then ret "manual_required"
  else
    let profile_selector := text_selector INVESTOR_PROFILE in
    r <- try_catch
           (v <- call (EvIsVisible p profile_selector) (is_visible E p profile_selector) ;;
            if v then
              call (EvClick p profile_selector) (click E p profile_selector) ;;
              call (EvWaitLoad p) (wait_for_load_state E p "networkidle") ;;
              ret true
            else ret false)
           (fun _ => ret false) ;;
    if r then ret "gate_passed" else ret "manual_required".

(** The first loop of [_try_fallback_links]: read every anchor. *)
Fixpoint read_anchors (links : list ElemId) : M (list AnchorRead) :=
  match links with
  | [] => ret []
  | link :: rest =>
      a <- try_catch
             (href <- call (EvElemAttr link) (elem_get_attribute E link "href") ;;
              text <- call (EvElemText link) (elem_text_content E link) ;;
              ret (ReadOk href text))
             (fun _ => ret ReadRaises) ;;
      more <- read_anchors rest ;;
      ret (a :: more)
  end.

(** The second loop of [_try_fallback_links]; [Some b] stands for
    [return b]. *)
Fixpoint try_candidates (p : PageId) (institution : string)
         (top : list (Z * string)) : M bool :=
  match top with
  | [] => ret false
  | (_, href) :: rest =>
      r <- try_catch
             (direct <-
                (if endswith ".pdf" (lower href) then
                   try_catch
                     (call (EvExpectDownload p) (expect_download E p 10000%N) ;;
                      _ <- call (EvGoto p href) (goto E p href) ;;
                      download <- call (EvDownloadValue p) (download_value E p) ;;
                      b <- _save_download download institution ;;
                      ret (Some b))
                     (fun _ => ret None)
                 else ret None) ;;
              match direct with
              | Some b => ret (Some b)
              | None =>
                  _ <- call (EvGoto p href) (goto E p href) ;;
                  b <- _try_download_buttons p institution ;;
                  if b then ret (Some true) else ret None
              end)
             (fun _ => ret None) ;;
      match r with
      | Some b => ret b
      | None => try_candidates p institution rest
      end
  end.

Definition _try_fallback_links (p : PageId) (institution : string) : M bool :=
  links <- call (EvLocatorAll p "a") (locator_all E p "a") ;;
  anchors <- read_anchors links ;;
  try_candidates p institution (top_candidates anchors).

(** [_handle_direct_pdf_download]: a stub that returns False. *)
Definition _handle_direct_pdf_download : M bool := ret false.

(** Steps 2 to 5 of [process_url]: cookies, popups and the first scan for
    download buttons; [true] stands for [return result]. *)
Definition before_gate (page : PageId) (institution : string) : M bool :=
  _handle_cookies page ;;
  _handle_popups page ;;
  _try_download_buttons page institution.

(** Steps 6 to 8 of [process_url], once [_check_compliance_gate] has
    answered. *)
Definition after_gate_check (page : PageId) (institution gate_status : string)
  : M unit :=
  if String.eqb gate_status "manual_required" then
    modify (set_status "manual_required") ;;
    modify (set_notes "Compliance gate detected, manual intervention required.") ;;
    _ <- save_screenshot page (institution ++ "_manual_required") ;;
    ret tt
  else
    b <- (if String.eqb gate_status "gate_passed"
          then _try_download_buttons page institution else ret false) ;;
    if b then ret tt
    else
      b <- _try_fallback_links page institution ;;
      if b then ret tt
      else
        modify (set_status "not_found") ;;
        modify (set_notes "No PDF found after scanning.") ;;
        _ <- save_screenshot page (institution ++ "_not_found") ;;
        ret tt.

(** Steps 2 to 8 of [process_url], after the page has loaded and was found
    not to be a PDF response. *)
Definition scan_page (page : PageId) (institution : string) : M unit :=
  b <- before_gate page institution ;;
  if b then ret tt
  else
    gate_status <- _check_compliance_gate page ;;
    after_gate_check page institution gate_status.

(** Step 1 of [process_url]: [None] stands for the [return result] of the
    load failure. *)
Definition load_page (page : PageId) (institution url : string)
  : M (option (option Response)) :=
  try_catch
    (response <- call (EvGoto page url) (goto E page url) ;;
     u <- observe (page_url E page) ;;
     modify (set_final_url u) ;;
     ret (Some response))
    (fun e =>
       modify (set_status "error") ;;
       modify (set_notes ("Failed to load page: " ++ e)) ;;
       _ <- save_screenshot page (institution ++ "_load_error") ;;
       ret None).

(** The outer [except Exception as e] clause of [process_url]. *)
Definition on_error (page : PageId) (institution e : string) : M Returned :=
  modify (set_status "error") ;;
  modify (set_notes e) ;;
  _ <- save_screenshot page (institution ++ "_error") ;;
  r <- get_obj ;; ret (RetResult r).

(** [process_url(institution, url)] *)
Definition process_url (institution url : string) : M Returned :=
  page <- open_page ;;
  modify (fun _ => mkDict url EmptyString "error" EmptyString EmptyString) ;;
  finally
    (try_catch
       (loaded <- load_page page institution url ;;
        match loaded with
        | None => r <- get_obj ;; ret (RetResult r)
        | Some response =>
            if _is_pdf_response response then
              _ <- _handle_direct_pdf_download ;; ret RetFalse
            else
              scan_page page institution ;;
              r <- get_obj ;; ret (RetResult r)
        end)
       (on_error page institution))
    (closing page).

End Pipeline.

(** [harvester.py] as it stands: [os] is never imported. *)
Definition source_os_bound : bool := false.

End Harvester.

(** ** The task loops: [main] of [pdf_harvester.py] and of [main.py] *)

Module PdfMain.
Import PyStr Browser.
Local Open Scope harvest_scope.

Section Loop.
Variable E : Engine.
Variable INVESTOR_PROFILE : string.

Local Abbreviation M := (@Browser.M E PdfHarvester.HarvestResult).

(** The loop of [main]: for inst, url in URLS the task is run and its
    result appended to the list of results. *)
Fixpoint harvest_all (urls : list (string * string))
  : M (list PdfHarvester.HarvestResult) :=
  match urls with
  | [] => ret []
  | (inst, url) :: rest =>
      res <- PdfHarvester.harvest_one E INVESTOR_PROFILE inst url ;;
      results <- harvest_all rest ;;
      ret (res :: results)
  end.

End Loop.

(** [write_reports]: failed = the results whose status is not downloaded. *)
Definition failed (results : list PdfHarvester.HarvestResult)
  : list PdfHarvester.HarvestResult :=
  filter (fun r => negb (String.eqb (PdfHarvester.status r) "downloaded")) results.

End PdfMain.

Module HarvesterMain.
Import PyStr Browser.
Local Open Scope harvest_scope.

(** One entry of the summary that [main] of [main.py] collects. *)
Record SummaryRow := mkRow {
  Institution : string;
  Start_URL : string;
  Final_URL : string;
  Status : string;
  Notes : string;
  File_Path : string;
  Timestamp : string
}.

(** White space outside ASCII, as [str.strip] and [str.isspace] have it.  A
    character outside ASCII is held as the bytes of its UTF-8 encoding (as in
    [PdfHarvester.CLOSE_SELECTORS]): U+0085 and U+00A0 are C2 85 and C2 A0;
    U+1680 is E1 9A 80; U+2000 to U+200A, U+2028, U+2029 and U+202F are
    E2 80 followed by 80 to 8A, A8, A9 and AF; U+205F is E2 81 9F; U+3000 is
    E3 80 80. *)
Definition wide_space2 (a b : nat) : bool :=
  ((a =? 194) && ((b =? 133) || (b =? 160)))%nat.

Definition wide_space3 (a b c : nat) : bool :=
  (((a =? 225) && (b =? 154) && (c =? 128))
   || ((a =? 226) && (b =? 128)
       && (((128 <=? c) && (c <=? 138)) || (c =? 168) || (c =? 169) || (c =? 175)))
   || ((a =? 226) && (b =? 129) && (c =? 159))
   || ((a =? 227) && (b =? 128) && (c =? 128)))%nat.

(** [not s.strip()]: nothing is left of [s] once its white space is
    stripped, that is, [s] holds white space only. *)
Fixpoint only_space (s : string) : bool :=
  match s with
  | EmptyString => true
  | String a s1 =>
      if is_space a then only_space s1
      else
        match s1 with
        | EmptyString => false
        | String b s2 =>
            if wide_space2 (nat_of_ascii a) (nat_of_ascii b) then only_space s2
            else
              match s2 with
              | EmptyString => false
              | String c s3 =>
                  wide_space3 (nat_of_ascii a) (nat_of_ascii b) (nat_of_ascii c)
                  && only_space s3
              end
        end
  end.

(** The test [pd.isna(url) or not url.strip()] on a cell that is missing
    ([None]) or a string. *)
Definition is_blank (url : option string) : bool :=
  match url with
  | None => true
  | Some u => only_space u
  end.

Section Loop.
Variable E : Engine.
Variable INVESTOR_PROFILE : string.
Variable DOWNLOAD_DIR : string.
Variable SCREENSHOT_DIR : string.
Variable os_bound : bool.
(** [datetime.now().isoformat()] *)
Variable iso_now : World E -> string.

Local Abbreviation M := (@Browser.M E Harvester.ResultDict).

(** The loop of [main] over the rows of the input table.  Subscripting
    the False that [process_url] returns for a PDF response raises a
    TypeError, which [main] does not catch. *)
Fixpoint process_rows (rows : list (string * option string))
  : M (list SummaryRow) :=
  match rows with
  | [] => ret []
  | (institution, url) :: rest =>
      match url with
      | Some u =>
          if is_blank url then process_rows rest
          else
            result <- Harvester.process_url E INVESTOR_PROFILE DOWNLOAD_DIR
                        SCREENSHOT_DIR os_bound institution u ;;
            match result with
            | Harvester.RetFalse =>
                raise "TypeError: 'bool' object is not subscriptable"
            | Harvester.RetResult r =>
                stamp <- observe iso_now ;;
                results <- process_rows rest ;;
                ret (mkRow institution (Harvester.start_url r)
                           (Harvester.final_url r) (Harvester.status r)
                           (Harvester.notes r) (Harvester.file_path r) stamp
                     :: results)
            end
      | None => process_rows rest
      end
  end.

End Loop.

End HarvesterMain.

(** ** Opening and closing pages as calls that may raise *)

Module Raising.
Import PyStr PdfUtil Browser.
Local Open Scope harvest_scope.

(** [context.new_page()] and [page.close()] typed like every other call of
    the engine: they return or raise.  The fields [new_page] and [close] of
    [Engine] are these two calls for a browser in which they always return
    ([total_calls]); the definitions of this module are the tasks and the
    loops of both programs over calls that may raise. *)
Record PageCalls (E : Engine) := {
  new_page_call : World E -> outcome PageId * World E;
  close_call : PageId -> World E -> outcome unit * World E
}.
Arguments new_page_call {E} _ _.
Arguments close_call {E} _ _ _.

Definition total_calls (E : Engine) : PageCalls E := {|
  new_page_call := fun w => let (p, w') := new_page E w in (Ok p, w');
  close_call := fun p w => (Ok tt, close E p w)
|}.

(** No [page.close()] raises. *)
Definition close_returns {E : Engine} (C : PageCalls E) : Prop :=
  forall p w, exists w', close_call C p w = (Ok tt, w').

Section Monad.
Context {E : Engine} {R : Type}.
Variable C : PageCalls E.

(** [context.new_page()]: the trace records the page once it is open. *)
Definition opening : M (E:=E) (R:=R) PageId :=
  fun st =>
    match new_page_call C (world st) with
    | (Ok p, w') => (Ok p, mkSt w' (trace st ++ [EvNewPage p]) (obj st))
    | (Raise e, w') => (Raise e, mkSt w' (trace st) (obj st))
    end.

(** [page.close()] *)
Definition close_page (p : PageId) : M (E:=E) (R:=R) unit :=
  call (EvClose p) (close_call C p).

(** [try: m  finally: f]: [f] runs whatever [m] did.  When [f] returns, the
    outcome is that of [m]; when [f] raises, its exception replaces the
    outcome of [m], a pending [return] included. *)
Definition finally_do {A} (m : M (E:=E) (R:=R) A) (f : M (E:=E) (R:=R) unit)
  : M (E:=E) (R:=R) A :=
  fun st =>
    let (r, st') := m st in
    match f st' with
    | (Ok _, st'') => (r, st'')
    | (Raise e, st'') => (Raise e, st'')
    end.

End Monad.

(** *** [pdf_harvester.py] *)

Module Pdf.
Import PdfHarvester.

Section Pipeline.
Variable E : Engine.
Variable C : PageCalls E.
Variable INVESTOR_PROFILE : string.

Local Abbreviation M := (@Browser.M E HarvestResult).

(** The block opened on a sniffed PDF address: [try] ... [except Exception:
    pass] ... [finally: q.close()]. *)
Definition follow_pdf_url (q : PageId) (inst : string) (url : M string)
  : M bool :=
  finally_do
    (try_catch
       (u <- url ;;
        call (EvGoto q u) (goto E q u) ;;
        call_total (EvSleep 800%N) (sleep E 800%N) ;;
        out <- try_download_event E q inst ;;
        match out with
        | Some o => mark_downloaded E o q ;; ret true
        | None => ret false
        end)
       (fun _ => ret false))
    (close_page C q).

(** One candidate of the fallback crawl.  [p3 = context.new_page()] and the
    block of [p3] stand inside the [try] of [p2]: what they raise, the
    failing [p3.close()] included, is swallowed by [except Exception:
    pass]. *)
Definition visit_candidate (p2 : PageId) (inst cand : string) : M bool :=
  finally_do
    (try_catch
       (call (EvGoto p2 cand) (goto E p2 cand) ;;
        call_total (EvSleep 800%N) (sleep E 800%N) ;;
        handle_cookies E p2 ;;
        close_modals E p2 ;;
        g <- resolve_gate E INVESTOR_PROFILE p2 ;;
        if negb (fst g) then ret false
        else
          out2 <- try_download_event E p2 inst ;;
          match out2 with
          | Some o => mark_downloaded E o p2 ;; ret true
          | None =>
              s2 <- last_pdf_url E p2 ;;
              if truthy s2 then
                p3 <- opening C ;;
                follow_pdf_url p3 inst (last_pdf_url E p2)
              else ret false
          end)
       (fun _ => ret false))
    (close_page C p2).

Fixpoint crawl (inst : string) (candidates : list string) : M bool :=
  match candidates with
  | [] => ret false
  | cand :: rest =>
      p2 <- opening C ;;
      found <- visit_candidate p2 inst cand ;;
      if found then ret true else crawl inst rest
  end.

Definition click_then_crawl (page : PageId) (inst : string) : M unit :=
  out <- try_download_event E page inst ;;
  match out with
  | Some o => mark_downloaded E o page
  | None =>
      s <- last_pdf_url E page ;;
      found <- (if truthy s
                then p2 <- opening C ;; follow_pdf_url p2 inst (ret s)
                else ret false) ;;
      if found then ret tt
      else
        candidates <- collect_candidate_links E page ;;
        found <- crawl inst candidates ;;
        if found then ret tt
        else
          modify (set_status "not_found") ;;
          modify (set_notes "No downloadable PDF detected via heuristics. Manual check needed.") ;;
          u <- observe (page_url E page) ;;
          modify (set_final_url u) ;;
          call (EvScreenshot page (screenshot_path inst "not_found"))
               (screenshot E page (screenshot_path inst "not_found"))
  end.

Definition after_gate (page : PageId) (inst : string) (g : bool * string)
  : M unit :=
  let (handled, note) := g in
  if negb handled then
    u <- observe (page_url E page) ;;
    modify (set_final_url u) ;;
    modify (set_status "manual_required") ;;
    modify (set_notes note) ;;
    call (EvScreenshot page (screenshot_path inst "manual_required"))
         (screenshot E page (screenshot_path inst "manual_required"))
  else
    u <- observe (page_url E page) ;;
    modify (set_final_url u) ;;
    s <- last_pdf_url E page ;;
    out <- (if is_pdf_url u || truthy s
            then try_download_event E page inst else ret None) ;;
    match out with
    | Some o => modify (set_status "downloaded") ;; modify (set_file_path o)
    | None => click_then_crawl page inst
    end.

(** [harvest_one(context, institution, url)].  [context.new_page()] stands
    before the [try]: when it raises, so does [harvest_one]; so it does when
    the [page.close()] of its [finally] raises. *)
Definition harvest_one (inst url : string) : M HarvestResult :=
  modify (fun _ => new_result inst url) ;;
  page <- opening C ;;
  finally_do
    (try_catch
       (open_and_clear E page url ;;
        g <- resolve_gate E INVESTOR_PROFILE page ;;
        after_gate page inst g)
       (on_error E page inst))
    (close_page C page) ;;
  get_obj.

(** The loop of [main]; it has no handler around [harvest_one]. *)
Fixpoint harvest_all (urls : list (string * string))
  : M (list HarvestResult) :=
  match urls with
  | [] => ret []
  | (inst, url) :: rest =>
      res <- harvest_one inst url ;;
      results <- harvest_all rest ;;
      ret (res :: results)
  end.

End Pipeline.

End Pdf.

(** *** [harvester.py] and [main.py] *)

Module Pkg.
Import Harvester.

(** A cell of the URL column of the input table as pandas hands it over:
    missing (NaN), a string, or a value of another type, named by its type. *)
Inductive Cell :=
| CellNaN
| CellText (s : string)
| CellOther (type_name : string).

Section Pipeline.
Variable E : Engine.
Variable C : PageCalls E.
Variable INVESTOR_PROFILE : string.
Variable DOWNLOAD_DIR : string.
Variable SCREENSHOT_DIR : string.
Variable os_bound : bool.
Variable iso_now : World E -> string.

Local Abbreviation M := (@Browser.M E ResultDict).

(** [process_url(institution, url)].  [self.context.new_page()] stands
    before the [try], and [page.close()] in its [finally]: what either
    raises leaves [process_url]. *)
Definition process_url (institution url : string) : M Returned :=
  page <- opening C ;;
  modify (fun _ => mkDict url EmptyString "error" EmptyString EmptyString) ;;
  finally_do
    (try_catch
       (loaded <- load_page E SCREENSHOT_DIR page institution url ;;
        match loaded with
        | None => r <- get_obj ;; ret (RetResult r)
        | Some response =>
            if _is_pdf_response response then
              _ <- _handle_direct_pdf_download E ;; ret RetFalse
            else
              scan_page E INVESTOR_PROFILE DOWNLOAD_DIR SCREENSHOT_DIR os_bound
                        page institution ;;
              r <- get_obj ;; ret (RetResult r)
        end)
       (on_error E SCREENSHOT_DIR page institution))
    (close_page C page).

(** The loop of [main] in main.py over the rows of the input table (the
    Institution cell is taken to be a string).  [url.strip()] on a cell that
    is neither missing nor a string raises an AttributeError; [main]
    catches KeyboardInterrupt only, so this, the TypeError of subscripting
    False and whatever [process_url] raises all end the loop. *)
Fixpoint process_rows (rows : list (string * Cell))
  : M (list HarvesterMain.SummaryRow) :=
  match rows with
  | [] => ret []
  | (institution, url) :: rest =>
      match url with
      | CellNaN => process_rows rest
      | CellOther type_name =>
          raise ("AttributeError: '" ++ type_name
                 ++ "' object has no attribute 'strip'")
      | CellText u =>
          if HarvesterMain.is_blank (Some u) then process_rows rest
          else
            result <- process_url institution u ;;
            match result with
            | RetFalse => raise "TypeError: 'bool' object is not subscriptable"
            | RetResult r =>
                stamp <- observe iso_now ;;
                results <- process_rows rest ;;
                ret (HarvesterMain.mkRow institution (start_url r) (final_url r)
                       (status r) (notes r) (file_path r) stamp
                     :: results)
            end
      end
  end.

End Pipeline.

End Pkg.

End Raising.

(** ** A scripted engine for concrete runs *)

Module Fake.
Import PyStr Browser.

(** A single static document served at every address: its text, its
    buttons (accessible name, and whether a click starts a download), the
    selectors that are visible (and whether a click starts a download), and
    its anchors. *)
Record FakeWorld := mkFake {
  fw_text : string;
  fw_buttons : list (string * bool);
  fw_visible : list (string * bool);
  fw_anchors : list (option string * option string);
  fw_screenshot_ok : bool;
  fw_url : string;
  fw_pending : bool;
  fw_pages : nat
}.

Definition with_pending (b : bool) (w : FakeWorld) : FakeWorld :=
  mkFake (fw_text w) (fw_buttons w) (fw_visible w) (fw_anchors w)
         (fw_screenshot_ok w) (fw_url w) b (fw_pages w).

Definition with_url (u : string) (w : FakeWorld) : FakeWorld :=
  mkFake (fw_text w) (fw_buttons w) (fw_visible w) (fw_anchors w)
         (fw_screenshot_ok w) u (fw_pending w) (fw_pages w).

Definition matching (t : string) (w : FakeWorld) : list (string * bool) :=
  filter (fun b => contains (lower t) (lower (fst b))) (fw_buttons w).

Fixpoint lookup_sel (sel : string) (l : list (string * bool)) (i : nat)
  : option (nat * bool) :=
  match l with
  | [] => None
  | (s, d) :: l' =>
      if String.eqb s sel then Some (i, d) else lookup_sel sel l' (S i)
  end.

Definition timeout {A} : outcome A := Raise "TimeoutError".

Definition fake_engine : Engine := {|
  World := FakeWorld;
  new_page := fun w =>
    (fw_pages w,
     mkFake (fw_text w) (fw_buttons w) (fw_visible w) (fw_anchors w)
            (fw_screenshot_ok w) (fw_url w) (fw_pending w) (S (fw_pages w)));
  close := fun _ w => w;
  page_url := fun _ w => fw_url w;
  responses_seen := fun _ _ => [];
  goto := fun _ url w =>
    (Ok (Some {| resp_url := url; resp_content_type := Some "text/html";
                 resp_content_disposition := None |}),
     with_url url w);
  inner_text_body := fun _ w => (Ok (fw_text w), w);
  content := fun _ w => (Ok (fw_text w), w);
  role_count := fun _ r t w =>
    match r with
    | role_button => (Ok (List.length (matching t w)), w)
    | role_link => (Ok 0, w)
    end;
  role_click_first := fun _ r t _ w =>
    match r, matching t w with
    | role_button, (_, d) :: _ => (Ok tt, with_pending d w)
    | _, _ => (timeout, w)
    end;
  locator_count := fun _ _ w => (Ok 0, w);
  locator_click_first := fun _ _ _ w => (timeout, w);
  is_visible := fun _ sel w =>
    (Ok (match lookup_sel sel (fw_visible w) 0 with Some _ => true | None => false end), w);
  click := fun _ sel w =>
    match lookup_sel sel (fw_visible w) 0 with
    | Some (_, d) => (Ok tt, with_pending d w)
    | None => (timeout, w)
    end;
  locator_all := fun _ sel w =>
    if String.eqb sel "a" then (Ok (seq 100 (List.length (fw_anchors w))), w)
    else match lookup_sel sel (fw_visible w) 0 with
         | Some (i, _) => (Ok [i], w)
         | None => (Ok [], w)
         end;
  elem_is_visible := fun _ w => (Ok true, w);
  elem_click := fun el w =>
    match nth_error (fw_visible w) el with
    | Some (_, d) => (Ok tt, with_pending d w)
    | None => (timeout, w)
    end;
  elem_get_attribute := fun el _ w =>
    match nth_error (fw_anchors w) (el - 100) with
    | Some (h, _) => (Ok h, w)
    | None => (timeout, w)
    end;
  elem_text_content := fun el w =>
    match nth_error (fw_anchors w) (el - 100) with
    | Some (_, t) => (Ok t, w)
    | None => (timeout, w)
    end;
  evaluate := fun _ _ w => (Ok tt, w);
  eval_hrefs := fun _ w =>
    (Ok (flat_map (fun a => match fst a with Some h => [h] | None => [] end)
                  (fw_anchors w)), w);
  expect_download := fun _ _ w => (Ok tt, w);
  download_value := fun _ w =>
    if fw_pending w then (Ok 0, with_pending false w) else (timeout, w);
  save_as := fun _ _ w => (Ok tt, w);
  screenshot := fun _ _ w =>
    if fw_screenshot_ok w then (Ok tt, w) else (Raise "Error: screenshot failed", w);
  wait_for_load_state := fun _ _ w => (Ok tt, w);
  sleep := fun _ w => w;
  now_date := fun _ => "20261104";
  now_stamp := fun _ => "20261104_093000"
|}.

(** A second scripted engine: a page that loads, shows one certification
    sentence, and fails every other query. *)
Definition gate_text : string := "Please certify that you are a professional investor".

Definition gate_engine : Engine := {|
  World := unit;
  new_page := fun w => (0, w);
  close := fun _ w => w;
  page_url := fun _ _ => "https://example.org/outlook";
  responses_seen := fun _ _ => [];
  goto := fun _ _ w => (Ok None, w);
  inner_text_body := fun _ w => (Ok gate_text, w);
  content := fun _ w => (Ok gate_text, w);
  role_count := fun _ _ _ w => (timeout, w);
  role_click_first := fun _ _ _ _ w => (timeout, w);
  locator_count := fun _ _ w => (timeout, w);
  locator_click_first := fun _ _ _ w => (timeout, w);
  is_visible := fun _ _ w => (timeout, w);
  click := fun _ _ w => (timeout, w);
  locator_all := fun _ _ w => (timeout, w);
  elem_is_visible := fun _ w => (timeout, w);
  elem_click := fun _ w => (timeout, w);
  elem_get_attribute := fun _ _ w => (timeout, w);
  elem_text_content := fun _ w => (timeout, w);
  evaluate := fun _ _ w => (Ok tt, w);
  eval_hrefs := fun _ w => (timeout, w);
  expect_download := fun _ _ w => (Ok tt, w);
  download_value := fun _ w => (timeout, w);
  save_as := fun _ _ w => (Ok tt, w);
  screenshot := fun _ _ w => (Ok tt, w);
  wait_for_load_state := fun _ _ w => (Ok tt, w);
  sleep := fun _ w => w;
  now_date := fun _ => "20261104";
  now_stamp := fun _ => "20261104_093000"
|}.

(** A fresh world showing the given document. *)
Definition page_with (text : string) (buttons visible : list (string * bool))
           (anchors : list (option string * option string)) : FakeWorld :=
  mkFake text buttons visible anchors true EmptyString false 0.

Definition start {R} (w : FakeWorld) (r : R) : St fake_engine R :=
  mkSt (w : World fake_engine) [] r.

End Fake.

(** ** Two more scripted engines: pages that fail *)

Module Offline.
Import Browser.

(** A third scripted engine: the network is down, every call that may
    raise does. *)
Definition offline_engine : Engine := {|
  World := unit;
  new_page := fun w => (0, w);
  close := fun _ w => w;
  page_url := fun _ _ => "about:blank";
  responses_seen := fun _ _ => [];
  goto := fun _ _ w => (Raise "net::ERR_INTERNET_DISCONNECTED", w);
  inner_text_body := fun _ w => (Fake.timeout, w);
  content := fun _ w => (Fake.timeout, w);
  role_count := fun _ _ _ w => (Fake.timeout, w);
  role_click_first := fun _ _ _ _ w => (Fake.timeout, w);
  locator_count := fun _ _ w => (Fake.timeout, w);
  locator_click_first := fun _ _ _ w => (Fake.timeout, w);
  is_visible := fun _ _ w => (Fake.timeout, w);
  click := fun _ _ w => (Fake.timeout, w);
  locator_all := fun _ _ w => (Fake.timeout, w);
  elem_is_visible := fun _ w => (Fake.timeout, w);
  elem_click := fun _ w => (Fake.timeout, w);
  elem_get_attribute := fun _ _ w => (Fake.timeout, w);
  elem_text_content := fun _ w => (Fake.timeout, w);
  evaluate := fun _ _ w => (Fake.timeout, w);
  eval_hrefs := fun _ w => (Fake.timeout, w);
  expect_download := fun _ _ w => (Fake.timeout, w);
  download_value := fun _ w => (Fake.timeout, w);
  save_as := fun _ _ w => (Fake.timeout, w);
  screenshot := fun _ _ w => (Fake.timeout, w);
  wait_for_load_state := fun _ _ w => (Fake.timeout, w);
  sleep := fun _ w => w;
  now_date := fun _ => "20261104";
  now_stamp := fun _ => "20261104_093000"
|}.

End Offline.

Module Stale.
Import Browser.

(** A fourth scripted engine: the page loads, and every later query or
    action on it raises. *)
Definition stale_engine : Engine := {|
  World := unit;
  new_page := fun w => (0, w);
  close := fun _ w => w;
  page_url := fun _ _ => "https://example.org/outlook";
  responses_seen := fun _ _ => [];
  goto := fun _ _ w => (Ok None, w);
  inner_text_body := fun _ w => (Fake.timeout, w);
  content := fun _ w => (Fake.timeout, w);
  role_count := fun _ _ _ w => (Fake.timeout, w);
  role_click_first := fun _ _ _ _ w => (Fake.timeout, w);
  locator_count := fun _ _ w => (Fake.timeout, w);
  locator_click_first := fun _ _ _ w => (Fake.timeout, w);
  is_visible := fun _ _ w => (Fake.timeout, w);
  click := fun _ _ w => (Fake.timeout, w);
  locator_all := fun _ _ w => (Fake.timeout, w);
  elem_is_visible := fun _ w => (Fake.timeout, w);
  elem_click := fun _ w => (Fake.timeout, w);
  elem_get_attribute := fun _ _ w => (Fake.timeout, w);
  elem_text_content := fun _ w => (Fake.timeout, w);
  evaluate := fun _ _ w => (Fake.timeout, w);
  eval_hrefs := fun _ w => (Fake.timeout, w);
  expect_download := fun _ _ w => (Fake.timeout, w);
  download_value := fun _ w => (Fake.timeout, w);
  save_as := fun _ _ w => (Fake.timeout, w);
  screenshot := fun _ _ w => (Fake.timeout, w);
  wait_for_load_state := fun _ _ w => (Fake.timeout, w);
  sleep := fun _ w => w;
  now_date := fun _ => "20261104";
  now_stamp := fun _ => "20261104_093000"
|}.

End Stale.

(** ** Two more scripted engines: markup, and a page that cannot be closed *)

Module Markup.
Import Browser.

(** The sentence a visitor reads, and the HTML that renders it: the second
    word is emphasised. *)
Definition shown_text : string :=
  "Please certify that you are a professional investor".
Definition page_source : string :=
  "<p>Please certify that you are a <b>professional</b> investor</p>".

(** A fifth scripted engine: [Fake.gate_engine] with a page whose source is
    not its text. *)
Definition markup_engine : Engine := {|
  World := unit;
  new_page := fun w => (0, w);
  close := fun _ w => w;
  page_url := fun _ _ => "https://example.org/outlook";
  responses_seen := fun _ _ => [];
  goto := fun _ _ w => (Ok None, w);
  inner_text_body := fun _ w => (Ok shown_text, w);
  content := fun _ w => (Ok page_source, w);
  role_count := fun _ _ _ w => (Fake.timeout, w);
  role_click_first := fun _ _ _ _ w => (Fake.timeout, w);
  locator_count := fun _ _ w => (Fake.timeout, w);
  locator_click_first := fun _ _ _ w => (Fake.timeout, w);
  is_visible := fun _ _ w => (Fake.timeout, w);
  click := fun _ _ w => (Fake.timeout, w);
  locator_all := fun _ _ w => (Fake.timeout, w);
  elem_is_visible := fun _ w => (Fake.timeout, w);
  elem_click := fun _ w => (Fake.timeout, w);
  elem_get_attribute := fun _ _ w => (Fake.timeout, w);
  elem_text_content := fun _ w => (Fake.timeout, w);
  evaluate := fun _ _ w => (Ok tt, w);
  eval_hrefs := fun _ w => (Fake.timeout, w);
  expect_download := fun _ _ w => (Ok tt, w);
  download_value := fun _ w => (Fake.timeout, w);
  save_as := fun _ _ w => (Ok tt, w);
  screenshot := fun _ _ w => (Ok tt, w);
  wait_for_load_state := fun _ _ w => (Ok tt, w);
  sleep := fun _ w => w;
  now_date := fun _ => "20261104";
  now_stamp := fun _ => "20261104_093000"
|}.

End Markup.

Module Linked.
Import PyStr Browser.

Definition start_address : string := "https://example.org/outlook".
Definition report_address : string := "https://example.org/files/outlook.pdf".

(** A sixth scripted engine.  The world counts the pages opened.  Page 0
    shows no button and one anchor, to [report_address]; on page 1, opened
    for that anchor, a button named for the PDF starts a download when
    clicked. *)
Definition linked_engine : Engine := {|
  World := nat;
  new_page := fun w => (w, S w);
  close := fun _ w => w;
  page_url := fun p _ => if (p =? 0)%nat then start_address else report_address;
  responses_seen := fun _ _ => [];
  goto := fun _ _ w => (Ok None, w);
  inner_text_body := fun _ w => (Ok "Outlook 2026", w);
  content := fun _ w => (Ok "<h1>Outlook 2026</h1>", w);
  role_count := fun p r t w =>
    match r with
    | role_button =>
        if (p =? 1)%nat && contains "pdf" (lower t) then (Ok 1, w) else (Ok 0, w)
    | role_link => (Ok 0, w)
    end;
  role_click_first := fun p _ _ _ w =>
    if (p =? 1)%nat then (Ok tt, w) else (Fake.timeout, w);
  locator_count := fun _ _ w => (Ok 0, w);
  locator_click_first := fun _ _ _ w => (Fake.timeout, w);
  is_visible := fun _ _ w => (Ok false, w);
  click := fun _ _ w => (Fake.timeout, w);
  locator_all := fun _ _ w => (Ok [], w);
  elem_is_visible := fun _ w => (Fake.timeout, w);
  elem_click := fun _ w => (Fake.timeout, w);
  elem_get_attribute := fun _ _ w => (Fake.timeout, w);
  elem_text_content := fun _ w => (Fake.timeout, w);
  evaluate := fun _ _ w => (Ok tt, w);
  eval_hrefs := fun p w =>
    if (p =? 0)%nat then (Ok [report_address], w) else (Ok [], w);
  expect_download := fun _ _ w => (Ok tt, w);
  download_value := fun p w =>
    if (p =? 1)%nat then (Ok 0, w) else (Fake.timeout, w);
  save_as := fun _ _ w => (Ok tt, w);
  screenshot := fun _ _ w => (Ok tt, w);
  wait_for_load_state := fun _ _ w => (Ok tt, w);
  sleep := fun _ w => w;
  now_date := fun _ => "20261104";
  now_stamp := fun _ => "20261104_093000"
|}.

(** Its pages open; page 1 raises when it is closed, the others close. *)
Definition stuck_page : Raising.PageCalls linked_engine :=
  Raising.Build_PageCalls linked_engine
    (fun w => (Ok w, S w))
    (fun p w =>
       if (p =? 1)%nat then (Raise "Error: Page.close: Connection closed", w)
       else (Ok tt, w)).

(** Its pages open and close. *)
Definition sound_pages : Raising.PageCalls linked_engine :=
  Raising.total_calls linked_engine.

Definition start {R} (r : R) : St linked_engine R :=
  mkSt (0 : World linked_engine) [] r.

End Linked.

(** ** Statements in the words of the specification *)

Module Stated.
Import PyStr.

(** Every character of [s] satisfies [P]. *)
Definition all_chars (P : ascii -> bool) (s : string) : bool :=
  forallb P (list_ascii_of_string s).

(** Filename derivation as the specification words it: a sanitized slug cut
    to a bounded prefix, followed by a fixed suffix and the current date
    (and possibly a fixed extension). *)
Definition derived_as_stated (filename : string -> string -> string) : Prop :=
  exists (bound : nat) (prefix_of : string -> string) (suffix ext : string),
    forall institution date,
      String.length (prefix_of institution) <= bound /\
      filename institution date = prefix_of institution ++ suffix ++ date ++ ext.

(** First-seen de-duplication: an element stays where it first occurs and
    its later occurrences are dropped. *)
Fixpoint dedup (l : list string) : list string :=
  match l with
  | [] => []
  | x :: l' => x :: filter (fun y => negb (String.eqb y x)) (dedup l')
  end.

Definition has_url_keyword (h : string) : bool :=
  any_in PdfHarvester.FALLBACK_URL_KEYWORDS (lower h).

(** The either/or collector as the specification words it: the first pass
    keeps the hrefs that end in .pdf (read case-insensitively). *)
Definition collect_as_stated (hrefs : list string) : list string :=
  if existsb (fun h => endswith ".pdf" (lower h)) hrefs
  then firstn 10 (dedup (filter (fun h => endswith ".pdf" (lower h)) hrefs))
  else firstn 10 (dedup (filter has_url_keyword hrefs)).

(** The score of an anchor as the specification words it. *)
Definition score_as_stated (href : string) (text : option string) : Z :=
  ((if endswith ".pdf" (lower href) then 10 else 0)
   + (if contains "pdf" (lower href) then 5 else 0)
   + (if match text with
         | Some t => any_in Harvester.FALLBACK_LINK_KEYWORDS (lower t)
         | None => false
         end
      then 3 else 0))%Z.

(** The anchors the scoring loop can use: those whose attributes were read
    and whose href is a non-empty string. *)
Definition usable (a : Harvester.AnchorRead) : list (string * option string) :=
  match a with
  | Harvester.ReadOk (Some href) text => if truthy href then [(href, text)] else []
  | _ => []
  end.

(** The anchors with a positive score, scored, in document order. *)
Definition positive_scored (anchors : list Harvester.AnchorRead)
  : list (Z * string) :=
  filter (fun c => (0 <? fst c)%Z)
         (map (fun a => (score_as_stated (fst a) (snd a), fst a))
              (flat_map usable anchors)).

(** The four statuses of a result. *)
Definition statuses : list string :=
  ["downloaded"; "manual_required"; "not_found"; "error"].

(** The invariant of a finalized [HarvestResult]: one of the four statuses,
    and a non-empty file path exactly when the status is downloaded. *)
Definition result_well_formed (r : PdfHarvester.HarvestResult) : Prop :=
  In (PdfHarvester.status r) statuses
  /\ ((exists f, PdfHarvester.file_path r = Some f /\ f <> EmptyString)
      <-> PdfHarvester.status r = "downloaded").

(** The same invariant on the result dictionary of [process_url]. *)
Definition dict_well_formed (r : Harvester.ResultDict) : Prop :=
  In (Harvester.status r) statuses
  /\ (Harvester.file_path r <> EmptyString
      <-> Harvester.status r = "downloaded").

(** A string of [n] letters a. *)
Fixpoint letters (n : nat) : string :=
  match n with
  | O => EmptyString
  | S k => String "a"%char (letters k)
  end.

End Stated.

(** ** Judgements on runs *)

Module Runs.
Import Browser.
Local Open Scope list_scope.

(** A download attempt: entering the download trigger, or starting to
    listen for a download event. *)
Definition is_download_attempt (e : Event) : bool :=
  match e with
  | EvEnter CDownload => true
  | EvExpectDownload _ => true
  | _ => false
  end.

Definition calm (e : Event) : bool := negb (is_download_attempt e).

(** A click of any kind. *)
Definition is_click (e : Event) : bool :=
  match e with
  | EvRoleClick _ _ _ | EvLocatorClick _ _ | EvClick _ _ | EvElemClick _ => true
  | _ => false
  end.

(** The ordering claimed for a task: whatever download attempt the trace
    holds, the gate resolver was entered before it, and the cookie and modal
    handlers before the gate resolver. *)
Definition gate_before_downloads (evs : list Event) : Prop :=
  forall pre e post,
    evs = pre ++ e :: post -> is_download_attempt e = true ->
    exists a b,
      pre = a ++ EvEnter CGate :: b
      /\ In (EvEnter CCookies) a /\ In (EvEnter CModals) a.

(** The calls that only look at the page, and the trace entries that are
    no calls at all. *)
Definition inert (e : Event) : bool :=
  match e with
  | EvEnter _ | EvRoleCount _ _ _ | EvLocatorCount _ _ | EvIsVisible _ _ => true
  | _ => false
  end.

(** Page [p] shows nothing the matchers could find among the candidate
    [phrases] and [selectors], now and as long as it is only looked at: in
    every world of [Inv], counting the elements of a role whose name holds a
    candidate phrase, or the elements of a candidate selector, gives 0 (or
    raises), the visibility test of a candidate selector gives false (or
    raises), and the world stays in [Inv]. *)
Definition no_match (E : Engine) (p : PageId) (Inv : World E -> Prop)
           (phrases selectors : list string) : Prop :=
  (forall w r t, Inv w -> In t phrases ->
     Inv (snd (role_count E p r t w))
     /\ (fst (role_count E p r t w) = Ok 0
         \/ exists e, fst (role_count E p r t w) = Raise e))
  /\ (forall w sel, Inv w -> In sel selectors ->
        Inv (snd (locator_count E p sel w))
        /\ (fst (locator_count E p sel w) = Ok 0
            \/ exists e, fst (locator_count E p sel w) = Raise e))
  /\ (forall w sel, Inv w -> In sel selectors ->
        Inv (snd (is_visible E p sel w))
        /\ (fst (is_visible E p sel w) = Ok false
            \/ exists e, fst (is_visible E p sel w) = Raise e)).

(** The candidates of the obstacle handlers of [pdf_harvester.py] and of
    [harvester.py]. *)
Definition pdf_phrases : list string :=
  PdfHarvester.COOKIE_TEXTS ++ PdfHarvester.CLOSE_TEXTS.
Definition pdf_selectors : list string := PdfHarvester.CLOSE_SELECTORS.
Definition harvester_selectors : list string :=
  map Harvester.text_selector Harvester.COOKIE_BUTTON_TEXTS
  ++ map Harvester.text_selector Harvester.POPUP_CLOSE_TEXTS
  ++ Harvester.POPUP_CLOSE_SELECTORS.

Section Judgements.
Context {E : Engine} {R : Type}.

(** A run that only looked: the world is still in [Inv], the result object
    is untouched, and the trace grew by inert entries only. *)
Definition looked_only (Inv : World E -> Prop) (st st' : St E R) : Prop :=
  Inv (world st') /\ obj st' = obj st
  /\ exists evs, trace st' = trace st ++ evs /\ forallb inert evs = true.

(** [m] never raises. *)
Definition total {A} (m : M (E:=E) (R:=R) A) : Prop :=
  forall st, exists a, fst (m st) = Ok a.

(** Every run of [m] relates its initial and final state by [Rel]. *)
Definition steps (Rel : St E R -> St E R -> Prop) {A}
           (m : M (E:=E) (R:=R) A) : Prop :=
  forall st, Rel st (snd (m st)).

(** The trace grows by events that all satisfy [P]. *)
Definition emitting (P : Event -> bool) (st st' : St E R) : Prop :=
  exists evs, trace st' = trace st ++ evs /\ forallb P evs = true.

(** The view [proj] of the result object is left as it is. *)
Definition keeping {X} (proj : R -> X) (st st' : St E R) : Prop :=
  proj (obj st') = proj (obj st).

(** The outcome of [m] always satisfies [P]. *)
Definition answers {A} (P : outcome A -> Prop) (m : M (E:=E) (R:=R) A) : Prop :=
  forall st, P (fst (m st)).

(** Run [m] [n] times in a row. *)
Fixpoint rerun (n : nat) (m : M (E:=E) (R:=R) unit) : M (E:=E) (R:=R) unit :=
  match n with
  | O => ret tt
  | S k => bind m (fun _ => rerun k m)
  end.

End Judgements.

End Runs.

(** * Properties *)

(** ** Facts on the string primitives *)

Module StrFacts.
Import PyStr Stated.

Lemma length_app (a b : string) :
  String.length (a ++ b) = String.length a + String.length b.
Proof. induction a as [|c a IH]; simpl; [reflexivity | now rewrite IH]. Qed.

Lemma app_assoc (a b c : string) : (a ++ b) ++ c = a ++ (b ++ c).
Proof. induction a as [|x a IH]; simpl; [reflexivity | now rewrite IH]. Qed.

Lemma lower_app (a b : string) : lower (a ++ b) = lower a ++ lower b.
Proof. induction a as [|c a IH]; simpl; [reflexivity | now rewrite IH]. Qed.

Lemma split_nonempty (sep : ascii) (s : string) : split sep s <> [].
Proof.
  induction s as [|c s IH]; simpl; [discriminate|].
  destruct (Ascii.eqb c sep); [discriminate|].
  destruct (split sep s); [contradiction | discriminate].
Qed.

(** The first field of a split does not see what follows a separator. *)
Lemma split_hd_app (sep : ascii) (base rest : string) :
  hd EmptyString (split sep (base ++ String sep rest))
  = hd EmptyString (split sep base).
Proof.
  induction base as [|c base IH]; simpl.
  - now rewrite Ascii.eqb_refl.
  - destruct (Ascii.eqb c sep); [reflexivity|].
    pose proof (split_nonempty sep (base ++ String sep rest)) as H1.
    pose proof (split_nonempty sep base) as H2.
    destruct (split sep (base ++ String sep rest)); [contradiction|].
    destruct (split sep base); [contradiction|].
    simpl in *. now rewrite IH.
Qed.

Fixpoint has_char (c : ascii) (s : string) : bool :=
  match s with
  | EmptyString => false
  | String x s' => Ascii.eqb x c || has_char c s'
  end.

Lemma has_char_app (c : ascii) (a b : string) :
  has_char c (a ++ String c b) = true.
Proof.
  induction a as [|x a IH]; simpl.
  - now rewrite Ascii.eqb_refl.
  - rewrite IH. apply orb_true_r.
Qed.

(** A suffix test is blind to everything up to a character the suffix does
    not contain. *)
Lemma endswith_after (suf : string) (c : ascii) (a b : string) :
  has_char c suf = false ->
  endswith suf (a ++ String c b) = endswith suf b.
Proof.
  intros Hc.
  assert (Hne : forall a', String.eqb (a' ++ String c b) suf = false).
  { intros a'. apply String.eqb_neq. intros Heq.
    rewrite <- Heq, has_char_app in Hc. discriminate. }
  induction a as [|x a IH].
  - simpl append. change (endswith suf (String c b))
      with (String.eqb (String c b) suf || endswith suf b).
    pose proof (Hne EmptyString) as H0. cbn [append] in H0. now rewrite H0.
  - change (endswith suf (String x a ++ String c b))
      with (String.eqb (String x a ++ String c b) suf
            || endswith suf (a ++ String c b)).
    pose proof (Hne (String x a)) as H0. now rewrite H0, IH.
Qed.

Lemma join_cons_char (sep : string) (x : ascii) (w : string) (ws : list string) :
  join sep (String x w :: ws) = String x (join sep (w :: ws)).
Proof. destruct ws; reflexivity. Qed.

Lemma startswith_nil (s : string) : startswith EmptyString s = true.
Proof. destruct s; reflexivity. Qed.

(** The first [n] fields of a split, joined again, are a prefix. *)
Lemma join_firstn_split_prefix (sep : ascii) (s : string) :
  forall n,
    startswith (join (String sep EmptyString) (firstn n (split sep s))) s = true.
Proof.
  induction s as [|c s IH]; intros n.
  - destruct n as [|[|n]]; reflexivity.
  - destruct n as [|n]; [reflexivity|].
    simpl split. destruct (Ascii.eqb c sep) eqn:Hc.
    + apply Ascii.eqb_eq in Hc. subst c.
      specialize (IH n). simpl firstn.
      destruct (firstn n (split sep s)) as [|w ws] eqn:Hf.
      * reflexivity.
      * change (join (String sep EmptyString) (EmptyString :: w :: ws))
          with (String sep (join (String sep EmptyString) (w :: ws))).
        simpl. now rewrite Ascii.eqb_refl.
    + specialize (IH (S n)).
      pose proof (split_nonempty sep s) as Hne.
      destruct (split sep s) as [|w ws]; [contradiction|].
      simpl firstn in *. rewrite join_cons_char. simpl.
      now rewrite Ascii.eqb_refl.
Qed.

Lemma all_chars_cons (P : ascii -> bool) (c : ascii) (s : string) :
  all_chars P (String c s) = P c && all_chars P s.
Proof. reflexivity. Qed.

Lemma all_chars_weaken (P Q : ascii -> bool) (s : string) :
  (forall c, P c = true -> Q c = true) ->
  all_chars P s = true -> all_chars Q s = true.
Proof.
  intros HPQ. unfold all_chars. rewrite !forallb_forall. auto.
Qed.

Lemma all_chars_lstrip (P drop : ascii -> bool) (s : string) :
  all_chars P s = true -> all_chars P (lstrip drop s) = true.
Proof.
  induction s as [|c s IH]; simpl; [auto|].
  rewrite all_chars_cons. intros H. apply andb_prop in H as [Hc Hs].
  destruct (drop c); [auto|]. rewrite all_chars_cons, Hc, Hs. reflexivity.
Qed.

Lemma all_chars_rev (P : ascii -> bool) (s : string) :
  all_chars P s = true -> all_chars P (rev s) = true.
Proof.
  unfold all_chars, rev. rewrite list_ascii_of_string_of_list_ascii.
  rewrite !forallb_forall. intros H c Hin. apply H. now apply in_rev.
Qed.

Lemma all_chars_strip (P drop : ascii -> bool) (s : string) :
  all_chars P s = true -> all_chars P (strip drop s) = true.
Proof.
  intros H. unfold strip, rstrip.
  now apply all_chars_rev, all_chars_lstrip, all_chars_rev, all_chars_lstrip.
Qed.

Lemma all_chars_sub_runs (keep : ascii -> bool) (rep : ascii) (s : string) :
  forall in_run,
    all_chars (fun c => keep c || Ascii.eqb c rep)
              (sub_runs keep rep in_run s) = true.
Proof.
  induction s as [|c s IH]; intros in_run; simpl; [reflexivity|].
  destruct (keep c) eqn:Hk.
  - rewrite all_chars_cons, Hk. simpl. apply IH.
  - destruct in_run; [apply IH|].
    rewrite all_chars_cons, Ascii.eqb_refl, orb_true_r. simpl. apply IH.
Qed.

(** Runs are replaced, kept characters are copied: a character class that
    holds of the input and of the replacement holds of the output. *)
Lemma all_chars_sub_runs_keep (P keep : ascii -> bool) (rep : ascii) (s : string) :
  P rep = true ->
  forall in_run,
    all_chars P s = true -> all_chars P (sub_runs keep rep in_run s) = true.
Proof.
  intros Hrep. induction s as [|c s IH]; intros in_run; simpl; [auto|].
  rewrite all_chars_cons. intros H. apply andb_prop in H as [Hc Hs].
  destruct (keep c).
  - rewrite all_chars_cons, Hc. simpl. now apply IH.
  - destruct in_run; [now apply IH|].
    rewrite all_chars_cons, Hrep. simpl. now apply IH.
Qed.

Lemma length_replace_char (a b : ascii) (s : string) :
  String.length (replace_char a b s) = String.length s.
Proof. induction s as [|c s IH]; simpl; [reflexivity | now rewrite IH]. Qed.

Lemma all_chars_delete (del : ascii -> bool) (s : string) :
  all_chars (fun c => negb (del c)) (delete_chars del s) = true.
Proof.
  induction s as [|c s IH]; simpl; [reflexivity|].
  destruct (del c) eqn:Hd; [exact IH|].
  rewrite all_chars_cons, Hd. exact IH.
Qed.

Lemma all_chars_replace (P : ascii -> bool) (a b : ascii) (s : string) :
  P b = true ->
  all_chars (fun c => P c || Ascii.eqb c a) s = true ->
  all_chars P (replace_char a b s) = true.
Proof.
  intros Hb. induction s as [|c s IH]; simpl; [auto|].
  rewrite !all_chars_cons. intros H. apply andb_prop in H as [Hc Hs].
  rewrite (IH Hs), andb_true_r.
  destruct (Ascii.eqb c a) eqn:Hca; [exact Hb|].
  now rewrite orb_false_r in Hc.
Qed.

Lemma delete_letters (n : nat) :
  delete_chars Utils.is_invalid_char (letters n) = letters n.
Proof. induction n as [|n IH]; simpl; [reflexivity | now rewrite IH]. Qed.

Lemma length_letters (n : nat) : String.length (letters n) = n.
Proof. induction n as [|n IH]; simpl; [reflexivity | now rewrite IH]. Qed.

End StrFacts.

Example slugify_ex :
  PdfUtil.slugify "  State Street -- Global Advisors! " = "state_street_global_advisors".
Proof. reflexivity. Qed.

Example safe_filename_ex :
  PdfUtil.safe_filename "State Street Global Advisors" = "state_street_2026.pdf".
Proof. reflexivity. Qed.

Example is_pdf_url_ex :
  PdfUtil.is_pdf_url "https://x.org/A.PDF?v=1?w" = true /\
  PdfUtil.is_pdf_url "https://x.org/a?f=.pdf" = false.
Proof. split; reflexivity. Qed.

Example sanitize_filename_ex :
  Utils.sanitize_filename "A/B: Capital" "20261104" = "AB_Capital_2026_Outlook_20261104.pdf".
Proof. reflexivity. Qed.

(** ** The direct PDF check and the query string (claim C8) *)

Module PdfCheck.
Import PyStr Browser StrFacts.

Definition html_response (url : string) : option Response :=
  Some {| resp_url := url; resp_content_type := Some "text/html";
          resp_content_disposition := None |}.

(** C8, as stated, fails on the response check of [harvester.py]: the
    address a.pdf?v=1 is answered differently from a.pdf alone. *)
Lemma is_pdf_response_keeps_query :
  Harvester._is_pdf_response (html_response ("https://example.org/a.pdf" ++ "?" ++ "v=1")) = false
  /\ Harvester._is_pdf_response (html_response "https://example.org/a.pdf") = true.
Proof. split; reflexivity. Qed.

(** C8, amended.  [is_pdf_url] of [pdf_harvester.py] cuts the address at
    its first question mark before the case-insensitive suffix test, so
    base?query is answered as base alone, for every base and query.
    [_is_pdf_response] of [harvester.py] does not cut the query: on
    base?query its address test is decided by the query alone, next to the
    content-type test. *)
Theorem pdf_check_and_query :
  (forall base query,
      PdfUtil.is_pdf_url (base ++ "?" ++ query) = PdfUtil.is_pdf_url base)
  /\
  (forall base query ct cd,
      Harvester._is_pdf_response
        (Some {| resp_url := base ++ "?" ++ query;
                 resp_content_type := ct;
                 resp_content_disposition := cd |})
      = contains "application/pdf"
          (lower (match ct with Some v => v | None => EmptyString end))
        || endswith ".pdf" (lower query)).
Proof.
  split.
  - intros base query. unfold PdfUtil.is_pdf_url.
    change (base ++ "?" ++ query) with (base ++ String "?"%char query).
    now rewrite split_hd_app.
  - intros base query ct cd. unfold Harvester._is_pdf_response. simpl.
    f_equal. rewrite lower_app.
    change (lower ("?" ++ query)) with (String "?"%char (lower query)).
    now apply endswith_after.
Qed.

End PdfCheck.

(** ** Filename derivation (claim C6) *)

Module Filenames.
Import PyStr Stated StrFacts.

Definition slug_or_underscore (c : ascii) : bool :=
  PdfUtil.is_slug_char c || Ascii.eqb c PdfUtil.underscore.

Definition plain_name_char (c : ascii) : bool :=
  negb (Utils.is_invalid_char c) && negb (Ascii.eqb c " "%char).

Lemma slugify_chars (s : string) :
  all_chars slug_or_underscore (PdfUtil.slugify s) = true.
Proof.
  unfold PdfUtil.slugify. apply all_chars_strip.
  apply all_chars_sub_runs_keep; [reflexivity|].
  apply all_chars_sub_runs.
Qed.

Lemma sanitized_chars (s : string) :
  all_chars plain_name_char
    (replace_char " "%char "_"%char (delete_chars Utils.is_invalid_char s)) = true.
Proof.
  apply all_chars_replace; [reflexivity|].
  eapply all_chars_weaken; [|apply all_chars_delete].
  intros c Hc. unfold plain_name_char. cbv beta in Hc. rewrite Hc. simpl.
  destruct (Ascii.eqb c " "%char); reflexivity.
Qed.

(** C6, as stated, holds of neither derivation: [safe_filename] never
    sees a date, and [sanitize_filename] keeps the whole institution name.
    The two evaluations show it on the first institution of the script. *)
Lemma filename_not_as_stated :
  PdfUtil.safe_filename "State Street Global Advisors" = "state_street_2026.pdf"
  /\ Utils.sanitize_filename "State Street Global Advisors" "20261104"
     = "State_Street_Global_Advisors_2026_Outlook_20261104.pdf"
  /\ ~ derived_as_stated (fun institution _ => PdfUtil.safe_filename institution)
  /\ ~ derived_as_stated Utils.sanitize_filename.
Proof.
  split; [reflexivity|]. split; [reflexivity|]. split.
  - intros (bound & prefix_of & suffix & ext & H).
    destruct (H "a" EmptyString) as [_ H1].
    destruct (H "a" "x") as [_ H2].
    rewrite H1 in H2. apply (f_equal String.length) in H2.
    rewrite !length_app in H2. simpl in H2. lia.
  - intros (bound & prefix_of & suffix & ext & H).
    set (n := S (bound + String.length suffix + String.length ext)).
    destruct (H (letters n) EmptyString) as [Hb Heq].
    apply (f_equal String.length) in Heq.
    unfold Utils.sanitize_filename in Heq.
    rewrite !length_app, length_replace_char, delete_letters, length_letters in Heq.
    simpl String.length in Heq. subst n. cbn [letters] in Hb. lia.
Qed.

(** C6, amended.  [safe_filename] of [pdf_harvester.py]: the slug of the
    institution (lower case letters, digits and underscores only), cut to
    its first two underscore-separated words, followed by _2026.pdf; no
    date is appended.  [sanitize_filename] of [utils.py]: the institution
    with the invalid characters deleted and spaces turned into underscores,
    not shortened, followed by _2026_Outlook_, the current date and .pdf. *)
Theorem filename_derivation :
  (forall institution,
      let slug := PdfUtil.slugify institution in
      let short := join "_" (firstn 2 (split "_"%char slug)) in
      PdfUtil.safe_filename institution = short ++ "_2026.pdf"
      /\ all_chars slug_or_underscore slug = true
      /\ startswith short slug = true)
  /\
  (forall institution date,
      let safe :=
        replace_char " "%char "_"%char
          (delete_chars Utils.is_invalid_char institution) in
      Utils.sanitize_filename institution date
        = safe ++ "_2026_Outlook_" ++ date ++ ".pdf"
      /\ all_chars plain_name_char safe = true
      /\ String.length safe
         = String.length (delete_chars Utils.is_invalid_char institution)).
Proof.
  split.
  - intros institution slug short. split; [reflexivity|]. split.
    + apply slugify_chars.
    + apply (join_firstn_split_prefix "_"%char slug 2).
  - intros institution date safe. split; [reflexivity|]. split.
    + apply sanitized_chars.
    + apply length_replace_char.
Qed.

End Filenames.

(** ** Facts on lists *)

Module ListFacts.

Lemma firstn_In {A} (n : nat) (l : list A) (x : A) :
  In x (firstn n l) -> In x l.
Proof.
  revert n. induction l as [|y l IH]; intros [|n]; simpl; try tauto.
  intros [->|H]; [now left | right; eauto].
Qed.

Lemma firstn_NoDup {A} (n : nat) (l : list A) : NoDup l -> NoDup (firstn n l).
Proof.
  revert n. induction l as [|x l IH]; intros [|n] H; simpl; try constructor.
  - inversion H; subst. intros Hin. now apply firstn_In in Hin.
  - inversion H; subst. now apply IH.
Qed.

Lemma filter_filter {A} (f g : A -> bool) (l : list A) :
  filter f (filter g l) = filter (fun x => g x && f x) l.
Proof.
  induction l as [|x l IH]; simpl; [reflexivity|].
  destruct (g x); simpl; [destruct (f x)|]; now rewrite IH.
Qed.

Lemma filter_nil_existsb {A} (f : A -> bool) (l : list A) :
  filter f l = [] <-> existsb f l = false.
Proof.
  induction l as [|x l IH]; simpl; [tauto|].
  destruct (f x); simpl; [split; discriminate | exact IH].
Qed.

End ListFacts.

(** ** The either/or candidate collector (claim C7) *)

Module EitherOr.
Import PyStr Stated ListFacts.
Import PdfHarvester.

Definition fresh (keys : list string) (y : string) : bool :=
  negb (existsb (String.eqb y) keys).

(** The insertion loop of [dict.fromkeys], started from the keys already
    present. *)
Lemma fromkeys_from (l keys : list string) :
  fold_left
    (fun keys k => if existsb (String.eqb k) keys then keys else (keys ++ [k])%list)
    l keys
  = (keys ++ filter (fresh keys) (dedup l))%list.
Proof.
  revert keys. induction l as [|x l IH]; intros keys; simpl.
  - now rewrite app_nil_r.
  - rewrite IH. unfold fresh at 2. destruct (existsb (String.eqb x) keys) eqn:Hx; simpl.
    + f_equal. rewrite filter_filter. apply filter_ext. intros y.
      destruct (String.eqb y x) eqn:Hyx; simpl; [|reflexivity].
      apply String.eqb_eq in Hyx. subst y. unfold fresh. now rewrite Hx.
    + rewrite <- app_assoc. simpl. do 2 f_equal.
      rewrite filter_filter. apply filter_ext. intros y. unfold fresh.
      rewrite existsb_app. simpl. rewrite orb_false_r, negb_orb.
      apply andb_comm.
Qed.

(** [dict.fromkeys] keeps the first occurrence of every key, in order. *)
Lemma dict_fromkeys_dedup (l : list string) : dict_fromkeys l = dedup l.
Proof.
  unfold dict_fromkeys. rewrite fromkeys_from. simpl.
  rewrite <- (filter_ext (fun _ => true)); [|reflexivity].
  induction (dedup l) as [|x d IH]; simpl; [reflexivity | now rewrite IH].
Qed.

Lemma dedup_incl (l : list string) : forall x, In x (dedup l) -> In x l.
Proof.
  induction l as [|y l IH]; simpl; [auto|].
  intros x [->|H]; [now left|].
  apply filter_In in H as [H _]. right. now apply IH.
Qed.

Lemma dedup_NoDup (l : list string) : NoDup (dedup l).
Proof.
  induction l as [|y l IH]; simpl; constructor.
  - intros H. apply filter_In in H as [_ H].
    now rewrite String.eqb_refl in H.
  - now apply NoDup_filter.
Qed.

(** The collector, written with the two passes of the source. *)
Lemma candidate_links_passes (hrefs : list string) :
  candidate_links_of hrefs
  = if existsb PdfUtil.is_pdf_url hrefs
    then firstn 10 (dedup (filter PdfUtil.is_pdf_url hrefs))
    else firstn 10 (dedup (filter has_url_keyword hrefs)).
Proof.
  unfold candidate_links_of. rewrite !dict_fromkeys_dedup.
  destruct (filter PdfUtil.is_pdf_url hrefs) as [|h t] eqn:Hf.
  - apply filter_nil_existsb in Hf. now rewrite Hf.
  - destruct (existsb PdfUtil.is_pdf_url hrefs) eqn:He; [reflexivity|].
    apply filter_nil_existsb in He. congruence.
Qed.

(** C7, as stated, fails when a PDF href carries a query string: read by
    the letter no href below ends in .pdf, so both would be returned, while
    the collector returns the first alone. *)
Lemma collect_differs_from_stated :
  candidate_links_of ["/files/a.pdf?v=1"; "/report"] = ["/files/a.pdf?v=1"]
  /\ collect_as_stated ["/files/a.pdf?v=1"; "/report"]
     = ["/files/a.pdf?v=1"; "/report"].
Proof. split; reflexivity. Qed.

(** C7, amended.  The first pass keeps the hrefs that [is_pdf_url] accepts,
    that is, whose address ends in .pdf once the query string is cut and
    the case is folded; if there is one, the result is these hrefs,
    de-duplicated in first-seen order and capped at 10.  Otherwise the
    result is the hrefs whose lower-cased address contains one of pdf,
    download, outlook, report, publication, de-duplicated in first-seen
    order and capped at 10. *)
Theorem candidate_links_either_or (hrefs : list string) :
  let result := candidate_links_of hrefs in
  result
  = (if existsb PdfUtil.is_pdf_url hrefs
     then firstn 10 (dedup (filter PdfUtil.is_pdf_url hrefs))
     else firstn 10 (dedup (filter has_url_keyword hrefs)))
  /\ NoDup result
  /\ List.length result <= 10
  /\ (forall h, In h result ->
        In h hrefs /\
        if existsb PdfUtil.is_pdf_url hrefs
        then PdfUtil.is_pdf_url h = true
        else has_url_keyword h = true).
Proof.
  intros result. subst result. rewrite candidate_links_passes.
  split; [reflexivity|].
  destruct (existsb PdfUtil.is_pdf_url hrefs).
  - split; [apply firstn_NoDup, dedup_NoDup|].
    split; [apply firstn_le_length|].
    intros h Hin. apply firstn_In, dedup_incl, filter_In in Hin. exact Hin.
  - split; [apply firstn_NoDup, dedup_NoDup|].
    split; [apply firstn_le_length|].
    intros h Hin. apply firstn_In, dedup_incl, filter_In in Hin. exact Hin.
Qed.

End EitherOr.

(** ** The scored candidate links (claim C4) *)

Module Scored.
Import PyStr Stated ListFacts.
Import Harvester.
Local Open Scope Z_scope.

(** Entries are ranked by descending score. *)
Definition ranks_before (a b : Z * string) : Prop := fst b <= fst a.

Definition with_score (v : Z) (c : Z * string) : bool := fst c =? v.

Lemma link_score_stated (href : string) (text : option string) :
  link_score href text = score_as_stated href text.
Proof.
  unfold link_score, score_as_stated.
  assert (Ht : match text with
               | Some t => truthy t && any_in FALLBACK_LINK_KEYWORDS (lower t)
               | None => false
               end
               = match text with
                 | Some t => any_in FALLBACK_LINK_KEYWORDS (lower t)
                 | None => false
                 end).
  { destruct text as [[|c t]|]; reflexivity. }
  rewrite Ht.
  destruct (endswith ".pdf" (lower href)), (contains "pdf" (lower href)),
    (match text with
     | Some t => any_in FALLBACK_LINK_KEYWORDS (lower t)
     | None => false
     end); reflexivity.
Qed.

Definition scored_of (a : AnchorRead) : list (Z * string) :=
  filter (fun c => 0 <? fst c)
         (map (fun u => (score_as_stated (fst u) (snd u), fst u)) (usable a)).

Lemma add_candidate_app (candidates : list (Z * string)) (a : AnchorRead) :
  add_candidate candidates a = (candidates ++ scored_of a)%list.
Proof.
  unfold add_candidate, scored_of, usable.
  destruct a as [|[href|] text]; simpl; try now rewrite app_nil_r.
  destruct (truthy href); simpl; [|now rewrite app_nil_r].
  rewrite link_score_stated.
  destruct (0 <? score_as_stated href text); [reflexivity | now rewrite app_nil_r].
Qed.

Lemma positive_scored_cons (a : AnchorRead) (anchors : list AnchorRead) :
  positive_scored (a :: anchors) = (scored_of a ++ positive_scored anchors)%list.
Proof.
  unfold positive_scored, scored_of. simpl.
  now rewrite map_app, filter_app.
Qed.

(** The loop collects the positively scored anchors in document order. *)
Lemma scored_candidates_from (anchors : list AnchorRead) :
  forall acc,
    fold_left add_candidate anchors acc = (acc ++ positive_scored anchors)%list.
Proof.
  induction anchors as [|a anchors IH]; intros acc; simpl.
  - unfold positive_scored. simpl. now rewrite app_nil_r.
  - rewrite IH, add_candidate_app, positive_scored_cons.
    now rewrite <- app_assoc.
Qed.

Lemma scored_candidates_stated (anchors : list AnchorRead) :
  scored_candidates anchors = positive_scored anchors.
Proof. unfold scored_candidates. now rewrite scored_candidates_from. Qed.

(** *** The sort *)

Lemma insert_desc_perm (c : Z * string) (l : list (Z * string)) :
  Permutation (insert_desc c l) (c :: l).
Proof.
  induction l as [|d l IH]; simpl; [apply Permutation_refl|].
  destruct (fst d <=? fst c); [apply Permutation_refl|].
  eapply Permutation_trans; [apply perm_skip, IH | apply perm_swap].
Qed.

Lemma sort_desc_perm (l : list (Z * string)) : Permutation (sort_desc l) l.
Proof.
  induction l as [|c l IH]; simpl; [constructor|].
  eapply Permutation_trans; [apply insert_desc_perm | now apply perm_skip].
Qed.

Lemma insert_desc_sorted (c : Z * string) (l : list (Z * string)) :
  StronglySorted ranks_before l -> StronglySorted ranks_before (insert_desc c l).
Proof.
  induction l as [|d l IH]; intros Hs; simpl.
  - constructor; constructor.
  - inversion Hs as [|? ? Hl Hd]; subst.
    destruct (fst d <=? fst c) eqn:Hle.
    + apply Z.leb_le in Hle. constructor; [exact Hs|].
      constructor; [exact Hle|].
      eapply Forall_impl; [|exact Hd]. unfold ranks_before. intros; lia.
    + apply Z.leb_gt in Hle. constructor; [now apply IH|].
      eapply Permutation_Forall; [symmetry; apply insert_desc_perm|].
      constructor; [unfold ranks_before; lia | exact Hd].
Qed.

Lemma sort_desc_sorted (l : list (Z * string)) :
  StronglySorted ranks_before (sort_desc l).
Proof.
  induction l as [|c l IH]; simpl; [constructor | now apply insert_desc_sorted].
Qed.

(** Insertion puts the new entry in front of the entries of equal score. *)
Lemma insert_desc_stable (v : Z) (c : Z * string) (l : list (Z * string)) :
  filter (with_score v) (insert_desc c l) = filter (with_score v) (c :: l).
Proof.
  induction l as [|d l IH]; [reflexivity|].
  simpl insert_desc. destruct (fst d <=? fst c) eqn:Hle; [reflexivity|].
  apply Z.leb_gt in Hle.
  change (filter (with_score v) (d :: insert_desc c l))
    with (if with_score v d then d :: filter (with_score v) (insert_desc c l)
          else filter (with_score v) (insert_desc c l)).
  rewrite IH. simpl. unfold with_score.
  destruct (fst c =? v) eqn:Hc, (fst d =? v) eqn:Hd; try reflexivity.
  apply Z.eqb_eq in Hc, Hd. lia.
Qed.

(** The sort is stable: entries of equal score keep their order. *)
Lemma sort_desc_stable (v : Z) (l : list (Z * string)) :
  filter (with_score v) (sort_desc l) = filter (with_score v) l.
Proof.
  induction l as [|c l IH]; [reflexivity|].
  simpl sort_desc. rewrite insert_desc_stable. simpl. now rewrite IH.
Qed.

Example scores_ex :
  top_candidates
    [ReadOk (Some "/b.html") (Some "About us");
     ReadOk (Some "/report-download") (Some "Download the report");
     ReadOk None (Some "Download");
     ReadOk (Some "/x/pdf-viewer") None;
     ReadRaises;
     ReadOk (Some "/files/A.PDF") (Some "Outlook 2026");
     ReadOk (Some "/y/pdf-list") (Some EmptyString)]
  = [(18, "/files/A.PDF"); (5, "/x/pdf-viewer"); (5, "/y/pdf-list");
     (3, "/report-download")].
Proof. reflexivity. Qed.

(** C4.  In [_try_fallback_links] every anchor whose href is read as a
    non-empty string gets the score 10 (href ends in .pdf) + 5 (href
    contains pdf) + 3 (link text contains one of pdf, download, report,
    outlook), all tests on the lower-cased strings; the candidates are the
    anchors of positive score; they are ranked by descending score, anchors
    of equal score in document order, and the first 10 are retained. *)
Theorem scored_fallback_candidates (anchors : list AnchorRead) :
  let ranked := sort_desc (scored_candidates anchors) in
  scored_candidates anchors = positive_scored anchors
  /\ Forall (fun c => 0 < fst c) (scored_candidates anchors)
  /\ Permutation ranked (positive_scored anchors)
  /\ StronglySorted ranks_before ranked
  /\ (forall v, filter (with_score v) ranked
                = filter (with_score v) (positive_scored anchors))
  /\ top_candidates anchors = firstn 10 ranked
  /\ (List.length (top_candidates anchors) <= 10)%nat.
Proof.
  intros ranked. subst ranked. rewrite scored_candidates_stated.
  split; [reflexivity|]. split.
  { apply Forall_forall. intros c Hin. unfold positive_scored in Hin.
    apply filter_In in Hin as [_ H]. now apply Z.ltb_lt. }
  split; [apply sort_desc_perm|].
  split; [apply sort_desc_sorted|].
  split; [intros v; apply sort_desc_stable|].
  unfold top_candidates. rewrite scored_candidates_stated.
  split; [reflexivity | apply firstn_le_length].
Qed.

End Scored.

(** ** Reasoning rules for the effect monad *)

Module Rules.
Import Browser Runs.
Local Open Scope list_scope.

Section Laws.
Context {E : Engine} {R : Type}.
Local Abbreviation M := (@Browser.M E R).
Local Abbreviation St := (Browser.St E R).

Lemma run_bind {A B} (m : M A) (k : A -> M B) (st : St) :
  bind m k st
  = match m st with
    | (Ok a, st') => k a st'
    | (Raise e, st') => (Raise e, st')
    end.
Proof. reflexivity. Qed.

Lemma run_bind_ok {A B} (m : M A) (k : A -> M B) (st st' : St) (a : A) :
  m st = (Ok a, st') -> bind m k st = k a st'.
Proof. intros H. unfold bind. now rewrite H. Qed.

Lemma run_bind_raise {A B} (m : M A) (k : A -> M B) (st st' : St) (e : string) :
  m st = (Raise e, st') -> bind m k st = (Raise e, st').
Proof. intros H. unfold bind. now rewrite H. Qed.

Lemma run_try_ok {A} (m : M A) (h : string -> M A) (st st' : St) (a : A) :
  m st = (Ok a, st') -> try_catch m h st = (Ok a, st').
Proof. intros H. unfold try_catch. now rewrite H. Qed.

Lemma run_try_raise {A} (m : M A) (h : string -> M A) (st st' : St) (e : string) :
  m st = (Raise e, st') -> try_catch m h st = h e st'.
Proof. intros H. unfold try_catch. now rewrite H. Qed.

(** *** Totality *)

Lemma total_ret {A} (a : A) : total (ret a : M A).
Proof. intros st. now exists a. Qed.

Lemma total_bind {A B} (m : M A) (k : A -> M B) :
  total m -> (forall a, total (k a)) -> total (bind m k).
Proof.
  intros Hm Hk st. unfold bind.
  destruct (Hm st) as [a Ha]. destruct (m st) as [o st']. simpl in Ha. subst o.
  apply Hk.
Qed.

Lemma total_try {A} (m : M A) (h : string -> M A) :
  (forall e, total (h e)) -> total (try_catch m h).
Proof.
  intros Hh st. unfold try_catch. destruct (m st) as [[a|e] st'].
  - now exists a.
  - apply Hh.
Qed.

Lemma total_finally {A} (m : M A) (f : St -> St) :
  total m -> total (finally m f).
Proof.
  intros Hm st. unfold finally. destruct (Hm st) as [a Ha].
  destruct (m st) as [o st']. simpl in *. now exists a.
Qed.

Lemma total_modify (f : R -> R) : total (modify f : M unit).
Proof. intros st. now exists tt. Qed.

Lemma total_enter (c : Component) : total (enter c : M unit).
Proof. intros st. now exists tt. Qed.

Lemma total_observe {A} (f : World E -> A) : total (observe f : M A).
Proof. intros st. now eexists. Qed.

Lemma total_call_total (ev : Event) (op : World E -> World E) :
  total (call_total ev op : M unit).
Proof. intros st. now exists tt. Qed.

Lemma total_open_page : total (open_page : M PageId).
Proof.
  intros st. unfold open_page. destruct (new_page E (world st)). now eexists.
Qed.

Lemma total_get_obj : total (get_obj : M R).
Proof. intros st. now eexists. Qed.

Lemma steps_run {A} (Rel : St -> St -> Prop) (m : M A) (st st' : St) o :
  steps Rel m -> m st = (o, st') -> Rel st st'.
Proof. intros H Hr. specialize (H st). now rewrite Hr in H. Qed.

Lemma answers_run {A} (P : outcome A -> Prop) (m : M A) (st st' : St) o :
  answers P m -> m st = (o, st') -> P o.
Proof. intros H Hr. specialize (H st). now rewrite Hr in H. Qed.

Lemma total_run {A} (m : M A) (st : St) :
  total m -> exists a st', m st = (Ok a, st').
Proof.
  intros H. destruct (H st) as [a Ha]. destruct (m st) as [o st'].
  simpl in Ha. subst o. now exists a, st'.
Qed.

(** *** Steps along a preorder *)

Section Steps.
Variable Rel : St -> St -> Prop.
Hypothesis Rel_refl : forall st, Rel st st.
Hypothesis Rel_trans : forall a b c, Rel a b -> Rel b c -> Rel a c.

Lemma steps_ret {A} (a : A) : steps Rel (ret a : M A).
Proof. intros st. apply Rel_refl. Qed.

Lemma steps_raise {A} (e : string) : steps Rel (raise e : M A).
Proof. intros st. apply Rel_refl. Qed.

Lemma steps_bind {A B} (m : M A) (k : A -> M B) :
  steps Rel m -> (forall a, steps Rel (k a)) -> steps Rel (bind m k).
Proof.
  intros Hm Hk st. unfold bind. specialize (Hm st).
  destruct (m st) as [[a|e] st']; simpl in *; [|exact Hm].
  eapply Rel_trans; [exact Hm | apply Hk].
Qed.

Lemma steps_try {A} (m : M A) (h : string -> M A) :
  steps Rel m -> (forall e, steps Rel (h e)) -> steps Rel (try_catch m h).
Proof.
  intros Hm Hh st. unfold try_catch. specialize (Hm st).
  destruct (m st) as [[a|e] st']; simpl in *; [exact Hm|].
  eapply Rel_trans; [exact Hm | apply Hh].
Qed.

Lemma steps_finally {A} (m : M A) (f : St -> St) :
  steps Rel m -> (forall st, Rel st (f st)) -> steps Rel (finally m f).
Proof.
  intros Hm Hf st. unfold finally. specialize (Hm st).
  destruct (m st) as [o st']; simpl in *.
  eapply Rel_trans; [exact Hm | apply Hf].
Qed.

Lemma steps_observe {A} (f : World E -> A) : steps Rel (observe f : M A).
Proof. intros st. apply Rel_refl. Qed.

Lemma steps_get_obj : steps Rel (get_obj : M R).
Proof. intros st. apply Rel_refl. Qed.

End Steps.

(** *** The two preorders used below *)

Lemma emitting_refl (P : Event -> bool) (st : St) : emitting P st st.
Proof. exists []. now rewrite app_nil_r. Qed.

Lemma emitting_trans (P : Event -> bool) (a b c : St) :
  emitting P a b -> emitting P b c -> emitting P a c.
Proof.
  intros (e1 & H1 & F1) (e2 & H2 & F2). exists (e1 ++ e2). split.
  - now rewrite H2, H1, app_assoc.
  - now rewrite forallb_app, F1, F2.
Qed.

Lemma emitting_event (P : Event -> bool) (ev : Event) w o (st : St) :
  P ev = true -> emitting P st (mkSt w (trace st ++ [ev]) o).
Proof. intros H. exists [ev]. simpl. now rewrite H. Qed.

Lemma emitting_silent (P : Event -> bool) w o (st : St) :
  emitting P st (mkSt w (trace st) o).
Proof. exists []. simpl. now rewrite app_nil_r. Qed.

Lemma emits_ret {A} (P : Event -> bool) (a : A) :
  steps (emitting P) (ret a : M A).
Proof. apply steps_ret, emitting_refl. Qed.

Lemma emits_raise {A} (P : Event -> bool) (e : string) :
  steps (emitting P) (raise e : M A).
Proof. apply steps_raise, emitting_refl. Qed.

Lemma emits_observe {A} (P : Event -> bool) (f : World E -> A) :
  steps (emitting P) (observe f : M A).
Proof. apply steps_observe, emitting_refl. Qed.

Lemma emits_get_obj (P : Event -> bool) : steps (emitting P) (get_obj : M R).
Proof. apply steps_get_obj, emitting_refl. Qed.

Lemma emits_bind {A B} (P : Event -> bool) (m : M A) (k : A -> M B) :
  steps (emitting P) m -> (forall a, steps (emitting P) (k a)) ->
  steps (emitting P) (bind m k).
Proof. apply steps_bind, emitting_trans. Qed.

Lemma emits_try {A} (P : Event -> bool) (m : M A) (h : string -> M A) :
  steps (emitting P) m -> (forall e, steps (emitting P) (h e)) ->
  steps (emitting P) (try_catch m h).
Proof. apply steps_try, emitting_trans. Qed.

Lemma emits_finally {A} (P : Event -> bool) (m : M A) (p : PageId) :
  P (EvClose p) = true ->
  steps (emitting P) m -> steps (emitting P) (finally m (closing p)).
Proof.
  intros HP Hm. apply steps_finally; [apply emitting_trans | exact Hm|].
  intros st. now apply emitting_event.
Qed.

Lemma emits_call {A} (P : Event -> bool) (ev : Event)
      (op : World E -> outcome A * World E) :
  P ev = true -> steps (emitting P) (call ev op : M A).
Proof.
  intros H st. unfold call. destruct (op (world st)). now apply emitting_event.
Qed.

Lemma emits_call_total (P : Event -> bool) (ev : Event) (op : World E -> World E) :
  P ev = true -> steps (emitting P) (call_total ev op : M unit).
Proof. intros H st. now apply emitting_event. Qed.

Lemma emits_enter (P : Event -> bool) (c : Component) :
  P (EvEnter c) = true -> steps (emitting P) (enter c : M unit).
Proof. intros H st. now apply emitting_event. Qed.

Lemma emits_modify (P : Event -> bool) (f : R -> R) :
  steps (emitting P) (modify f : M unit).
Proof. intros st. apply emitting_silent. Qed.

Lemma emits_open_page (P : Event -> bool) :
  (forall p, P (EvNewPage p) = true) -> steps (emitting P) (open_page : M PageId).
Proof.
  intros H st. unfold open_page. destruct (new_page E (world st)).
  now apply emitting_event.
Qed.

(** *** Keeping a view of the result object *)

Section Keeping.
Context {X : Type}.
Variable proj : R -> X.

Lemma keeping_trans (a b c : St) :
  keeping proj a b -> keeping proj b c -> keeping proj a c.
Proof. unfold keeping. congruence. Qed.

Lemma keeps_ret {A} (a : A) : steps (keeping proj) (ret a : M A).
Proof. intros st. reflexivity. Qed.

Lemma keeps_raise {A} (e : string) : steps (keeping proj) (raise e : M A).
Proof. intros st. reflexivity. Qed.

Lemma keeps_observe {A} (f : World E -> A) : steps (keeping proj) (observe f : M A).
Proof. intros st. reflexivity. Qed.

Lemma keeps_get_obj : steps (keeping proj) (get_obj : M R).
Proof. intros st. reflexivity. Qed.

Lemma keeps_bind {A B} (m : M A) (k : A -> M B) :
  steps (keeping proj) m -> (forall a, steps (keeping proj) (k a)) ->
  steps (keeping proj) (bind m k).
Proof. apply steps_bind, keeping_trans. Qed.

Lemma keeps_try {A} (m : M A) (h : string -> M A) :
  steps (keeping proj) m -> (forall e, steps (keeping proj) (h e)) ->
  steps (keeping proj) (try_catch m h).
Proof. apply steps_try, keeping_trans. Qed.

Lemma keeps_finally {A} (m : M A) (p : PageId) :
  steps (keeping proj) m -> steps (keeping proj) (finally m (closing p)).
Proof.
  intros Hm. apply steps_finally; [apply keeping_trans | exact Hm|].
  intros st. reflexivity.
Qed.

Lemma keeps_call {A} (ev : Event) (op : World E -> outcome A * World E) :
  steps (keeping proj) (call ev op : M A).
Proof. intros st. unfold call. destruct (op (world st)). reflexivity. Qed.

Lemma keeps_call_total (ev : Event) (op : World E -> World E) :
  steps (keeping proj) (call_total ev op : M unit).
Proof. intros st. reflexivity. Qed.

Lemma keeps_enter (c : Component) : steps (keeping proj) (enter c : M unit).
Proof. intros st. reflexivity. Qed.

Lemma keeps_open_page : steps (keeping proj) (open_page : M PageId).
Proof.
  intros st. unfold open_page. destruct (new_page E (world st)). reflexivity.
Qed.

Lemma keeps_modify (f : R -> R) :
  (forall r, proj (f r) = proj r) -> steps (keeping proj) (modify f : M unit).
Proof. intros H st. apply H. Qed.

End Keeping.

End Laws.

Ltac keep_step :=
  first
    [ apply keeps_bind; [|intros ?]
    | apply keeps_try; [|intros ?]
    | apply keeps_finally
    | apply keeps_ret
    | apply keeps_raise
    | apply keeps_observe
    | apply keeps_get_obj
    | apply keeps_call
    | apply keeps_call_total
    | apply keeps_enter
    | apply keeps_open_page
    | apply keeps_modify; intros ?; reflexivity ].

(** One step of symbolic execution of a judgement on a composed run. *)
Ltac emit_step :=
  first
    [ apply emits_bind; [|intros ?]
    | apply emits_try; [|intros ?]
    | apply emits_finally; [reflexivity|]
    | apply emits_ret
    | apply emits_raise
    | apply emits_observe
    | apply emits_get_obj
    | apply emits_modify
    | apply emits_call; reflexivity
    | apply emits_call_total; reflexivity
    | apply emits_enter; reflexivity
    | apply emits_open_page; intros ?; reflexivity ].

(** Split a run at its first bind. *)
Ltac bind_case :=
  match goal with
  | |- context [bind ?m ?k ?s] =>
      rewrite (run_bind m k s); destruct (m s) as [[?|?] ?] eqn:?
  end.

Ltac total_step :=
  first
    [ apply total_bind; [|intros ?]
    | apply total_try; intros ?
    | apply total_finally
    | apply total_ret
    | apply total_modify
    | apply total_enter
    | apply total_observe
    | apply total_call_total
    | apply total_open_page
    | apply total_get_obj ].

End Rules.

(** ** Facts on the handlers of [pdf_harvester.py] *)

Module PdfFacts.
Import PyStr Browser Runs Rules.
Import PdfHarvester.
Local Open Scope list_scope.
Local Open Scope harvest_scope.

Ltac total_with known :=
  repeat first
    [ known
    | total_step
    | match goal with
      | |- total (if ?b then _ else _) => destruct b
      | |- total (match ?x with _ => _ end) => destruct x
      | |- total (let (_, _) := ?x in _) => destruct x
      end ].

Ltac total_auto := total_with fail.

Ltac emit_with known :=
  repeat first
    [ known
    | emit_step
    | match goal with
      | |- steps _ (if ?b then _ else _) => destruct b
      | |- steps _ (match ?x with _ => _ end) => destruct x
      | |- steps _ (let (_, _) := ?x in _) => destruct x
      end ].

Ltac emit_auto := emit_with fail.

Ltac keep_with known :=
  repeat first
    [ known
    | keep_step
    | match goal with
      | |- steps _ (if ?b then _ else _) => destruct b
      | |- steps _ (match ?x with _ => _ end) => destruct x
      | |- steps _ (let (_, _) := ?x in _) => destruct x
      end ].

Ltac keep_auto := keep_with fail.

Definition any_event (e : Event) : bool := true.

Lemma emitting_weaken {E R} (P Q : Event -> bool) (st st' : St E R) :
  (forall e, P e = true -> Q e = true) ->
  emitting P st st' -> emitting Q st st'.
Proof.
  intros HPQ (evs & Ht & Hf). exists evs. split; [exact Ht|].
  rewrite forallb_forall in *. auto.
Qed.

Lemma grows {E R A} (P : Event -> bool) (m : M (E:=E) (R:=R) A) :
  steps (emitting P) m -> steps (emitting any_event) m.
Proof. intros H st. eapply emitting_weaken; [|apply H]. reflexivity. Qed.

Section Facts.
Variable E : Engine.
Variable profile : string.

(** *** No handler raises *)

Lemma total_body_text p : total (body_text E p).
Proof. unfold body_text. total_auto. Qed.

Lemma total_click_role p r t ms : total (click_role E p r t ms).
Proof. unfold click_role. total_auto. Qed.

Lemma total_click_by_text p texts ms : total (click_by_text E p texts ms).
Proof.
  induction texts as [|t rest IH]; simpl; [total_auto|].
  apply total_bind; [apply total_click_role|]. intros [|]; [total_auto|].
  apply total_bind; [apply total_click_role|]. intros [|]; [total_auto|exact IH].
Qed.

Lemma total_handle_cookies p : total (handle_cookies E p).
Proof.
  unfold handle_cookies. apply total_bind; [total_auto|]. intros _.
  apply total_bind; [apply total_click_by_text|]. intros []; total_auto.
Qed.

Lemma total_close_icons p sels : total (close_icons E p sels).
Proof.
  induction sels as [|sel rest IH]; simpl; [total_auto|].
  apply total_bind; [total_auto|]. intros [|]; [total_auto | exact IH].
Qed.

Lemma total_close_modals p : total (close_modals E p).
Proof.
  unfold close_modals. apply total_bind; [total_auto|]. intros _.
  apply total_bind; [apply total_click_by_text|]. intros b.
  apply total_bind; [destruct b; total_auto|]. intros _.
  apply total_close_icons.
Qed.

Lemma total_handle_linkedin_interstitial p :
  total (handle_linkedin_interstitial E p).
Proof.
  unfold handle_linkedin_interstitial.
  apply total_bind; [total_auto|]. intros u.
  destruct (contains "linkedin.com" u); [|total_auto].
  apply total_bind; [apply total_body_text|]. intros txt.
  destruct (contains "leaving" (lower txt)); total_auto.
Qed.

Lemma total_scroll_page p : total (scroll_page E p).
Proof. unfold scroll_page. total_auto. Qed.

Lemma total_resolve_gate p : total (resolve_gate E profile p).
Proof.
  unfold resolve_gate, detect_gate.
  apply total_bind; [total_auto|]. intros _.
  apply total_bind.
  { apply total_bind; [apply total_body_text | intros; total_auto]. }
  intros g. destruct (negb g); [total_auto|].
  apply total_bind; [total_auto|]. intros _.
  destruct (String.eqb profile "unknown"); [total_auto|].
  destruct (dict_get PROFILE_MAP profile) as [|c cs]; [total_auto|].
  apply total_bind; [apply total_click_by_text|]. intros [|]; [|total_auto].
  apply total_bind; [total_auto|]. intros _.
  apply total_bind; [total_auto|]. intros _.
  apply total_bind; [apply total_handle_cookies|]. intros _.
  apply total_bind; [apply total_close_modals|]. intros _.
  apply total_bind; [apply total_click_by_text|]. intros _.
  total_auto.
Qed.

Lemma total_try_hint p inst hint : total (try_hint E p inst hint).
Proof. unfold try_hint. total_auto. Qed.

Lemma total_try_hints p inst hints : total (try_hints E p inst hints).
Proof.
  induction hints as [|h rest IH]; simpl; [total_auto|].
  apply total_bind; [apply total_try_hint|]. intros [out|]; [total_auto|exact IH].
Qed.

Lemma total_try_download_event p inst : total (try_download_event E p inst).
Proof.
  unfold try_download_event. apply total_bind; [total_auto|]. intros _.
  apply total_try_hints.
Qed.

Lemma total_collect_candidate_links p : total (collect_candidate_links E p).
Proof. unfold collect_candidate_links. total_auto. Qed.

Lemma total_follow_pdf_url q inst url : total (follow_pdf_url E q inst url).
Proof. unfold follow_pdf_url. apply total_finally, total_try. intros; total_auto. Qed.

Lemma total_visit_candidate p2 inst cand :
  total (visit_candidate E profile p2 inst cand).
Proof. unfold visit_candidate. apply total_finally, total_try. intros; total_auto. Qed.

Lemma total_crawl inst candidates : total (crawl E profile inst candidates).
Proof.
  induction candidates as [|c rest IH]; simpl; [total_auto|].
  apply total_bind; [total_auto|]. intros p2.
  apply total_bind; [apply total_visit_candidate|].
  intros [|]; [total_auto | exact IH].
Qed.

Lemma total_on_error page inst e : total (on_error E page inst e).
Proof. unfold on_error. total_auto. Qed.

(** [harvest_one] always returns a result. *)
Lemma total_harvest_one inst url : total (harvest_one E profile inst url).
Proof.
  unfold harvest_one.
  apply total_bind; [total_auto|]. intros _.
  apply total_bind; [total_auto|]. intros page.
  apply total_bind; [|intros; total_auto].
  apply total_finally, total_try. intros e. apply total_on_error.
Qed.

(** *** What the handlers leave in the trace *)

Lemma calm_click_by_text p texts ms :
  steps (emitting calm) (click_by_text E p texts ms).
Proof.
  induction texts as [|t rest IH]; simpl; [emit_auto|].
  unfold click_role. emit_with ltac:(exact IH).
Qed.

Lemma calm_body_text p : steps (emitting calm) (body_text E p).
Proof. unfold body_text. emit_auto. Qed.

Lemma calm_handle_cookies p : steps (emitting calm) (handle_cookies E p).
Proof.
  unfold handle_cookies. emit_with ltac:(apply calm_click_by_text).
Qed.

Lemma calm_close_icons p sels : steps (emitting calm) (close_icons E p sels).
Proof.
  induction sels as [|sel rest IH]; simpl; [emit_auto|].
  emit_with ltac:(exact IH).
Qed.

Lemma calm_close_modals p : steps (emitting calm) (close_modals E p).
Proof.
  unfold close_modals.
  emit_with ltac:(first [apply calm_click_by_text | apply calm_close_icons]).
Qed.

Lemma calm_handle_linkedin_interstitial p :
  steps (emitting calm) (handle_linkedin_interstitial E p).
Proof.
  unfold handle_linkedin_interstitial.
  emit_with ltac:(first [apply calm_body_text | apply calm_click_by_text]).
Qed.

Lemma calm_scroll_page p : steps (emitting calm) (scroll_page E p).
Proof. unfold scroll_page. emit_auto. Qed.

Lemma calm_open_and_clear page url :
  steps (emitting calm) (open_and_clear E page url).
Proof.
  unfold open_and_clear.
  emit_with
    ltac:(first [ apply calm_handle_linkedin_interstitial | apply calm_scroll_page
                | apply calm_handle_cookies | apply calm_close_modals ]).
Qed.

Lemma calm_resolve_gate p : steps (emitting calm) (resolve_gate E profile p).
Proof.
  unfold resolve_gate, detect_gate.
  emit_with
    ltac:(first [ apply calm_body_text | apply calm_click_by_text
                | apply calm_handle_cookies | apply calm_close_modals ]).
Qed.

Lemma calm_on_error page inst e : steps (emitting calm) (on_error E page inst e).
Proof. unfold on_error. emit_auto. Qed.

End Facts.

End PdfFacts.

(** ** The gate resolver under an unknown profile (claim C2) *)

Module GateUnknown.
Import PyStr Browser Runs Rules.
Local Open Scope list_scope.

(** C2, as stated, fails for [_check_compliance_gate].  The page of
    [Markup.markup_engine] shows a sentence that holds the keyword professional
    investor, a gate keyword of both programs; its source splits the keyword
    with a tag.  With the profile unknown, [_check_compliance_gate] reads
    the source, finds no keyword and answers none, not manual_required. *)
Lemma keyword_split_by_markup :
  inner_text_body Markup.markup_engine 0 tt = (Ok Markup.shown_text, tt)
  /\ any_in Harvester.COMPLIANCE_GATE_KEYWORDS (lower Markup.shown_text) = true
  /\ Harvester._check_compliance_gate Markup.markup_engine "unknown" 0
       (mkSt (tt : World Markup.markup_engine) []
             (Harvester.mkDict "https://example.org/outlook" EmptyString "error"
                               EmptyString EmptyString))
     = (Ok "none",
        mkSt (tt : World Markup.markup_engine) [EvEnter CGate; EvContent 0]
             (Harvester.mkDict "https://example.org/outlook" EmptyString "error"
                               EmptyString EmptyString)).
Proof. split; [reflexivity|]. split; reflexivity. Qed.

(** C2, amended.  With the profile set to unknown, [resolve_gate]
    ([pdf_harvester.py]) on a page whose visible text holds a gate phrase
    answers manual-intervention-required, records the tag gate_detected,
    and its only browser call is the read of the text of the body: no click
    is attempted.  [_check_compliance_gate] ([harvester.py]) does not read
    the visible text: it answers manual_required, with the read of
    [page.content()] as its only browser call, when the lower-cased source
    of the page holds a gate keyword. *)
Theorem unknown_profile_manual_without_click :
  (forall (E : Engine) (p : PageId) (st : St E PdfHarvester.HarvestResult)
          (txt : string) (w' : World E),
      inner_text_body E p (world st) = (Ok txt, w') ->
      PdfUtil.contains_any txt PdfHarvester.GATE_HINTS = true ->
      PdfHarvester.resolve_gate E "unknown" p st
      = (Ok (false, "Gate detected; profile=unknown => manual required."),
         mkSt w' (trace st ++ [EvEnter CGate; EvInnerText p])
              (PdfHarvester.append_action "gate_detected" (obj st))))
  /\
  (forall (E : Engine) (p : PageId) (st : St E Harvester.ResultDict)
          (c : string) (w' : World E),
      content E p (world st) = (Ok c, w') ->
      any_in Harvester.COMPLIANCE_GATE_KEYWORDS (lower c) = true ->
      Harvester._check_compliance_gate E "unknown" p st
      = (Ok "manual_required",
         mkSt w' (trace st ++ [EvEnter CGate; EvContent p]) (obj st))).
Proof.
  split.
  - intros E p st txt w' Htxt Hgate.
    unfold PdfHarvester.resolve_gate, PdfHarvester.detect_gate,
      PdfHarvester.body_text, bind, enter, try_catch, call, ret, modify.
    cbn [world trace obj]. rewrite Htxt. cbn [world trace obj].
    rewrite Hgate. cbn [world trace obj negb String.eqb Ascii.eqb Bool.eqb].
    now rewrite <- app_assoc.
  - intros E p st c w' Hc Hgate.
    unfold Harvester._check_compliance_gate, bind, enter, call, ret.
    cbn [world trace obj]. rewrite Hc. cbn [world trace obj].
    rewrite Hgate. cbn [world trace obj negb String.eqb Ascii.eqb Bool.eqb].
    now rewrite <- app_assoc.
Qed.

(** The theorem at work on a page that asks for an investor category. *)
Lemma unknown_profile_manual_witness :
  let w := Fake.page_with "Please certify you are a Professional Investor"
             [("Professional", false); ("Retail", false)]
             [("text=/professional/i", false)] [] in
  fst (PdfHarvester.resolve_gate Fake.fake_engine "unknown" 0
         (Fake.start w (PdfHarvester.new_result "Acme" "https://example.org")))
  = Ok (false, "Gate detected; profile=unknown => manual required.")
  /\ fst (Harvester._check_compliance_gate Fake.fake_engine "unknown" 0
            (Fake.start w (Harvester.mkDict "https://example.org" EmptyString "error"
                                           EmptyString EmptyString)))
     = Ok "manual_required".
Proof.
  intros w. destruct unknown_profile_manual_without_click as [Hpdf Hpkg]. split.
  - erewrite (Hpdf Fake.fake_engine 0); [reflexivity | reflexivity | reflexivity].
  - erewrite (Hpkg Fake.fake_engine 0); [reflexivity | reflexivity | reflexivity].
Defined.

End GateUnknown.

(** ** The tag gate_continued (claim C10) *)

Module GateContinued.
Import PyStr Browser Runs Rules PdfFacts.
Import PdfHarvester.

(** C10.  Once the gate is detected and [click_by_text] has clicked an
    option of the configured (known) profile, [resolve_gate] runs the cookie
    and modal handlers, tries the generic continue click, and then, whatever
    that click returned ([clicked] below), appends gate_continued and
    reports the gate as handled. *)
Theorem gate_continued_regardless
        (E : Engine) (profile : string) (p : PageId) (st : St E HarvestResult)
        (txt : string) (w1 : World E) (st2 : St E HarvestResult) :
  inner_text_body E p (world st) = (Ok txt, w1) ->
  PdfUtil.contains_any txt GATE_HINTS = true ->
  String.eqb profile "unknown" = false ->
  dict_get PROFILE_MAP profile <> [] ->
  click_by_text E p (dict_get PROFILE_MAP profile) 2500%N
    (mkSt w1 (trace st ++ [EvEnter CGate; EvInnerText p])
          (append_action "gate_detected" (obj st)))
  = (Ok true, st2) ->
  exists st3 clicked st4,
    bind (handle_cookies E p) (fun _ => close_modals E p)
         (mkSt (sleep E 700%N (world st2)) (trace st2 ++ [EvSleep 700%N])
               (append_action ("gate_selected_" ++ profile) (obj st2)))
    = (Ok tt, st3)
    /\ click_by_text E p CONTINUE_TEXTS 2500%N st3 = (Ok clicked, st4)
    /\ resolve_gate E profile p st
       = (Ok (true, "Gate handled using profile=" ++ profile ++ "."),
          mkSt (world st4) (trace st4) (append_action "gate_continued" (obj st4))).
Proof.
  intros Htxt Hgate Hprofile Hchoices Hclick.
  set (st2' := mkSt (sleep E 700%N (world st2)) (trace st2 ++ [EvSleep 700%N])
                    (append_action ("gate_selected_" ++ profile) (obj st2))).
  destruct (total_run (handle_cookies E p) st2' (total_handle_cookies E p))
    as ([] & sc & Hcookies).
  destruct (total_run (close_modals E p) sc (total_close_modals E p))
    as ([] & st3 & Hmodals).
  destruct (total_run (click_by_text E p CONTINUE_TEXTS 2500%N) st3
                      (total_click_by_text E p _ _))
    as (clicked & st4 & Hcontinue).
  exists st3, clicked, st4. split; [|split; [exact Hcontinue|]].
  - erewrite run_bind_ok; [exact Hmodals | exact Hcookies].
  - unfold resolve_gate.
    erewrite run_bind_ok; [|reflexivity].
    erewrite run_bind_ok.
    2:{ unfold detect_gate, body_text. erewrite run_bind_ok; [reflexivity|].
        apply run_try_ok. unfold call. cbn [world trace obj].
        rewrite Htxt. reflexivity. }
    rewrite Hgate. cbn [negb].
    erewrite run_bind_ok; [|reflexivity].
    rewrite Hprofile.
    revert Hclick Hchoices.
    destruct (dict_get PROFILE_MAP profile) as [|c cs];
      intros Hclick Hchoices; [contradiction|].
    erewrite run_bind_ok.
    2:{ unfold enter. cbn [world trace obj]. rewrite <- app_assoc. exact Hclick. }
    cbv beta iota.
    erewrite run_bind_ok; [|reflexivity].
    erewrite run_bind_ok; [|reflexivity].
    erewrite run_bind_ok; [|exact Hcookies].
    erewrite run_bind_ok; [|exact Hmodals].
    erewrite run_bind_ok; [|exact Hcontinue].
    reflexivity.
Qed.

(** The state in which the profile option has just been clicked, on a page
    that offers the institutional option and no continue button. *)
Definition institutional_page : Fake.FakeWorld :=
  Fake.page_with "Are you an institutional investor?"
                 [("Institutional", false)] [] [].

Definition after_profile_click : St Fake.fake_engine HarvestResult :=
  snd (click_by_text Fake.fake_engine 0 (dict_get PROFILE_MAP "institutional") 2500%N
         (mkSt (institutional_page : World Fake.fake_engine)
               [EvEnter CGate; EvInnerText 0]
               (append_action "gate_detected" (new_result "Acme" "https://example.org")))).

(** The theorem at work: no continue button is there to click, the tag is
    recorded and the gate counts as handled. *)
Lemma gate_continued_witness :
  exists st3 clicked st4,
    bind (handle_cookies Fake.fake_engine 0)
         (fun _ => close_modals Fake.fake_engine 0)
         (mkSt (sleep Fake.fake_engine 700%N (world after_profile_click))
               (trace after_profile_click ++ [EvSleep 700%N])
               (append_action ("gate_selected_" ++ "institutional")
                              (obj after_profile_click)))
    = (Ok tt, st3)
    /\ click_by_text Fake.fake_engine 0 CONTINUE_TEXTS 2500%N st3 = (Ok clicked, st4)
    /\ resolve_gate Fake.fake_engine "institutional" 0
         (Fake.start institutional_page (new_result "Acme" "https://example.org"))
       = (Ok (true, "Gate handled using profile=" ++ "institutional" ++ "."),
          mkSt (world st4) (trace st4) (append_action "gate_continued" (obj st4))).
Proof.
  apply (gate_continued_regardless Fake.fake_engine "institutional" 0
           (Fake.start institutional_page (new_result "Acme" "https://example.org"))
           "Are you an institutional investor?" institutional_page).
  - reflexivity.
  - reflexivity.
  - reflexivity.
  - discriminate.
  - reflexivity.
Defined.

(** On that page the run records gate_continued although the only click
    it made is the one on the profile option. *)
Example gate_continued_without_continue_click :
  let run := resolve_gate Fake.fake_engine "institutional" 0
               (Fake.start institutional_page
                           (new_result "Acme" "https://example.org")) in
  actions (obj (snd run))
  = ["gate_detected"; "gate_selected_institutional"; "gate_continued"]
  /\ filter is_click (trace (snd run))
     = [EvRoleClick 0 role_button "Institutional"].
Proof. split; reflexivity. Qed.

End GateContinued.

(** ** Obstacle handlers on a page without matches (claim C9) *)

Module NoMatchNoop.
Import PyStr Browser Runs Rules.
Local Open Scope list_scope.

Section Looking.
Context {E : Engine} {R : Type}.
Variable p : PageId.
Variable Inv : World E -> Prop.
Variables phrases selectors : list string.
Hypothesis Hquiet : no_match E p Inv phrases selectors.

Local Abbreviation looked := (@looked_only E R Inv).

Lemma looked_refl (st : St E R) : Inv (world st) -> looked st st.
Proof.
  intros H. split; [exact H|]. split; [reflexivity|].
  exists []. now rewrite app_nil_r.
Qed.

Lemma looked_trans (a b c : St E R) : looked a b -> looked b c -> looked a c.
Proof.
  intros (_ & Ho1 & e1 & Ht1 & Hf1) (Hi & Ho2 & e2 & Ht2 & Hf2).
  split; [exact Hi|]. split; [congruence|].
  exists (e1 ++ e2). split.
  - now rewrite Ht2, Ht1, app_assoc.
  - now rewrite forallb_app, Hf1, Hf2.
Qed.

(** A step that finds nothing: it returns [none] and only looked. *)
Definition finds_nothing {A} (m : M (E:=E) (R:=R) A) (none : A) : Prop :=
  forall st, Inv (world st) ->
    exists st', m st = (Ok none, st') /\ looked st st'.

Lemma role_count_nothing (r : Role) (t : string) (st : St E R) :
  In t phrases -> Inv (world st) ->
  exists o st',
    call (EvRoleCount p r t) (role_count E p r t) st = (o, st')
    /\ looked st st' /\ (o = Ok 0 \/ exists e, o = Raise e).
Proof.
  intros Ht H. destruct Hquiet as (Hrole & _ & _).
  destruct (Hrole (world st) r t H Ht) as [Hi Ho].
  unfold call. destruct (role_count E p r t (world st)) as [o w'].
  simpl in Hi, Ho. exists o. eexists. split; [reflexivity|]. split; [|exact Ho].
  split; [exact Hi|]. split; [reflexivity|]. now eexists [_].
Qed.

Lemma locator_count_nothing (sel : string) (st : St E R) :
  In sel selectors -> Inv (world st) ->
  exists o st',
    call (EvLocatorCount p sel) (locator_count E p sel) st = (o, st')
    /\ looked st st' /\ (o = Ok 0 \/ exists e, o = Raise e).
Proof.
  intros Hs H. destruct Hquiet as (_ & Hloc & _).
  destruct (Hloc (world st) sel H Hs) as [Hi Ho].
  unfold call. destruct (locator_count E p sel (world st)) as [o w'].
  simpl in Hi, Ho. exists o. eexists. split; [reflexivity|]. split; [|exact Ho].
  split; [exact Hi|]. split; [reflexivity|]. now eexists [_].
Qed.

Lemma is_visible_nothing (sel : string) (st : St E R) :
  In sel selectors -> Inv (world st) ->
  exists o st',
    call (EvIsVisible p sel) (is_visible E p sel) st = (o, st')
    /\ looked st st' /\ (o = Ok false \/ exists e, o = Raise e).
Proof.
  intros Hs H. destruct Hquiet as (_ & _ & Hvis).
  destruct (Hvis (world st) sel H Hs) as [Hi Ho].
  unfold call. destruct (is_visible E p sel (world st)) as [o w'].
  simpl in Hi, Ho. exists o. eexists. split; [reflexivity|]. split; [|exact Ho].
  split; [exact Hi|]. split; [reflexivity|]. now eexists [_].
Qed.

Lemma nothing_bind {A B} (m : M A) (k : A -> M B) (a : A) (b : B) :
  finds_nothing m a -> finds_nothing (k a) b -> finds_nothing (bind m k) b.
Proof.
  intros Hm Hk st Hi. destruct (Hm st Hi) as (st1 & Hr1 & Hl1).
  destruct (Hk st1) as (st2 & Hr2 & Hl2); [apply Hl1|].
  exists st2. split; [now rewrite (run_bind_ok _ _ _ _ _ Hr1)|].
  now apply looked_trans with st1.
Qed.

Lemma nothing_ret {A} (a : A) : finds_nothing (ret a) a.
Proof. intros st Hi. exists st. split; [reflexivity | now apply looked_refl]. Qed.

Lemma nothing_enter (c : Component) : finds_nothing (enter c) tt.
Proof.
  intros st Hi. eexists. split; [reflexivity|].
  split; [exact Hi|]. split; [reflexivity|]. now exists [EvEnter c].
Qed.

Lemma nothing_rerun (m : M unit) (n : nat) :
  finds_nothing m tt -> finds_nothing (rerun n m) tt.
Proof.
  intros Hm. induction n as [|n IH]; simpl.
  - apply nothing_ret.
  - eapply nothing_bind; [exact Hm | exact IH].
Qed.

End Looking.

Section PdfHandlers.
Variable E : Engine.
Variable p : PageId.
Variable Inv : World E -> Prop.
Variables phrases selectors : list string.
Hypothesis Hquiet : no_match E p Inv phrases selectors.

Local Abbreviation nothing := (@finds_nothing E PdfHarvester.HarvestResult Inv).

Lemma click_role_nothing r t ms :
  In t phrases -> nothing (PdfHarvester.click_role E p r t ms) false.
Proof.
  intros Ht st Hi.
  destruct (role_count_nothing p Inv phrases selectors Hquiet r t st Ht Hi)
    as (o & st' & Hrun & Hl & Ho).
  exists st'. split; [|exact Hl].
  unfold PdfHarvester.click_role, try_catch, bind. rewrite Hrun.
  destruct Ho as [->|[e ->]]; reflexivity.
Qed.

Lemma click_by_text_nothing texts ms :
  incl texts phrases ->
  nothing (PdfHarvester.click_by_text E p texts ms) false.
Proof.
  induction texts as [|t rest IH]; intros Hincl; simpl.
  - apply nothing_ret.
  - assert (Ht : In t phrases) by (apply Hincl; now left).
    assert (Hrest : incl rest phrases) by (intros x Hx; apply Hincl; now right).
    eapply nothing_bind; [now apply click_role_nothing|]. cbv beta iota.
    eapply nothing_bind; [now apply click_role_nothing|]. now apply IH.
Qed.

Lemma close_icons_nothing sels :
  incl sels selectors -> nothing (PdfHarvester.close_icons E p sels) tt.
Proof.
  induction sels as [|sel rest IH]; intros Hincl; simpl.
  - apply nothing_ret.
  - assert (Hs : In sel selectors) by (apply Hincl; now left).
    assert (Hrest : incl rest selectors) by (intros x Hx; apply Hincl; now right).
    eapply nothing_bind with (a := false); [|now apply IH].
    intros st Hi.
    destruct (locator_count_nothing p Inv phrases selectors Hquiet sel st Hs Hi)
      as (o & st' & Hrun & Hl & Ho).
    exists st'. split; [|exact Hl].
    unfold try_catch, bind. rewrite Hrun.
    destruct Ho as [->|[e ->]]; reflexivity.
Qed.

Lemma handle_cookies_nothing :
  incl PdfHarvester.COOKIE_TEXTS phrases ->
  nothing (PdfHarvester.handle_cookies E p) tt.
Proof.
  intros Hincl. unfold PdfHarvester.handle_cookies.
  eapply nothing_bind; [apply nothing_enter|].
  eapply nothing_bind; [now apply click_by_text_nothing|]. apply nothing_ret.
Qed.

Lemma close_modals_nothing :
  incl PdfHarvester.CLOSE_TEXTS phrases ->
  incl PdfHarvester.CLOSE_SELECTORS selectors ->
  nothing (PdfHarvester.close_modals E p) tt.
Proof.
  intros Hp Hs. unfold PdfHarvester.close_modals.
  eapply nothing_bind; [apply nothing_enter|].
  eapply nothing_bind; [now apply click_by_text_nothing|].
  eapply nothing_bind; [apply nothing_ret|].
  now apply close_icons_nothing.
Qed.

End PdfHandlers.

Section HarvesterHandlers.
Variable E : Engine.
Variable p : PageId.
Variable Inv : World E -> Prop.
Variables phrases selectors : list string.
Hypothesis Hquiet : no_match E p Inv phrases selectors.

Local Abbreviation nothing := (@finds_nothing E Harvester.ResultDict Inv).

Lemma visible_then_nothing {A} (sel : string) (clicked : M A) (none : A) :
  In sel selectors ->
  nothing
    (try_catch
       (bind (call (EvIsVisible p sel) (is_visible E p sel))
             (fun v : bool => if v then clicked else ret none))
       (fun _ => ret none))
    none.
Proof.
  intros Hs st Hi.
  destruct (is_visible_nothing p Inv phrases selectors Hquiet sel st Hs Hi)
    as (o & st' & Hrun & Hl & Ho).
  exists st'. split; [|exact Hl].
  unfold try_catch, bind. rewrite Hrun.
  destruct Ho as [->|[e ->]]; reflexivity.
Qed.

Lemma handle_cookies_loop_nothing texts :
  incl (map Harvester.text_selector texts) selectors ->
  nothing (Harvester._handle_cookies_loop E p texts) tt.
Proof.
  induction texts as [|t rest IH]; intros Hincl; simpl.
  - apply nothing_ret.
  - eapply nothing_bind with (a := false).
    + apply visible_then_nothing. apply Hincl. now left.
    + apply IH. intros x Hx. apply Hincl. now right.
Qed.

Lemma click_visible_nothing sels :
  incl sels selectors -> nothing (Harvester.click_visible E p sels) tt.
Proof.
  induction sels as [|sel rest IH]; intros Hincl; simpl.
  - apply nothing_ret.
  - eapply nothing_bind with (a := tt).
    + apply visible_then_nothing. apply Hincl. now left.
    + apply IH. intros x Hx. apply Hincl. now right.
Qed.

End HarvesterHandlers.

(** C9.  On a page where none of the handlers' candidate phrases and
    selectors matches, the obstacle handlers, run any number of times in a
    row, return without raising, leave the result object (and so its action
    tags) as it was, and add to the trace nothing but their look-ups: no
    click is made.  On such a page the matcher [click_by_text] answers false
    for every list of candidate phrases.  This holds of [handle_cookies] and
    [close_modals] ([pdf_harvester.py]) and of [_handle_cookies] and
    [_handle_popups] ([harvester.py]). *)
Theorem obstacle_handlers_noop
        (E : Engine) (p : PageId) (Inv : World E -> Prop) (n : nat) :
  (no_match E p Inv pdf_phrases pdf_selectors ->
   forall st : St E PdfHarvester.HarvestResult, Inv (world st) ->
     (exists st',
         rerun n (bind (PdfHarvester.handle_cookies E p)
                       (fun _ => PdfHarvester.close_modals E p)) st
         = (Ok tt, st')
         /\ looked_only Inv st st')
     /\ (forall texts ms, incl texts pdf_phrases ->
           exists st',
             PdfHarvester.click_by_text E p texts ms st = (Ok false, st')
             /\ looked_only Inv st st'))
  /\
  (no_match E p Inv [] harvester_selectors ->
   forall st : St E Harvester.ResultDict, Inv (world st) ->
     exists st',
       rerun n (bind (Harvester._handle_cookies E p)
                     (fun _ => Harvester._handle_popups E p)) st
       = (Ok tt, st')
       /\ looked_only Inv st st').
Proof.
  split.
  - intros Hquiet st Hi. split.
    + apply nothing_rerun; [|exact Hi].
      eapply nothing_bind.
      * eapply handle_cookies_nothing; [exact Hquiet|].
        intros t Ht. apply in_or_app. now left.
      * eapply close_modals_nothing; [exact Hquiet| |apply incl_refl].
        intros t Ht. apply in_or_app. now right.
    + intros texts ms Hincl.
      eapply click_by_text_nothing; [exact Hquiet | exact Hincl | exact Hi].
  - intros Hquiet st Hi.
    apply nothing_rerun; [|exact Hi].
    eapply nothing_bind.
    + unfold Harvester._handle_cookies.
      eapply nothing_bind; [apply nothing_enter|].
      eapply handle_cookies_loop_nothing; [exact Hquiet|].
      intros x Hx. apply in_or_app. now left.
    + unfold Harvester._handle_popups.
      eapply nothing_bind; [apply nothing_enter|].
      eapply nothing_bind.
      * eapply click_visible_nothing; [exact Hquiet|].
        intros x Hx. apply in_or_app. right. apply in_or_app. now left.
      * eapply click_visible_nothing; [exact Hquiet|].
        intros x Hx. apply in_or_app. right. apply in_or_app. now right.
Qed.

(** A page with a text, a button and a visible link, but nothing a cookie
    or modal handler looks for. *)
Definition bare_page : Fake.FakeWorld :=
  Fake.page_with "Market outlook" [("Read the story", false)]
                 [("text=/read more/i", false)] [].

Definition on_bare_page (w : World Fake.fake_engine) : Prop := w = bare_page.

Lemma bare_page_pdf :
  no_match Fake.fake_engine 0 on_bare_page pdf_phrases pdf_selectors.
Proof.
  unfold on_bare_page. split; [|split].
  - intros w r t -> Ht. destruct r.
    + repeat (destruct Ht as [<-|Ht]; [split; [reflexivity | now left]|]).
      destruct Ht.
    + split; [reflexivity | now left].
  - intros w sel -> _. split; [reflexivity | now left].
  - intros w sel -> Hs.
    repeat (destruct Hs as [<-|Hs]; [split; [reflexivity | now left]|]).
    destruct Hs.
Qed.

Lemma bare_page_harvester :
  no_match Fake.fake_engine 0 on_bare_page [] harvester_selectors.
Proof.
  unfold on_bare_page. split; [|split].
  - intros w r t _ [].
  - intros w sel -> _. split; [reflexivity | now left].
  - intros w sel -> Hs.
    repeat (destruct Hs as [<-|Hs]; [split; [reflexivity | now left]|]).
    destruct Hs.
Qed.

(** The theorem at work: three runs in a row on the bare page. *)
Lemma obstacle_handlers_noop_witness :
  (exists st',
      rerun 3 (bind (PdfHarvester.handle_cookies Fake.fake_engine 0)
                    (fun _ => PdfHarvester.close_modals Fake.fake_engine 0))
            (Fake.start bare_page (PdfHarvester.new_result "Acme" "https://example.org"))
      = (Ok tt, st')
      /\ looked_only on_bare_page
           (Fake.start bare_page (PdfHarvester.new_result "Acme" "https://example.org"))
           st')
  /\
  (exists st',
      rerun 3 (bind (Harvester._handle_cookies Fake.fake_engine 0)
                    (fun _ => Harvester._handle_popups Fake.fake_engine 0))
            (Fake.start bare_page
               (Harvester.mkDict "https://example.org" EmptyString "error"
                                 EmptyString EmptyString))
      = (Ok tt, st')
      /\ looked_only on_bare_page
           (Fake.start bare_page
              (Harvester.mkDict "https://example.org" EmptyString "error"
                                EmptyString EmptyString))
           st').
Proof.
  destruct (obstacle_handlers_noop Fake.fake_engine 0 on_bare_page 3)
    as [Hpdf Hpkg].
  split.
  - apply (Hpdf bare_page_pdf); reflexivity.
  - apply (Hpkg bare_page_harvester); reflexivity.
Defined.

End NoMatchNoop.

(** ** The download trigger (claim C5) *)

Module DownloadTrigger.
Import PyStr Browser Runs Rules PdfFacts.
Local Open Scope list_scope.

(** *** [try_download_event] of [pdf_harvester.py] *)

Section Priority.
Variable E : Engine.
Variable p : PageId.
Variable inst : string.

Local Abbreviation try_hints := (PdfHarvester.try_hints E p inst).
Local Abbreviation try_hint := (PdfHarvester.try_hint E p inst).

(** The phrases are tried from left to right, and the ones after a
    success are not tried. *)
Lemma try_hints_app (l1 l2 : list string) (st : St E PdfHarvester.HarvestResult) :
  try_hints (l1 ++ l2) st
  = match try_hints l1 st with
    | (Ok None, st1) => try_hints l2 st1
    | r => r
    end.
Proof.
  revert st. induction l1 as [|h l1 IH]; intros st; simpl; [reflexivity|].
  unfold bind.
  destruct (total_run _ st (total_try_hint E p inst h)) as ([out|] & st1 & Hh);
    rewrite Hh.
  - reflexivity.
  - apply IH.
Qed.

(** A phrase that succeeds after the phrases before it failed yields the
    saved path, which is the download directory joined with the derived
    file name. *)
Lemma lower_priority_success (l1 l2 : list string) (h out : string)
      (st st1 st2 : St E PdfHarvester.HarvestResult) :
  try_hints l1 st = (Ok None, st1) ->
  try_hint h st1 = (Ok (Some out), st2) ->
  try_hints (l1 ++ h :: l2) st = (Ok (Some out), st2)
  /\ out = PdfHarvester.path_join PdfHarvester.DOWNLOAD_DIR
             (PdfUtil.safe_filename inst).
Proof.
  intros H1 Hh. split.
  - rewrite try_hints_app, H1. simpl. unfold bind. now rewrite Hh.
  - revert Hh. unfold PdfHarvester.try_hint, try_catch.
    bind_case; [|discriminate].
    bind_case; [|discriminate].
    bind_case; [|discriminate].
    match goal with |- context [negb ?b] => destruct b end; [|discriminate].
    cbn [negb].
    bind_case; [|discriminate].
    intros Heq. inversion Heq. reflexivity.
Qed.

(** Absent only when every phrase was tried, in order, and failed. *)
Lemma absent_means_all_failed (hints : list string)
      (st st' : St E PdfHarvester.HarvestResult) :
  try_hints hints st = (Ok None, st') ->
  forall l1 h l2, hints = l1 ++ h :: l2 ->
    exists s1 s2,
      try_hints l1 st = (Ok None, s1) /\ try_hint h s1 = (Ok None, s2).
Proof.
  intros Hrun l1 h l2 ->. rewrite try_hints_app in Hrun.
  destruct (total_run _ st (total_try_hints E p inst l1)) as (r1 & s1 & H1).
  rewrite H1 in Hrun. destruct r1 as [out|]; [discriminate|].
  simpl in Hrun. unfold bind in Hrun.
  destruct (total_run _ s1 (total_try_hint E p inst h)) as (r2 & s2 & H2).
  rewrite H2 in Hrun. destruct r2 as [out|]; [discriminate|].
  now exists s1, s2.
Qed.

(** A phrase whose click does not occur is passed over. *)
Lemma no_click_moves_on (h : string) (st s1 s2 : St E PdfHarvester.HarvestResult) o :
  call (EvExpectDownload p) (expect_download E p 3000%N) st = (o, s1) ->
  PdfHarvester.click_by_text E p [h] 1500%N s1 = (Ok false, s2) ->
  exists s3, try_hint h st = (Ok None, s3).
Proof.
  intros Hexp Hclick. unfold PdfHarvester.try_hint, try_catch, bind.
  rewrite Hexp. destruct o as [[]|e]; [|now eexists].
  rewrite Hclick.
  destruct (call (EvDownloadValue p) (download_value E p) s2) as [[d|e] s3];
    now eexists.
Qed.

(** A phrase whose download event does not fire in time is passed over. *)
Lemma no_download_moves_on (h : string) (st s1 s2 s3 : St E PdfHarvester.HarvestResult)
      (clicked : bool) (e : string) :
  call (EvExpectDownload p) (expect_download E p 3000%N) st = (Ok tt, s1) ->
  PdfHarvester.click_by_text E p [h] 1500%N s1 = (Ok clicked, s2) ->
  call (EvDownloadValue p) (download_value E p) s2 = (Raise e, s3) ->
  try_hint h st = (Ok None, s3).
Proof.
  intros Hexp Hclick Hdl. unfold PdfHarvester.try_hint, try_catch, bind.
  now rewrite Hexp, Hclick, Hdl.
Qed.

End Priority.

(** On a page where only the phrase pdf matches a clickable element, the
    trigger of [pdf_harvester.py] passes over the three phrases before it and
    succeeds with the fourth. *)
Example only_pdf_matches :
  let run := PdfHarvester.try_download_event Fake.fake_engine 0 "Acme Capital"
               (Fake.start (Fake.page_with "Outlook" [("PDF", true)] [] [])
                           (PdfHarvester.new_result "Acme Capital" "https://example.org")) in
  fst run = Ok (Some "downloads/acme_capital_2026.pdf")
  /\ PdfHarvester.actions (obj (snd run)) = ["downloaded_via_click:pdf"]
  /\ filter is_download_attempt (trace (snd run))
     = [EvEnter CDownload; EvExpectDownload 0; EvExpectDownload 0;
        EvExpectDownload 0; EvExpectDownload 0].
Proof. repeat split; reflexivity. Qed.

(** *** [_try_download_buttons] of [harvester.py] *)

Section Buttons.
Variable E : Engine.
Variables DOWNLOAD_DIR : string.
Variable p : PageId.
Variable institution : string.

Local Abbreviation M := (@Browser.M E Harvester.ResultDict).

(** With [os] unbound, [_save_download] fails before it saves. *)
Lemma save_download_name_error (d : DownloadId) (st : St E Harvester.ResultDict) :
  Harvester._save_download E DOWNLOAD_DIR Harvester.source_os_bound d institution st
  = (Ok false, st).
Proof. destruct st. reflexivity. Qed.

Definition not_true (o : outcome (option bool)) : Prop :=
  o <> Ok (Some true).

Lemma try_elements_not_true (elements : list ElemId) :
  answers not_true
    (Harvester.try_elements E DOWNLOAD_DIR Harvester.source_os_bound
       p institution elements).
Proof.
  unfold answers, not_true.
  induction elements as [|el rest IH]; intros st; simpl; [discriminate|].
  bind_case; [|discriminate].
  match goal with |- context [negb ?b] => destruct b end; cbn [negb]; [|apply IH].
  bind_case; [|discriminate].
  bind_case; [|discriminate].
  bind_case; [|discriminate].
  rewrite run_bind, save_download_name_error. discriminate.
Qed.

Lemma try_keywords_false (keywords : list string) :
  answers (fun o => o = Ok false)
    (Harvester.try_keywords E DOWNLOAD_DIR Harvester.source_os_bound
       p institution keywords).
Proof.
  unfold answers.
  induction keywords as [|k rest IH]; intros st; simpl; [reflexivity|].
  rewrite run_bind. unfold try_catch at 1.
  match goal with
  | |- context [bind ?m ?k ?s] =>
      rewrite (run_bind m k s); destruct (m s) as [[els|e] s1]
  end; [|apply IH].
  pose proof (try_elements_not_true els s1) as Hels. unfold not_true in Hels.
  destruct (Harvester.try_elements E DOWNLOAD_DIR Harvester.source_os_bound
              p institution els s1) as [[[[|]|]|e] s2]; simpl in Hels.
  - congruence.
  - reflexivity.
  - apply IH.
  - apply IH.
Qed.

Lemma keeps_save_download (d : DownloadId) :
  steps (keeping (fun r => r))
    (Harvester._save_download E DOWNLOAD_DIR Harvester.source_os_bound d institution).
Proof. intros st. now rewrite save_download_name_error. Qed.

Lemma keeps_try_elements (elements : list ElemId) :
  steps (keeping (fun r => r))
    (Harvester.try_elements E DOWNLOAD_DIR Harvester.source_os_bound
       p institution elements).
Proof.
  induction elements as [|el rest IH]; simpl; [keep_auto|].
  keep_with ltac:(first [exact IH | apply keeps_save_download]).
Qed.

Lemma keeps_try_keywords (keywords : list string) :
  steps (keeping (fun r => r))
    (Harvester.try_keywords E DOWNLOAD_DIR Harvester.source_os_bound
       p institution keywords).
Proof.
  induction keywords as [|k rest IH]; simpl; [keep_auto|].
  keep_with ltac:(first [exact IH | apply keeps_try_elements]).
Qed.

End Buttons.

(** A page with one visible element for the phrase download pdf, whose
    click starts a download. *)
Definition download_page : Fake.FakeWorld :=
  Fake.page_with "Outlook 2026" [] [("text=/download pdf/i", true)] [].

(** C5 fails on [_try_download_buttons] of [harvester.py].  On
    [download_page] the second-priority phrase matches, its click is made
    and the download event is received; [_save_download] then evaluates
    os.path.join in a module that never imports os, the NameError is caught
    by its own handler, and the scan returns False at once: nothing is
    saved, no file path is set, and the phrases after it are not tried.  The
    same holds on every page: with [os] unbound the scan never returns True
    and never touches the result. *)
Theorem download_buttons_lose_the_download :
  (let run := Harvester._try_download_buttons Fake.fake_engine "/srv/downloads"
                Harvester.source_os_bound 0 "Acme Capital"
                (Fake.start download_page
                   (Harvester.mkDict "https://example.org" "https://example.org"
                                     "error" EmptyString EmptyString)) in
   fst run = Ok false
   /\ Harvester.file_path (obj (snd run)) = EmptyString
   /\ Harvester.status (obj (snd run)) = "error"
   /\ trace (snd run)
      = [EvEnter CDownload;
         EvLocatorAll 0 "text=/download full pdf/i";
         EvLocatorAll 0 "text=/download pdf/i";
         EvElemVisible 0; EvExpectDownload 0; EvElemClick 0; EvDownloadValue 0])
  /\
  (forall (E : Engine) (dir : string) (p : PageId) (institution : string)
          (st : St E Harvester.ResultDict),
      let run := Harvester._try_download_buttons E dir Harvester.source_os_bound
                   p institution st in
      fst run = Ok false /\ obj (snd run) = obj st).
Proof.
  split; [repeat split; reflexivity|].
  intros E dir p institution st run. subst run.
  unfold Harvester._try_download_buttons. split.
  - rewrite run_bind. unfold enter at 1. apply try_keywords_false.
  - apply (keeps_bind (fun r => r)); [apply keeps_enter|].
    intros _. apply keeps_try_keywords.
Qed.

End DownloadTrigger.

(** ** The invariant of finalized results, with pages that open and close *)

Module ResultInvariant.
Import PyStr Browser Runs Rules PdfFacts Stated.
Local Open Scope list_scope.

(** *** [harvest_one] *)

Module Pdf.
Import PdfHarvester.

(** The two fields the invariant speaks of. *)
Definition core (r : HarvestResult) : string * option string :=
  (status r, file_path r).

Definition pending (r : HarvestResult) : Prop :=
  status r <> "downloaded" /\ file_path r = None.

Definition done (r : HarvestResult) : Prop :=
  status r = "downloaded"
  /\ exists f, file_path r = Some f /\ f <> EmptyString.

Lemma pending_core (r r' : HarvestResult) :
  core r' = core r -> pending r -> pending r'.
Proof. unfold core, pending. intros H [Hs Hf]. inversion H. split; congruence. Qed.

Lemma done_well_formed (r : HarvestResult) : done r -> result_well_formed r.
Proof.
  intros [Hs Hf]. split; [rewrite Hs; now left|]. split; [now intros _ | now intros _].
Qed.

Lemma pending_well_formed (r : HarvestResult) :
  In (status r) ["manual_required"; "not_found"; "error"] ->
  file_path r = None -> result_well_formed r.
Proof.
  intros Hin Hf. split.
  - right. exact Hin.
  - split.
    + intros (f & Hsome & _). congruence.
    + intros Hs. rewrite Hs in Hin.
      repeat (destruct Hin as [Hin|Hin]; [discriminate|]). destruct Hin.
Qed.

Section Facts.
Variable E : Engine.
Variable profile : string.

Local Abbreviation keeps_core m := (steps (E:=E) (keeping core) m).

Lemma core_click_by_text p texts ms : keeps_core (click_by_text E p texts ms).
Proof.
  induction texts as [|t rest IH]; simpl; [keep_auto|].
  unfold click_role. keep_with ltac:(exact IH).
Qed.

Lemma core_body_text p : keeps_core (body_text E p).
Proof. unfold body_text. keep_auto. Qed.

Lemma core_handle_cookies p : keeps_core (handle_cookies E p).
Proof. unfold handle_cookies. keep_with ltac:(apply core_click_by_text). Qed.

Lemma core_close_icons p sels : keeps_core (close_icons E p sels).
Proof.
  induction sels as [|sel rest IH]; simpl; [keep_auto|].
  keep_with ltac:(exact IH).
Qed.

Lemma core_close_modals p : keeps_core (close_modals E p).
Proof.
  unfold close_modals.
  keep_with ltac:(first [apply core_click_by_text | apply core_close_icons]).
Qed.

Lemma core_handle_linkedin_interstitial p :
  keeps_core (handle_linkedin_interstitial E p).
Proof.
  unfold handle_linkedin_interstitial.
  keep_with ltac:(first [apply core_body_text | apply core_click_by_text]).
Qed.

Lemma core_scroll_page p : keeps_core (scroll_page E p).
Proof. unfold scroll_page. keep_auto. Qed.

Lemma core_open_and_clear page url : keeps_core (open_and_clear E page url).
Proof.
  unfold open_and_clear.
  keep_with
    ltac:(first [ apply core_handle_linkedin_interstitial | apply core_scroll_page
                | apply core_handle_cookies | apply core_close_modals ]).
Qed.

Lemma core_resolve_gate p : keeps_core (resolve_gate E profile p).
Proof.
  unfold resolve_gate, detect_gate.
  keep_with
    ltac:(first [ apply core_body_text | apply core_click_by_text
                | apply core_handle_cookies | apply core_close_modals ]).
Qed.

Lemma core_try_hint p inst hint : keeps_core (try_hint E p inst hint).
Proof. unfold try_hint. keep_with ltac:(apply core_click_by_text). Qed.

Lemma core_try_hints p inst hints : keeps_core (try_hints E p inst hints).
Proof.
  induction hints as [|h rest IH]; simpl; [keep_auto|].
  keep_with ltac:(first [exact IH | apply core_try_hint]).
Qed.

Lemma core_try_download_event p inst : keeps_core (try_download_event E p inst).
Proof. unfold try_download_event. keep_with ltac:(apply core_try_hints). Qed.

Lemma core_collect_candidate_links p : keeps_core (collect_candidate_links E p).
Proof. unfold collect_candidate_links. keep_auto. Qed.

Lemma core_last_pdf_url p : keeps_core (last_pdf_url E p).
Proof. unfold last_pdf_url. keep_auto. Qed.

(** The path the trigger returns is never empty. *)
Definition saved_path (o : outcome (option string)) : Prop :=
  forall out, o = Ok (Some out) -> out <> EmptyString.

Lemma path_try_hint p inst hint : answers saved_path (try_hint E p inst hint).
Proof.
  intros st out. unfold try_hint, try_catch.
  bind_case; [|discriminate].
  bind_case; [|discriminate].
  bind_case; [|discriminate].
  match goal with |- context [negb ?b] => destruct b end; [|discriminate].
  cbn [negb].
  bind_case; [|discriminate].
  intros Heq. inversion Heq. discriminate.
Qed.

Lemma path_try_hints p inst hints : answers saved_path (try_hints E p inst hints).
Proof.
  induction hints as [|h rest IH]; intros st out; simpl; [discriminate|].
  rewrite run_bind.
  pose proof (path_try_hint p inst h st) as Hh.
  destruct (try_hint E p inst h st) as [[[o|]|e] s1]; simpl in Hh.
  - intros Heq. inversion Heq. subst. now apply Hh.
  - apply IH.
  - discriminate.
Qed.

Lemma path_try_download_event p inst :
  answers saved_path (try_download_event E p inst).
Proof.
  intros st. unfold try_download_event. rewrite run_bind. apply path_try_hints.
Qed.

(** A step that may finish the task: it never raises; on [true] the result
    is marked as downloaded with its path, on [false] it is as before. *)
Definition finds (m : M (E:=E) (R:=HarvestResult) bool) : Prop :=
  forall st, pending (obj st) ->
    exists b st', m st = (Ok b, st')
                  /\ if b then done (obj st') else pending (obj st').

(** Running the trigger on page [q] and marking the result on success. *)
Lemma trigger_and_mark (q : PageId) (inst : string) (st : St E HarvestResult) :
  pending (obj st) ->
  exists o st',
    bind (try_download_event E q inst)
         (fun out => match out with
                     | Some o => bind (mark_downloaded E o q) (fun _ => ret true)
                     | None => ret false
                     end) st
    = (Ok o, st')
    /\ if o then done (obj st') else pending (obj st').
Proof.
  intros Hp. rewrite run_bind.
  destruct (total_run _ st (total_try_download_event E q inst)) as (out & s1 & Hrun).
  pose proof (steps_run _ _ _ _ _ (core_try_download_event q inst) Hrun) as Hc.
  pose proof (answers_run _ _ _ _ _ (path_try_download_event q inst) Hrun) as Hpath.
  rewrite Hrun. destruct out as [o|].
  - exists true. eexists. split; [reflexivity|]. split; [reflexivity|].
    exists o. split; [reflexivity | now apply Hpath].
  - exists false, s1. split; [reflexivity|]. eapply pending_core; eassumption.
Qed.

Lemma finds_follow_pdf_url (q : PageId) (inst : string) (url : M string) :
  keeps_core url -> finds (follow_pdf_url E q inst url).
Proof.
  intros Hurl st Hp. unfold follow_pdf_url, finally, try_catch.
  rewrite run_bind.
  destruct (url st) as [[u|e] s1] eqn:Hu;
    pose proof (steps_run _ _ _ _ _ Hurl Hu) as Hc1;
    assert (Hp1 : pending (obj s1)) by (eapply pending_core; eassumption).
  2:{ exists false. eexists. split; [reflexivity | exact Hp1]. }
  rewrite run_bind. unfold call at 1.
  destruct (goto E q u (world s1)) as [[r|e] w2].
  2:{ exists false. eexists. split; [reflexivity | exact Hp1]. }
  rewrite run_bind. unfold call_total at 1.
  match goal with
  | |- context [bind ?m ?k ?s] =>
      destruct (trigger_and_mark q inst s) as (o & s3 & Hrun & Hres); [exact Hp1|]
  end.
  rewrite Hrun. exists o. eexists. split; [reflexivity | exact Hres].
Qed.

Lemma finds_visit_candidate (p2 : PageId) (inst cand : string) :
  finds (visit_candidate E profile p2 inst cand).
Proof.
  intros st Hp. unfold visit_candidate, finally, try_catch.
  rewrite run_bind. unfold call at 1.
  destruct (goto E p2 cand (world st)) as [[r|e] w1].
  2:{ exists false. eexists. split; [reflexivity | exact Hp]. }
  rewrite run_bind. unfold call_total at 1. cbv beta iota.
  match goal with |- context [bind ?m ?k ?s] => set (s1 := s) end.
  assert (Hp1 : pending (obj s1)) by exact Hp.
  rewrite run_bind.
  destruct (total_run _ s1 (total_handle_cookies E p2)) as ([] & s2 & H2).
  pose proof (steps_run _ _ _ _ _ (core_handle_cookies p2) H2) as Hc2.
  rewrite H2. rewrite run_bind.
  destruct (total_run _ s2 (total_close_modals E p2)) as ([] & s3 & H3).
  pose proof (steps_run _ _ _ _ _ (core_close_modals p2) H3) as Hc3.
  rewrite H3. rewrite run_bind.
  destruct (total_run _ s3 (total_resolve_gate E profile p2)) as (g & s4 & H4).
  pose proof (steps_run _ _ _ _ _ (core_resolve_gate p2) H4) as Hc4.
  rewrite H4.
  assert (Hp4 : pending (obj s4)).
  { eapply pending_core; [exact Hc4|]. eapply pending_core; [exact Hc3|].
    eapply pending_core; [exact Hc2 | exact Hp1]. }
  destruct (negb (fst g)).
  { exists false. eexists. split; [reflexivity | exact Hp4]. }
  rewrite run_bind.
  destruct (total_run _ s4 (total_try_download_event E p2 inst)) as (out & s5 & H5).
  pose proof (steps_run _ _ _ _ _ (core_try_download_event p2 inst) H5) as Hc5.
  pose proof (answers_run _ _ _ _ _ (path_try_download_event p2 inst) H5) as Hpath.
  rewrite H5. destruct out as [o|].
  { exists true. eexists. split; [reflexivity|]. split; [reflexivity|].
    exists o. split; [reflexivity | now apply Hpath]. }
  assert (Hp5 : pending (obj s5)) by (eapply pending_core; eassumption).
  rewrite run_bind. unfold last_pdf_url at 1, observe at 1.
  match goal with |- context [truthy ?s] => destruct (truthy s) end.
  2:{ exists false. eexists. split; [reflexivity | exact Hp5]. }
  rewrite run_bind. unfold open_page at 1.
  destruct (new_page E (world s5)) as [p3 w6].
  match goal with
  | |- context [follow_pdf_url E p3 inst ?u ?s] =>
      destruct (finds_follow_pdf_url p3 inst u (core_last_pdf_url p2) s)
        as (b & s7 & H7 & Hres); [exact Hp5|]
  end.
  rewrite H7. exists b. eexists. split; [reflexivity | exact Hres].
Qed.

Lemma finds_crawl (inst : string) (candidates : list string) :
  finds (crawl E profile inst candidates).
Proof.
  induction candidates as [|cand rest IH]; intros st Hp; simpl.
  - exists false, st. split; [reflexivity | exact Hp].
  - rewrite run_bind. unfold open_page at 1.
    destruct (new_page E (world st)) as [p2 w1].
    rewrite run_bind.
    match goal with
    | |- context [visit_candidate E profile p2 inst cand ?s] =>
        destruct (finds_visit_candidate p2 inst cand s) as (b & s2 & H2 & Hres);
          [exact Hp|]
    end.
    rewrite H2. destruct b.
    + exists true, s2. split; [reflexivity | exact Hres].
    + apply IH. exact Hres.
Qed.

(** The error clause sets the status and leaves the file path alone. *)
Lemma core_on_error_path page inst e :
  steps (E:=E)
        (fun st st' => status (obj st') = "error"
                       /\ file_path (obj st') = file_path (obj st))
        (on_error E page inst e).
Proof.
  intros st. unfold on_error, try_catch.
  do 4 (rewrite run_bind; cbn [observe modify]). unfold call.
  match goal with |- context [screenshot E ?p ?f ?w] =>
    destruct (screenshot E p f w) as [[[]|e'] w'] end; split; reflexivity.
Qed.

(** What [after_gate] leaves: a well-formed result when it returns, and no
    file path when it raises (which only a screenshot can make it do). *)
Definition settled (o : outcome unit) (r : HarvestResult) : Prop :=
  match o with
  | Ok _ => result_well_formed r
  | Raise _ => file_path r = None
  end.

Lemma screenshot_settles (page : PageId) (path : string) (st : St E HarvestResult) :
  In (status (obj st)) ["manual_required"; "not_found"; "error"] ->
  file_path (obj st) = None ->
  exists o st',
    call (EvScreenshot page path) (screenshot E page path) st = (o, st')
    /\ settled o (obj st').
Proof.
  intros Hs Hf. unfold call.
  destruct (screenshot E page path (world st)) as [[[]|e] w]; do 2 eexists;
    (split; [reflexivity|]); simpl.
  - now apply pending_well_formed.
  - exact Hf.
Qed.

(** The pipeline from the second run of the trigger on. *)
Lemma click_then_crawl_settles (page : PageId) (inst : string)
      (st : St E HarvestResult) :
  pending (obj st) ->
  exists o st',
    click_then_crawl E profile page inst st = (o, st') /\ settled o (obj st').
Proof.
  intros Hp. unfold click_then_crawl.
  rewrite run_bind.
  destruct (total_run _ st (total_try_download_event E page inst)) as (out & s1 & H1).
  pose proof (steps_run _ _ _ _ _ (core_try_download_event page inst) H1) as Hc1.
  pose proof (answers_run _ _ _ _ _ (path_try_download_event page inst) H1) as Hpath.
  rewrite H1. destruct out as [o|].
  { do 2 eexists. split; [reflexivity|]. apply done_well_formed.
    split; [reflexivity|]. exists o. split; [reflexivity | now apply Hpath]. }
  assert (Hp1 : pending (obj s1)) by (eapply pending_core; eassumption).
  rewrite run_bind. unfold last_pdf_url at 1, observe at 1. cbv beta iota.
  rewrite run_bind.
  assert (Hfound : exists b s2,
             (if truthy (fold_left on_response (responses_seen E page (world s1)) EmptyString)
              then bind open_page
                     (fun p2 => follow_pdf_url E p2 inst
                                  (ret (fold_left on_response (responses_seen E page (world s1)) EmptyString)))
              else ret false) s1 = (Ok b, s2)
             /\ if b then done (obj s2) else pending (obj s2)).
  { destruct (truthy _).
    - rewrite run_bind. unfold open_page at 1.
      destruct (new_page E (world s1)) as [p2 w2].
      apply finds_follow_pdf_url; [apply keeps_ret | exact Hp1].
    - exists false, s1. split; [reflexivity | exact Hp1]. }
  destruct Hfound as (b & s2 & H2 & Hres). rewrite H2.
  destruct b.
  { do 2 eexists. split; [reflexivity|]. now apply done_well_formed. }
  rewrite run_bind.
  destruct (total_run _ s2 (total_collect_candidate_links E page)) as (cands & s3 & H3).
  pose proof (steps_run _ _ _ _ _ (core_collect_candidate_links page) H3) as Hc3.
  rewrite H3. rewrite run_bind.
  destruct (finds_crawl inst cands s3) as (b & s4 & H4 & Hres4).
  { eapply pending_core; eassumption. }
  rewrite H4. destruct b.
  { do 2 eexists. split; [reflexivity|]. now apply done_well_formed. }
  do 4 (rewrite run_bind; cbn [observe modify]).
  apply screenshot_settles; simpl; [right; now left | apply Hres4].
Qed.

Lemma after_gate_settles (page : PageId) (inst : string) (g : bool * string)
      (st : St E HarvestResult) :
  pending (obj st) ->
  exists o st',
    after_gate E profile page inst g st = (o, st') /\ settled o (obj st').
Proof.
  intros Hp. destruct g as [handled note]. unfold after_gate.
  destruct handled; cbn [negb].
  2:{ do 4 (rewrite run_bind; cbn [observe modify]).
      apply screenshot_settles; simpl; [now left | apply Hp]. }
  do 3 (rewrite run_bind; cbn [observe modify last_pdf_url]).
  match goal with |- context [bind ?m ?k ?s] => set (s1 := s) end.
  assert (Hp1 : pending (obj s1)) by exact Hp.
  rewrite run_bind.
  match goal with |- context [if ?c then _ else _] => destruct c end.
  - destruct (total_run _ s1 (total_try_download_event E page inst)) as (out & s2 & H2).
    pose proof (steps_run _ _ _ _ _ (core_try_download_event page inst) H2) as Hc2.
    pose proof (answers_run _ _ _ _ _ (path_try_download_event page inst) H2) as Hpath.
    rewrite H2. destruct out as [o|].
    + do 2 eexists. split; [reflexivity|]. apply done_well_formed.
      split; [reflexivity|]. exists o. split; [reflexivity | now apply Hpath].
    + apply (click_then_crawl_settles page inst s2).
      eapply pending_core; eassumption.
  - cbn [ret]. apply (click_then_crawl_settles page inst s1 Hp1).
Qed.

(** [harvest_one] returns a well-formed result on every input. *)
Lemma harvest_one_well_formed (inst url : string) (st : St E HarvestResult) :
  exists r st',
    harvest_one E profile inst url st = (Ok r, st') /\ result_well_formed r.
Proof.
  unfold harvest_one.
  rewrite run_bind. cbn [modify].
  rewrite run_bind. unfold open_page at 1. cbn [world trace obj].
  destruct (new_page E (world st)) as [page w0]. cbv beta iota.
  rewrite run_bind. unfold finally, try_catch.
  match goal with |- context [bind ?m ?k ?s] => set (s0 := s) end.
  assert (Hp0 : pending (obj s0)) by (split; [discriminate | reflexivity]).
  assert (Herr : forall e s, file_path (obj s) = None ->
            exists s', on_error E page inst e s = (Ok tt, s')
                       /\ result_well_formed (obj s')).
  { intros e s Hf. unfold on_error, try_catch.
    do 4 (rewrite run_bind; cbn [observe modify]). unfold call.
    match goal with |- context [screenshot E ?p ?f ?w] =>
      destruct (screenshot E p f w) as [[[]|e'] w'] end;
      eexists; (split; [reflexivity|]);
      (apply pending_well_formed; [right; right; now left | exact Hf]). }
  rewrite run_bind.
  destruct (open_and_clear E page url s0) as [[[]|e] s1] eqn:H1;
    pose proof (steps_run _ _ _ _ _ (core_open_and_clear page url) H1) as Hc1;
    assert (Hp1 : pending (obj s1)) by (eapply pending_core; eassumption).
  2:{ destruct (Herr e s1 (proj2 Hp1)) as (s' & Hrun & Hwf). rewrite Hrun.
      do 2 eexists. split; [reflexivity | exact Hwf]. }
  rewrite run_bind.
  destruct (total_run _ s1 (total_resolve_gate E profile page)) as (g & s2 & H2).
  pose proof (steps_run _ _ _ _ _ (core_resolve_gate page) H2) as Hc2.
  rewrite H2.
  destruct (after_gate_settles page inst g s2) as (o & s3 & H3 & Hs3).
  { eapply pending_core; eassumption. }
  rewrite H3. destruct o as [[]|e].
  - do 2 eexists. split; [reflexivity | exact Hs3].
  - destruct (Herr e s3 Hs3) as (s' & Hrun & Hwf). rewrite Hrun.
    do 2 eexists. split; [reflexivity | exact Hwf].
Qed.

End Facts.
End Pdf.

(** *** [process_url] *)

Module Pkg.
Import Harvester.

Definition core (r : ResultDict) : string * string := (status r, file_path r).

Definition pending (r : ResultDict) : Prop :=
  status r <> "downloaded" /\ file_path r = EmptyString.

Definition done (r : ResultDict) : Prop :=
  status r = "downloaded" /\ file_path r <> EmptyString.

Lemma dict_pending_core (r r' : ResultDict) :
  core r' = core r -> pending r -> pending r'.
Proof. unfold core, pending. intros H [Hs Hf]. inversion H. split; congruence. Qed.

Lemma dict_done_well_formed (r : ResultDict) : done r -> dict_well_formed r.
Proof.
  intros [Hs Hf]. split; [rewrite Hs; now left|]. split; [now intros _ | now intros _].
Qed.

Lemma dict_pending_well_formed (r : ResultDict) :
  In (status r) ["manual_required"; "not_found"; "error"] ->
  file_path r = EmptyString -> dict_well_formed r.
Proof.
  intros Hin Hf. split.
  - right. exact Hin.
  - split.
    + intros Hne. contradiction.
    + intros Hs. rewrite Hs in Hin.
      repeat (destruct Hin as [Hin|Hin]; [discriminate|]). destruct Hin.
Qed.

Lemma os_path_join_nonempty (a b : string) :
  b <> EmptyString -> os_path_join a b <> EmptyString.
Proof.
  intros Hb. unfold os_path_join.
  destruct (startswith "/" b); [exact Hb|].
  assert (Hlen : forall x y, y <> EmptyString -> (x ++ y)%string <> EmptyString).
  { intros x y Hy Heq. apply (f_equal String.length) in Heq.
    rewrite StrFacts.length_app in Heq. destruct y; [contradiction|].
    simpl in Heq. lia. }
  destruct (_ || _); apply Hlen; [exact Hb | discriminate].
Qed.

Lemma sanitize_filename_nonempty (institution date : string) :
  Utils.sanitize_filename institution date <> EmptyString.
Proof.
  unfold Utils.sanitize_filename. intros Heq.
  apply (f_equal String.length) in Heq.
  rewrite !StrFacts.length_app in Heq. simpl in Heq. lia.
Qed.

Section Facts.
Variable E : Engine.
Variables profile DOWNLOAD_DIR SCREENSHOT_DIR : string.
Variable os_bound : bool.

Local Abbreviation keeps_core m := (steps (E:=E) (keeping core) m).

(** A step that may finish the task: when it returns a value [is_found]
    accepts, the result is marked as downloaded with its path; otherwise,
    and when it raises, the result is as before. *)
Definition may_find {A} (is_found : A -> bool)
           (m : M (E:=E) (R:=ResultDict) A) : Prop :=
  forall st, pending (obj st) ->
    exists o st',
      m st = (o, st')
      /\ match o with
         | Ok a => if is_found a then done (obj st') else pending (obj st')
         | Raise _ => pending (obj st')
         end.

Definition is_true (b : bool) : bool := b.
Definition is_some_true (o : option bool) : bool :=
  match o with Some true => true | _ => false end.

Lemma core_save_screenshot p name :
  keeps_core (save_screenshot E SCREENSHOT_DIR p name).
Proof. unfold save_screenshot. keep_auto. Qed.

Lemma core_handle_cookies_loop p texts :
  keeps_core (_handle_cookies_loop E p texts).
Proof.
  induction texts as [|t rest IH]; simpl; [keep_auto|].
  keep_with ltac:(exact IH).
Qed.

Lemma core_click_visible p sels : keeps_core (click_visible E p sels).
Proof.
  induction sels as [|sel rest IH]; simpl; [keep_auto|].
  keep_with ltac:(exact IH).
Qed.

Lemma pkg_core_handle_cookies p : keeps_core (_handle_cookies E p).
Proof. unfold _handle_cookies. keep_with ltac:(apply core_handle_cookies_loop). Qed.

Lemma core_handle_popups p : keeps_core (_handle_popups E p).
Proof. unfold _handle_popups. keep_with ltac:(apply core_click_visible). Qed.

Lemma core_check_compliance_gate p :
  keeps_core (_check_compliance_gate E profile p).
Proof. unfold _check_compliance_gate. keep_auto. Qed.

Lemma core_read_anchors links : keeps_core (read_anchors E links).
Proof.
  induction links as [|l rest IH]; simpl; [keep_auto|].
  keep_with ltac:(exact IH).
Qed.

Lemma total_save_screenshot p name :
  total (save_screenshot E SCREENSHOT_DIR p name).
Proof. unfold save_screenshot. total_auto. Qed.

Lemma total_handle_cookies_loop p texts : total (_handle_cookies_loop E p texts).
Proof.
  induction texts as [|t rest IH]; simpl; [total_auto|].
  apply total_bind; [total_auto|]. intros [|]; [total_auto | exact IH].
Qed.

Lemma total_click_visible p sels : total (click_visible E p sels).
Proof.
  induction sels as [|sel rest IH]; simpl; [total_auto|].
  apply total_bind; [total_auto|]. intros _. exact IH.
Qed.

Lemma pkg_total_handle_cookies p : total (_handle_cookies E p).
Proof.
  unfold _handle_cookies. apply total_bind; [total_auto|]. intros _.
  apply total_handle_cookies_loop.
Qed.

Lemma total_handle_popups p : total (_handle_popups E p).
Proof.
  unfold _handle_popups. apply total_bind; [total_auto|]. intros _.
  apply total_bind; [apply total_click_visible|]. intros _.
  apply total_click_visible.
Qed.

Lemma total_read_anchors links : total (read_anchors E links).
Proof.
  induction links as [|l rest IH]; simpl; [total_auto|].
  apply total_bind; [total_auto|]. intros a.
  apply total_bind; [exact IH|]. intros more. total_auto.
Qed.

Lemma finds_save_download (d : DownloadId) (institution : string) :
  may_find is_true (_save_download E DOWNLOAD_DIR os_bound d institution).
Proof.
  intros st Hp. unfold _save_download, try_catch.
  rewrite run_bind. cbn [observe]. rewrite run_bind.
  unfold harvester_os_path_join at 1. destruct os_bound.
  2:{ do 2 eexists. split; [reflexivity | exact Hp]. }
  cbn [ret]. rewrite run_bind. unfold call at 1.
  match goal with |- context [save_as E d ?f ?w] =>
    destruct (save_as E d f w) as [[[]|e] w1] end.
  2:{ do 2 eexists. split; [reflexivity | exact Hp]. }
  do 2 eexists. split; [reflexivity|]. split; [reflexivity|].
  apply os_path_join_nonempty, sanitize_filename_nonempty.
Qed.

Lemma finds_try_elements p institution elements :
  may_find is_some_true
    (try_elements E DOWNLOAD_DIR os_bound p institution elements).
Proof.
  induction elements as [|el rest IH]; intros st Hp; simpl.
  - do 2 eexists. split; [reflexivity | exact Hp].
  - rewrite run_bind. unfold call at 1.
    destruct (elem_is_visible E el (world st)) as [[v|e] w1].
    2:{ do 2 eexists. split; [reflexivity | exact Hp]. }
    destruct v; cbn [negb]; [|apply IH; exact Hp].
    rewrite run_bind. unfold call at 1. cbn [world trace obj].
    destruct (expect_download E p 5000%N w1) as [[[]|e] w2].
    2:{ do 2 eexists. split; [reflexivity | exact Hp]. }
    rewrite run_bind. unfold call at 1. cbn [world trace obj].
    destruct (elem_click E el w2) as [[[]|e] w3].
    2:{ do 2 eexists. split; [reflexivity | exact Hp]. }
    rewrite run_bind. unfold call at 1. cbn [world trace obj].
    destruct (download_value E p w3) as [[d|e] w4].
    2:{ do 2 eexists. split; [reflexivity | exact Hp]. }
    rewrite run_bind.
    match goal with |- context [_save_download E _ _ d institution ?s] =>
      destruct (finds_save_download d institution s Hp) as (o & s5 & H5 & Hres) end.
    rewrite H5. destruct o as [[|]|e]; do 2 eexists; (split; [reflexivity | exact Hres]).
Qed.

Lemma finds_try_keywords p institution keywords :
  may_find is_true (try_keywords E DOWNLOAD_DIR os_bound p institution keywords)
  /\ total (try_keywords E DOWNLOAD_DIR os_bound p institution keywords).
Proof.
  induction keywords as [|k rest [IH IHt]]; simpl.
  - split; [|apply total_ret].
    intros st Hp. do 2 eexists. split; [reflexivity | exact Hp].
  - split.
    + intros st Hp. rewrite run_bind. unfold try_catch at 1.
      rewrite run_bind. unfold call at 1.
      destruct (locator_all E p (text_selector k) (world st)) as [[els|e] w1].
      2:{ apply IH. exact Hp. }
      match goal with |- context [try_elements E _ _ p institution els ?s] =>
        destruct (finds_try_elements p institution els s Hp) as (o & s2 & H2 & Hres) end.
      rewrite H2. destruct o as [[[|]|]|e].
      * do 2 eexists. split; [reflexivity | exact Hres].
      * do 2 eexists. split; [reflexivity | exact Hres].
      * apply IH. exact Hres.
      * apply IH. exact Hres.
    + apply total_bind; [total_auto|]. intros [b|]; [total_auto | exact IHt].
Qed.

Lemma finds_try_download_buttons p institution :
  may_find is_true (_try_download_buttons E DOWNLOAD_DIR os_bound p institution)
  /\ total (_try_download_buttons E DOWNLOAD_DIR os_bound p institution).
Proof.
  unfold _try_download_buttons. split.
  - intros st Hp. rewrite run_bind. cbn [enter].
    apply (proj1 (finds_try_keywords p institution _)). exact Hp.
  - apply total_bind; [total_auto|]. intros _. apply finds_try_keywords.
Qed.

Lemma finds_try_candidates p institution top :
  may_find is_true (try_candidates E DOWNLOAD_DIR os_bound p institution top)
  /\ total (try_candidates E DOWNLOAD_DIR os_bound p institution top).
Proof.
  induction top as [|[score href] rest [IH IHt]]; simpl.
  - split; [|apply total_ret].
    intros st Hp. do 2 eexists. split; [reflexivity | exact Hp].
  - split.
    2:{ apply total_bind; [total_auto|]. intros [b|]; [total_auto | exact IHt]. }
    intros st Hp. rewrite run_bind. unfold try_catch at 1.
    rewrite run_bind.
    assert (Hdirect : forall s, pending (obj s) ->
              exists o s',
                (try_catch
                   (bind (call (EvExpectDownload p) (expect_download E p 10000%N))
                      (fun _ =>
                         bind (call (EvGoto p href) (goto E p href))
                           (fun _ =>
                              bind (call (EvDownloadValue p) (download_value E p))
                                (fun download =>
                                   bind (_save_download E DOWNLOAD_DIR os_bound download institution)
                                     (fun b => ret (Some b))))))
                   (fun _ => ret None)) s = (Ok o, s')
                /\ if is_some_true o then done (obj s') else pending (obj s')).
    { intros s Hs. unfold try_catch.
      rewrite run_bind. unfold call at 1.
      destruct (expect_download E p 10000%N (world s)) as [[[]|e] w1].
      2:{ do 2 eexists. split; [reflexivity | exact Hs]. }
      rewrite run_bind. unfold call at 1. cbn [world trace obj].
      destruct (goto E p href w1) as [[r|e] w2].
      2:{ do 2 eexists. split; [reflexivity | exact Hs]. }
      rewrite run_bind. unfold call at 1. cbn [world trace obj].
      destruct (download_value E p w2) as [[d|e] w3].
      2:{ do 2 eexists. split; [reflexivity | exact Hs]. }
      rewrite run_bind.
      match goal with |- context [_save_download E _ _ d institution ?s0] =>
        destruct (finds_save_download d institution s0 Hs) as (o & s5 & H5 & Hres) end.
      rewrite H5. destruct o as [[|]|e]; do 2 eexists; (split; [reflexivity | exact Hres]). }
    assert (Hfirst : exists o s1,
              (if endswith ".pdf" (lower href)
               then try_catch
                      (bind (call (EvExpectDownload p) (expect_download E p 10000%N))
                         (fun _ =>
                            bind (call (EvGoto p href) (goto E p href))
                              (fun _ =>
                                 bind (call (EvDownloadValue p) (download_value E p))
                                   (fun download =>
                                      bind (_save_download E DOWNLOAD_DIR os_bound download institution)
                                        (fun b => ret (Some b))))))
                      (fun _ => ret None)
               else ret None) st = (Ok o, s1)
              /\ if is_some_true o then done (obj s1) else pending (obj s1)).
    { destruct (endswith ".pdf" (lower href)); [now apply Hdirect|].
      do 2 eexists. split; [reflexivity | exact Hp]. }
    destruct Hfirst as (o & s1 & H1 & Hres1). rewrite H1.
    destruct o as [[|]|].
    + do 2 eexists. split; [reflexivity | exact Hres1].
    + do 2 eexists. split; [reflexivity | exact Hres1].
    + rewrite run_bind. unfold call at 1.
      destruct (goto E p href (world s1)) as [[r|e] w2].
      2:{ apply IH. exact Hres1. }
      rewrite run_bind.
      match goal with |- context [_try_download_buttons E _ _ p institution ?s0] =>
        destruct (proj1 (finds_try_download_buttons p institution) s0 Hres1)
          as (o & s3 & H3 & Hres3);
        destruct (total_run _ s0 (proj2 (finds_try_download_buttons p institution)))
          as (b & s3' & H3') end.
      rewrite H3' in H3. inversion H3; subst o s3'. rewrite H3'.
      destruct b.
      * do 2 eexists. split; [reflexivity | exact Hres3].
      * apply IH. exact Hres3.
Qed.

Lemma finds_try_fallback_links p institution :
  may_find is_true (_try_fallback_links E DOWNLOAD_DIR os_bound p institution).
Proof.
  intros st Hp. unfold _try_fallback_links.
  rewrite run_bind. unfold call at 1.
  destruct (locator_all E p "a" (world st)) as [[links|e] w1].
  2:{ do 2 eexists. split; [reflexivity | exact Hp]. }
  rewrite run_bind.
  match goal with |- context [read_anchors E links ?s0] =>
    destruct (total_run _ s0 (total_read_anchors links)) as (anchors & s2 & H2);
    pose proof (steps_run _ _ _ _ _ (core_read_anchors links) H2) as Hc2 end.
  rewrite H2.
  apply (proj1 (finds_try_candidates p institution _)).
  eapply dict_pending_core; [exact Hc2 | exact Hp].
Qed.

(** What the scan leaves: a well-formed dictionary when it returns, an
    unfinished one when it raises. *)
Definition settled (o : outcome unit) (r : ResultDict) : Prop :=
  match o with
  | Ok _ => dict_well_formed r
  | Raise _ => pending r
  end.

Lemma dict_screenshot_settles page name (st : St E ResultDict) :
  In (status (obj st)) ["manual_required"; "not_found"; "error"] ->
  file_path (obj st) = EmptyString ->
  exists st',
    bind (save_screenshot E SCREENSHOT_DIR page name) (fun _ => ret tt) st
    = (Ok tt, st')
    /\ dict_well_formed (obj st').
Proof.
  intros Hs Hf. rewrite run_bind.
  destruct (total_run _ st (total_save_screenshot page name)) as (o & s1 & H1).
  pose proof (steps_run _ _ _ _ _ (core_save_screenshot page name) H1) as Hc.
  rewrite H1. eexists. split; [reflexivity|]. cbn [obj].
  unfold keeping, core in Hc. inversion Hc as [[Hst Hfp]].
  apply dict_pending_well_formed; congruence.
Qed.

Lemma after_gate_check_settles page institution gate_status (st : St E ResultDict) :
  pending (obj st) ->
  exists o st',
    after_gate_check E DOWNLOAD_DIR SCREENSHOT_DIR os_bound page institution
      gate_status st = (o, st')
    /\ settled o (obj st').
Proof.
  intros Hp. unfold after_gate_check.
  destruct (String.eqb gate_status "manual_required").
  { do 2 (rewrite run_bind; cbn [modify]).
    match goal with |- context [bind ?m ?k ?s] =>
      destruct (dict_screenshot_settles page (institution ++ "_manual_required") s)
        as (s' & Hrun & Hwf) end;
      [now left | apply Hp |].
    rewrite Hrun. do 2 eexists. split; [reflexivity | exact Hwf]. }
  rewrite run_bind.
  assert (Hsecond : exists b s1,
            (if String.eqb gate_status "gate_passed"
             then _try_download_buttons E DOWNLOAD_DIR os_bound page institution
             else ret false) st = (Ok b, s1)
            /\ if b then done (obj s1) else pending (obj s1)).
  { destruct (String.eqb gate_status "gate_passed").
    - destruct (proj1 (finds_try_download_buttons page institution) st Hp)
        as (o & s1 & H1 & Hres).
      destruct (total_run _ st (proj2 (finds_try_download_buttons page institution)))
        as (b & s1' & H1').
      rewrite H1' in H1. inversion H1; subst o s1'.
      exists b, s1. split; [exact H1' | exact Hres].
    - exists false, st. split; [reflexivity | exact Hp]. }
  destruct Hsecond as (b & s1 & H1 & Hres1). rewrite H1. destruct b.
  { do 2 eexists. split; [reflexivity|]. now apply dict_done_well_formed. }
  rewrite run_bind.
  destruct (finds_try_fallback_links page institution s1 Hres1)
    as (o & s2 & H2 & Hres2).
  rewrite H2. destruct o as [[|]|e].
  - do 2 eexists. split; [reflexivity|]. now apply dict_done_well_formed.
  - do 2 (rewrite run_bind; cbn [modify]).
    match goal with |- context [bind ?m ?k ?s] =>
      destruct (dict_screenshot_settles page (institution ++ "_not_found") s)
        as (s' & Hrun & Hwf) end;
      [right; now left | apply Hres2 |].
    rewrite Hrun. do 2 eexists. split; [reflexivity | exact Hwf].
  - do 2 eexists. split; [reflexivity | exact Hres2].
Qed.

Lemma scan_page_settles page institution (st : St E ResultDict) :
  pending (obj st) ->
  exists o st',
    scan_page E profile DOWNLOAD_DIR SCREENSHOT_DIR os_bound page institution st
    = (o, st')
    /\ settled o (obj st').
Proof.
  intros Hp. unfold scan_page, before_gate.
  rewrite run_bind, run_bind.
  destruct (total_run _ st (pkg_total_handle_cookies page)) as ([] & s1 & H1).
  pose proof (steps_run _ _ _ _ _ (pkg_core_handle_cookies page) H1) as Hc1.
  rewrite H1. rewrite run_bind.
  destruct (total_run _ s1 (total_handle_popups page)) as ([] & s2 & H2).
  pose proof (steps_run _ _ _ _ _ (core_handle_popups page) H2) as Hc2.
  rewrite H2.
  assert (Hp2 : pending (obj s2)).
  { eapply dict_pending_core; [exact Hc2|]. eapply dict_pending_core; eassumption. }
  destruct (proj1 (finds_try_download_buttons page institution) s2 Hp2)
    as (o & s3 & H3 & Hres3).
  destruct (total_run _ s2 (proj2 (finds_try_download_buttons page institution)))
    as (b & s3' & H3').
  rewrite H3' in H3. inversion H3; subst o s3'. rewrite H3'. destruct b.
  { do 2 eexists. split; [reflexivity|]. now apply dict_done_well_formed. }
  rewrite run_bind.
  destruct (_check_compliance_gate E profile page s3) as [[gate_status|e] s4] eqn:H4;
    pose proof (steps_run _ _ _ _ _ (core_check_compliance_gate page) H4) as Hc4;
    assert (Hp4 : pending (obj s4)) by (eapply dict_pending_core; eassumption).
  - now apply after_gate_check_settles.
  - do 2 eexists. split; [reflexivity | exact Hp4].
Qed.

End Facts.
End Pkg.

End ResultInvariant.

(** ** The gate resolver in the order of a task (claim C1) *)

Module GateOrder.
Import PyStr Browser Runs Rules PdfFacts Stated.
Local Open Scope list_scope.

(** *** Facts on traces *)

Lemma calm_no_attempt (evs pre post : list Event) (e : Event) :
  forallb calm evs = true -> evs = pre ++ e :: post ->
  is_download_attempt e = true -> False.
Proof.
  intros Hc -> He. rewrite forallb_app in Hc. simpl in Hc.
  unfold calm at 2 in Hc. rewrite He in Hc. simpl in Hc.
  now rewrite andb_false_r in Hc.
Qed.

(** Behind a calm prefix and the entry into the gate resolver, any download
    attempt has that entry before it. *)
Lemma attempt_after_gate (pre0 rest pre post : list Event) (e : Event) :
  forallb calm pre0 = true ->
  pre0 ++ EvEnter CGate :: rest = pre ++ e :: post ->
  is_download_attempt e = true ->
  exists b, pre = pre0 ++ EvEnter CGate :: b.
Proof.
  revert pre. induction pre0 as [|x p0 IH]; intros pre Hc Heq He; simpl in *.
  - destruct pre as [|y pre']; simpl in Heq; inversion Heq; subst.
    + discriminate.
    + now exists pre'.
  - apply andb_prop in Hc as [Hx Hc].
    destruct pre as [|y pre']; simpl in Heq; inversion Heq; subst.
    + unfold calm in Hx. rewrite He in Hx. discriminate.
    + destruct (IH pre' Hc H1 He) as [b ->]. now exists b.
Qed.

Lemma calm_prefix_ordered (pre0 rest : list Event) :
  forallb calm pre0 = true ->
  In (EvEnter CCookies) pre0 -> In (EvEnter CModals) pre0 ->
  gate_before_downloads (pre0 ++ EvEnter CGate :: rest).
Proof.
  intros Hc Hcook Hmod pre e post Heq He.
  destruct (attempt_after_gate pre0 rest pre post e Hc Heq He) as [b ->].
  now exists pre0, b.
Qed.

Lemma calm_ordered (evs : list Event) :
  forallb calm evs = true -> gate_before_downloads evs.
Proof.
  intros Hc pre e post Heq He. exfalso.
  eapply calm_no_attempt; eassumption.
Qed.

(** *** The trace of [harvest_one] *)

Section Pdf.
Import PdfHarvester.
Variable E : Engine.
Variable profile : string.

Local Abbreviation grows_only m := (steps (E:=E) (R:=HarvestResult) (emitting any_event) m).

Lemma grows_try_hints p inst hints : grows_only (try_hints E p inst hints).
Proof.
  induction hints as [|h rest IH]; simpl; [emit_auto|].
  unfold try_hint.
  emit_with ltac:(first [exact IH | apply (grows calm), calm_click_by_text]).
Qed.

Lemma grows_try_download_event p inst : grows_only (try_download_event E p inst).
Proof. unfold try_download_event. emit_with ltac:(apply grows_try_hints). Qed.

Lemma grows_follow_pdf_url q inst url :
  grows_only url -> grows_only (follow_pdf_url E q inst url).
Proof.
  intros Hurl. unfold follow_pdf_url, mark_downloaded.
  emit_with ltac:(first [exact Hurl | apply grows_try_download_event]).
Qed.

Lemma grows_visit_candidate p2 inst cand :
  grows_only (visit_candidate E profile p2 inst cand).
Proof.
  unfold visit_candidate, mark_downloaded.
  emit_with
    ltac:(first [ apply (grows calm), calm_handle_cookies
                | apply (grows calm), calm_close_modals
                | apply (grows calm), calm_resolve_gate
                | apply grows_try_download_event
                | apply grows_follow_pdf_url; unfold last_pdf_url ]).
Qed.

Lemma grows_crawl inst candidates : grows_only (crawl E profile inst candidates).
Proof.
  induction candidates as [|c rest IH]; simpl; [emit_auto|].
  emit_with ltac:(first [exact IH | apply grows_visit_candidate]).
Qed.

Lemma grows_after_gate page inst g : grows_only (after_gate E profile page inst g).
Proof.
  unfold after_gate, click_then_crawl, mark_downloaded, collect_candidate_links,
    last_pdf_url.
  emit_with
    ltac:(first [ apply grows_try_download_event | apply grows_crawl
                | apply grows_follow_pdf_url ]).
Qed.

(** The cookie handler, the modal handler and the gate resolver each open
    with their entry in the trace and add calm entries only. *)
Lemma enters_then_calm {A} (c : Component) (k : M (E:=E) (R:=HarvestResult) A)
      (st : St E HarvestResult) :
  calm (EvEnter c) = true ->
  steps (emitting calm) k ->
  exists evs,
    trace (snd (bind (enter c) (fun _ => k) st)) = trace st ++ EvEnter c :: evs
    /\ forallb calm evs = true.
Proof.
  intros Hc Hk. rewrite run_bind. cbn [enter].
  destruct (Hk (mkSt (world st) (trace st ++ [EvEnter c]) (obj st)))
    as (evs & Ht & Hf).
  exists evs. split; [|exact Hf]. rewrite Ht. cbn [trace].
  now rewrite <- app_assoc.
Qed.

Lemma handle_cookies_enters p (st : St E HarvestResult) :
  exists evs,
    trace (snd (handle_cookies E p st)) = trace st ++ EvEnter CCookies :: evs
    /\ forallb calm evs = true.
Proof.
  apply enters_then_calm; [reflexivity|].
  emit_with ltac:(apply calm_click_by_text).
Qed.

Lemma close_modals_enters p (st : St E HarvestResult) :
  exists evs,
    trace (snd (close_modals E p st)) = trace st ++ EvEnter CModals :: evs
    /\ forallb calm evs = true.
Proof.
  apply enters_then_calm; [reflexivity|].
  emit_with ltac:(first [apply calm_click_by_text | apply calm_close_icons]).
Qed.

Lemma resolve_gate_enters p (st : St E HarvestResult) :
  exists evs,
    trace (snd (resolve_gate E profile p st)) = trace st ++ EvEnter CGate :: evs
    /\ forallb calm evs = true.
Proof.
  apply enters_then_calm; [reflexivity|].
  unfold detect_gate.
  emit_with
    ltac:(first [ apply calm_body_text | apply calm_click_by_text
                | apply calm_handle_cookies | apply calm_close_modals ]).
Qed.

(** When the page has loaded, the obstacle clearing has entered both
    handlers and left a calm trace. *)
Lemma open_and_clear_enters page url (st st1 : St E HarvestResult) :
  open_and_clear E page url st = (Ok tt, st1) ->
  exists evs,
    trace st1 = trace st ++ evs
    /\ forallb calm evs = true
    /\ In (EvEnter CCookies) evs /\ In (EvEnter CModals) evs.
Proof.
  unfold open_and_clear. intros Hrun.
  rewrite run_bind in Hrun.
  destruct (call (EvGoto page url) (goto E page url) st) as [[r|e] s1] eqn:H1;
    [|discriminate].
  pose proof (steps_run _ _ _ _ _
                (emits_call calm (EvGoto page url) (goto E page url) eq_refl) H1)
    as (e1 & T1 & F1).
  rewrite run_bind in Hrun. cbn [call_total] in Hrun.
  rewrite run_bind in Hrun.
  match type of Hrun with context [handle_linkedin_interstitial E page ?s] =>
    set (s2 := s) in Hrun end.
  destruct (handle_linkedin_interstitial E page s2) as [[[]|e] s3] eqn:H3;
    [|discriminate].
  pose proof (steps_run _ _ _ _ _ (calm_handle_linkedin_interstitial E page) H3)
    as (e3 & T3 & F3).
  rewrite run_bind in Hrun.
  destruct (scroll_page E page s3) as [[[]|e] s4] eqn:H4; [|discriminate].
  pose proof (steps_run _ _ _ _ _ (calm_scroll_page E page) H4) as (e4 & T4 & F4).
  rewrite run_bind in Hrun.
  destruct (handle_cookies_enters page s4) as (e5 & T5 & F5).
  destruct (handle_cookies E page s4) as [[[]|e] s5]; [|discriminate].
  cbn [snd] in T5.
  destruct (close_modals_enters page s5) as (e6 & T6 & F6).
  rewrite Hrun in T6. cbn [snd] in T6.
  exists (e1 ++ [EvSleep 1000%N] ++ e3 ++ e4
          ++ (EvEnter CCookies :: e5) ++ (EvEnter CModals :: e6)).
  split; [|split; [|split]].
  - rewrite T6, T5, T4, T3. subst s2. cbn [trace]. rewrite T1.
    now rewrite <- !app_assoc.
  - rewrite !forallb_app. cbn [forallb]. now rewrite F1, F3, F4, F5, F6.
  - apply in_or_app. right. apply in_or_app. right. apply in_or_app. right.
    apply in_or_app. right. apply in_or_app. left. now left.
  - apply in_or_app. right. apply in_or_app. right. apply in_or_app. right.
    apply in_or_app. right. apply in_or_app. right. now left.
Qed.

(** The [try] of [harvest_one] around a body: the error clause runs when
    the body raises, and the page is closed in both cases. *)
Lemma guard_run page inst (body : M (E:=E) (R:=HarvestResult) unit)
      (st s1 : St E HarvestResult) (o : outcome unit) :
  body st = (o, s1) ->
  exists s',
    finally (try_catch body (on_error E page inst)) (closing page) st
    = (Ok tt, closing page s')
    /\ emitting calm s1 s'
    /\ match o with
       | Ok _ => s' = s1
       | Raise e => on_error E page inst e s1 = (Ok tt, s')
       end.
Proof.
  intros Hb. unfold finally, try_catch. rewrite Hb. destruct o as [[]|e].
  - exists s1. split; [reflexivity|]. split; [apply emitting_refl | reflexivity].
  - destruct (total_run _ s1 (total_on_error E page inst e)) as ([] & s' & Hrun).
    rewrite Hrun. exists s'. split; [reflexivity|]. split; [|reflexivity].
    exact (steps_run _ _ _ _ _ (calm_on_error E page inst e) Hrun).
Qed.

(** [harvest_one] from the state in which its page has been opened. *)
Lemma harvest_one_run inst url (st : St E HarvestResult) page w0 :
  new_page E (world st) = (page, w0) ->
  forall o sb,
    bind (open_and_clear E page url)
         (fun _ => bind (resolve_gate E profile page)
                        (fun g => after_gate E profile page inst g))
         (mkSt w0 (trace st ++ [EvNewPage page]) (new_result inst url))
    = (o, sb) ->
    exists s',
      harvest_one E profile inst url st = (Ok (obj s'), closing page s')
      /\ emitting calm sb s'
      /\ match o with
         | Ok _ => s' = sb
         | Raise e => on_error E page inst e sb = (Ok tt, s')
         end.
Proof.
  intros Hnew o sb Hbody. unfold harvest_one.
  rewrite run_bind. cbn [modify].
  rewrite run_bind. unfold open_page at 1. cbn [world trace obj].
  rewrite Hnew. cbv beta iota. rewrite run_bind.
  destruct (guard_run page inst _ _ _ _ Hbody) as (s' & Hrun & Hcalm & Ho).
  rewrite Hrun. exists s'. split; [reflexivity|]. split; assumption.
Qed.

(** In every run of [harvest_one], whatever download attempt is made comes
    after the entry into the gate resolver, which comes after the entries
    into the cookie and modal handlers. *)
Lemma harvest_one_ordered inst url (st : St E HarvestResult) :
  exists evs,
    trace (snd (harvest_one E profile inst url st)) = trace st ++ evs
    /\ gate_before_downloads evs.
Proof.
  destruct (new_page E (world st)) as [page w0] eqn:Hnew.
  set (s0 := mkSt w0 (trace st ++ [EvNewPage page]) (new_result inst url)).
  destruct (open_and_clear E page url s0) as [[[]|e] s1] eqn:H1.
  2:{ pose proof (steps_run _ _ _ _ _ (calm_open_and_clear E page url) H1)
        as (e1 & T1 & F1).
      destruct (harvest_one_run inst url st page w0 Hnew (Raise e) s1)
        as (s' & Hrun & (ev & Ht & Hf) & _).
      { fold s0. now apply run_bind_raise. }
      rewrite Hrun. cbn [snd closing trace].
      exists ([EvNewPage page] ++ e1 ++ ev ++ [EvClose page]). split.
      - rewrite Ht, T1. subst s0. cbn [trace]. now rewrite <- !app_assoc.
      - apply calm_ordered. rewrite !forallb_app, F1, Hf. reflexivity. }
  destruct (open_and_clear_enters page url s0 s1 H1) as (e1 & T1 & F1 & Hcook & Hmod).
  destruct (total_run _ s1 (total_resolve_gate E profile page)) as (g & s2 & H2).
  destruct (resolve_gate_enters page s1) as (e2 & T2 & _).
  rewrite H2 in T2. cbn [snd] in T2.
  destruct (after_gate E profile page inst g s2) as [o s3] eqn:H3.
  pose proof (steps_run _ _ _ _ _ (grows_after_gate page inst g) H3) as (e3 & T3 & _).
  destruct (harvest_one_run inst url st page w0 Hnew o s3)
    as (s' & Hrun & (ev & Ht & _) & _).
  { fold s0. erewrite run_bind_ok; [|exact H1].
    erewrite run_bind_ok; [|exact H2]. exact H3. }
  rewrite Hrun. cbn [snd closing trace].
  exists (([EvNewPage page] ++ e1) ++ EvEnter CGate :: (e2 ++ e3 ++ ev ++ [EvClose page])).
  split.
  - rewrite Ht, T3, T2, T1. subst s0. cbn [trace].
    repeat (rewrite <- app_assoc; cbn [app]). reflexivity.
  - apply calm_prefix_ordered.
    + rewrite forallb_app, F1. reflexivity.
    + apply in_or_app. now right.
    + apply in_or_app. now right.
Qed.

(** When the gate resolver, run on the start page after the obstacles are
    cleared, reports manual required: no download attempt is made in the
    task, the screenshot is requested, and the status is manual_required if
    the screenshot call returns and error if it raises. *)
Lemma harvest_one_manual inst url (st : St E HarvestResult) page w0 st1 note st2 :
  new_page E (world st) = (page, w0) ->
  open_and_clear E page url
    (mkSt w0 (trace st ++ [EvNewPage page]) (new_result inst url))
  = (Ok tt, st1) ->
  resolve_gate E profile page st1 = (Ok (false, note), st2) ->
  exists r st',
    harvest_one E profile inst url st = (Ok r, st')
    /\ (exists evs, trace st' = trace st ++ evs
                    /\ forallb calm evs = true
                    /\ In (EvScreenshot page (screenshot_path inst "manual_required")) evs)
    /\ file_path r = None
    /\ match fst (screenshot E page (screenshot_path inst "manual_required") (world st2)) with
       | Ok _ => status r = "manual_required" /\ notes r = Some note
       | Raise _ => status r = "error"
       end.
Proof.
  intros Hnew H1 H2.
  pose proof (steps_run _ _ _ _ _ (calm_open_and_clear E page url) H1) as (e1 & T1 & F1).
  pose proof (steps_run _ _ _ _ _ (calm_resolve_gate E profile page) H2) as (e2 & T2 & F2).
  pose proof (steps_run _ _ _ _ _ (ResultInvariant.Pdf.core_open_and_clear E page url) H1) as C1.
  pose proof (steps_run _ _ _ _ _ (ResultInvariant.Pdf.core_resolve_gate E profile page) H2) as C2.
  assert (Hfp : file_path (obj st2) = None).
  { unfold keeping, ResultInvariant.Pdf.core in C1, C2. cbn [obj] in C1.
    inversion C1. inversion C2. congruence. }
  set (shot := screenshot_path inst "manual_required") in *.
  destruct (after_gate E profile page inst (false, note) st2) as [o s3] eqn:H3.
  destruct (harvest_one_run inst url st page w0 Hnew o s3)
    as (s' & Hrun & (ev & Ht & Hf) & Ho).
  { erewrite run_bind_ok; [|exact H1]. erewrite run_bind_ok; [|exact H2]. exact H3. }
  rewrite Hrun. exists (obj s'), (closing page s').
  split; [reflexivity|].
  revert H3. unfold after_gate. cbn [negb].
  do 4 (rewrite run_bind; cbn [observe modify]). unfold call.
  cbn [world trace obj]. fold shot.
  destruct (screenshot E page shot (world st2)) as [[[]|e] w3]; intros H3;
    inversion H3; subst o s3; clear H3; cbn [fst].
  - subst s'. cbn [closing trace obj].
    split; [|split; [exact Hfp | split; reflexivity]].
    exists ([EvNewPage page] ++ e1 ++ e2 ++ [EvScreenshot page shot; EvClose page]).
    split; [|split].
    + rewrite T2, T1. cbn [trace]. now rewrite <- !app_assoc.
    + rewrite !forallb_app, F1, F2. reflexivity.
    + apply in_or_app. right. apply in_or_app. right. apply in_or_app. right. now left.
  - cbn [trace] in Ht.
    pose proof (steps_run _ _ _ _ _
                  (ResultInvariant.Pdf.core_on_error_path E page inst e) Ho) as [Hst Hpath].
    split; [|split; [|exact Hst]].
    + exists ([EvNewPage page] ++ e1 ++ e2 ++ [EvScreenshot page shot] ++ ev ++ [EvClose page]).
      split; [|split].
      * cbn [closing trace]. rewrite Ht, T2, T1. cbn [trace]. now rewrite <- !app_assoc.
      * rewrite !forallb_app, F1, F2, Hf. reflexivity.
      * apply in_or_app. right. apply in_or_app. right. apply in_or_app. right.
        apply in_or_app. left. now left.
    + cbn [closing obj]. rewrite Hpath. exact Hfp.
Qed.

End Pdf.

(** *** The trace of [process_url] *)

Section Pkg.
Import Harvester.
Variable E : Engine.
Variables profile DOWNLOAD_DIR SCREENSHOT_DIR : string.
Variable os_bound : bool.

(** When [_check_compliance_gate] answers manual_required, [process_url]
    sets the status, requests the screenshot, closes the page and returns:
    after the gate check the trace holds these two entries and nothing
    else. *)
Lemma process_url_manual institution url (st : St E ResultDict)
      page w0 response st_l st_b st_g :
  new_page E (world st) = (page, w0) ->
  load_page E SCREENSHOT_DIR page institution url
    (mkSt w0 (trace st ++ [EvNewPage page])
          (mkDict url EmptyString "error" EmptyString EmptyString))
  = (Ok (Some response), st_l) ->
  _is_pdf_response response = false ->
  before_gate E DOWNLOAD_DIR os_bound page institution st_l = (Ok false, st_b) ->
  _check_compliance_gate E profile page st_b = (Ok "manual_required", st_g) ->
  exists r st',
    process_url E profile DOWNLOAD_DIR SCREENSHOT_DIR os_bound institution url st
    = (Ok (RetResult r), st')
    /\ status r = "manual_required"
    /\ notes r = "Compliance gate detected, manual intervention required."
    /\ file_path r = file_path (obj st_g)
    /\ trace st'
       = trace st_g
         ++ [EvScreenshot page
               (os_path_join SCREENSHOT_DIR
                  ((institution ++ "_manual_required") ++ "_"
                   ++ now_stamp E (world st_g) ++ ".png")%string);
             EvClose page].
Proof.
  intros Hnew Hload Hpdf Hbefore Hgate. unfold process_url.
  rewrite run_bind. unfold open_page at 1. rewrite Hnew. cbv beta iota.
  rewrite run_bind. cbn [modify world trace obj].
  unfold finally, try_catch at 1.
  erewrite run_bind_ok; [|exact Hload]. cbv beta iota. rewrite Hpdf.
  erewrite run_bind_ok.
  2:{ unfold scan_page. erewrite run_bind_ok; [|exact Hbefore]. cbv beta iota.
      erewrite run_bind_ok; [|exact Hgate].
      unfold after_gate_check. cbn [String.eqb Ascii.eqb Bool.eqb].
      do 2 (rewrite run_bind; cbn [modify]).
      unfold save_screenshot. rewrite run_bind, run_bind. cbn [observe world].
      unfold try_catch, call. rewrite run_bind. cbn [world trace obj].
      match goal with |- context [screenshot E page ?f (world st_g)] =>
        instantiate (1 := mkSt (snd (screenshot E page f (world st_g)))
                               (trace st_g ++ [EvScreenshot page f])
                               (set_notes "Compliance gate detected, manual intervention required."
                                  (set_status "manual_required" (obj st_g))));
        destruct (screenshot E page f (world st_g)) as [[[]|e] w] end;
        reflexivity. }
  cbn [get_obj ret bind]. cbv beta iota. do 2 eexists.
  split; [reflexivity|]. cbn [closing trace obj].
  split; [reflexivity|]. split; [reflexivity|]. split; [reflexivity|].
  now rewrite <- app_assoc.
Qed.

End Pkg.

(** A page that shows a certification text and one visible element for the
    phrase download pdf, whose click starts a download. *)
Definition gated_download_page : Fake.FakeWorld :=
  Fake.page_with "I certify that I am a professional investor"
                 [] [("text=/download pdf/i", true)] [].

(** A page that shows the certification text and nothing to click. *)
Definition gated_page : Fake.FakeWorld :=
  Fake.page_with "I certify that I am a professional investor" [] [] [].

Definition blank_dict : Harvester.ResultDict :=
  Harvester.mkDict EmptyString EmptyString EmptyString EmptyString EmptyString.



(** The states a task passes through on the page of [Fake.gate_engine], up
    to the answer of the gate resolver. *)
Definition pdf_start : St Fake.gate_engine PdfHarvester.HarvestResult :=
  mkSt (tt : World Fake.gate_engine) []
       (PdfHarvester.new_result EmptyString EmptyString).

Definition pdf_cleared : St Fake.gate_engine PdfHarvester.HarvestResult :=
  Eval vm_compute in
    snd (PdfHarvester.open_and_clear Fake.gate_engine 0 "https://example.org/outlook"
           (mkSt (tt : World Fake.gate_engine) [EvNewPage 0]
                 (PdfHarvester.new_result "Acme" "https://example.org/outlook"))).

Definition pdf_gated : St Fake.gate_engine PdfHarvester.HarvestResult :=
  Eval vm_compute in
    snd (PdfHarvester.resolve_gate Fake.gate_engine "unknown" 0 pdf_cleared).

Definition pkg_start : St Fake.gate_engine Harvester.ResultDict :=
  mkSt (tt : World Fake.gate_engine) [] blank_dict.

Definition pkg_loaded : St Fake.gate_engine Harvester.ResultDict :=
  Eval vm_compute in
    snd (Harvester.load_page Fake.gate_engine "/srv/shots" 0 "Acme"
           "https://example.org/outlook"
           (mkSt (tt : World Fake.gate_engine) [EvNewPage 0]
                 (Harvester.mkDict "https://example.org/outlook" EmptyString "error"
                                   EmptyString EmptyString))).

Definition pkg_scanned : St Fake.gate_engine Harvester.ResultDict :=
  Eval vm_compute in
    snd (Harvester.before_gate Fake.gate_engine "/srv/downloads"
           Harvester.source_os_bound 0 "Acme" pkg_loaded).

Definition pkg_gated : St Fake.gate_engine Harvester.ResultDict :=
  Eval vm_compute in
    snd (Harvester._check_compliance_gate Fake.gate_engine "unknown" 0 pkg_scanned).


End GateOrder.

(** * Further properties of the code *)

(** ** The shape of slugs *)

Module SlugShape.
Import PyStr Stated StrFacts.

Lemma of_list_app (a b : list ascii) :
  string_of_list_ascii (a ++ b)%list
  = string_of_list_ascii a ++ string_of_list_ascii b.
Proof. induction a as [|c a IH]; simpl; [reflexivity | now rewrite IH]. Qed.

Lemma to_list_app (a b : string) :
  list_ascii_of_string (a ++ b)
  = (list_ascii_of_string a ++ list_ascii_of_string b)%list.
Proof. induction a as [|c a IH]; simpl; [reflexivity | now rewrite IH]. Qed.

Lemma rev_app (a b : string) : rev (a ++ b) = rev b ++ rev a.
Proof. unfold rev. now rewrite to_list_app, rev_app_distr, of_list_app. Qed.

Lemma rev_rev (s : string) : rev (rev s) = s.
Proof.
  unfold rev. now rewrite list_ascii_of_string_of_list_ascii, rev_involutive,
    string_of_list_ascii_of_string.
Qed.

(** The first character of [s], if there is one, is not in [d]. *)
Definition head_free (d : ascii -> bool) (s : string) : bool :=
  match s with
  | EmptyString => true
  | String c _ => negb (d c)
  end.

Lemma lstrip_head (d : ascii -> bool) (s : string) :
  head_free d (lstrip d s) = true.
Proof.
  induction s as [|c s IH]; simpl; [reflexivity|].
  destruct (d c) eqn:Hd; [exact IH|]. simpl. now rewrite Hd.
Qed.

Lemma lstrip_id (d : ascii -> bool) (s : string) :
  head_free d s = true -> lstrip d s = s.
Proof.
  destruct s as [|c s]; simpl; [reflexivity|].
  destruct (d c); [discriminate | reflexivity].
Qed.

Lemma rstrip_id (d : ascii -> bool) (s : string) :
  head_free d (rev s) = true -> rstrip d s = s.
Proof. intros H. unfold rstrip. rewrite lstrip_id by exact H. apply rev_rev. Qed.

Lemma lstrip_suffix (d : ascii -> bool) (s : string) :
  exists pre, s = pre ++ lstrip d s.
Proof.
  induction s as [|c s [pre IH]]; simpl.
  - now exists EmptyString.
  - destruct (d c).
    + exists (String c pre). simpl. now rewrite <- IH.
    + now exists EmptyString.
Qed.

Lemma rstrip_prefix (d : ascii -> bool) (s : string) :
  exists t, s = rstrip d s ++ t.
Proof.
  destruct (lstrip_suffix d (rev s)) as [pre H]. exists (rev pre).
  apply (f_equal rev) in H. rewrite rev_rev, rev_app in H. exact H.
Qed.

Lemma head_free_prefix (d : ascii -> bool) (a b : string) :
  head_free d (a ++ b) = true -> head_free d a = true.
Proof. destruct a; simpl; auto. Qed.

(** No two characters [rep] in a row; [after_rep] tells whether the
    character before [s] was one. *)
Fixpoint no_run (rep : ascii) (after_rep : bool) (s : string) : bool :=
  match s with
  | EmptyString => true
  | String c s' =>
      if Ascii.eqb c rep then negb after_rep && no_run rep true s'
      else no_run rep false s'
  end.

Lemma no_run_weaken (rep : ascii) (a : bool) (s : string) :
  no_run rep a s = true -> no_run rep false s = true.
Proof.
  destruct s as [|c s]; simpl; [auto|].
  destruct (Ascii.eqb c rep); [|auto].
  intros H. apply andb_prop in H as [_ H]. exact H.
Qed.

Lemma no_run_suffix (rep : ascii) (pre s : string) :
  forall a, no_run rep a (pre ++ s) = true -> no_run rep false s = true.
Proof.
  induction pre as [|c pre IH]; intros a; simpl.
  - apply no_run_weaken.
  - destruct (Ascii.eqb c rep); [|apply IH].
    intros H. apply andb_prop in H as [_ H]. eapply IH, H.
Qed.

Lemma no_run_prefix (rep : ascii) (s t : string) :
  forall a, no_run rep a (s ++ t) = true -> no_run rep a s = true.
Proof.
  induction s as [|c s IH]; intros a; simpl; [auto|].
  destruct (Ascii.eqb c rep); [|apply IH].
  intros H. apply andb_prop in H as [Ha H]. rewrite Ha. simpl. eapply IH, H.
Qed.

Lemma sub_runs_no_run (keep : ascii -> bool) (rep : ascii) (s : string) :
  keep rep = false ->
  forall a, no_run rep a (sub_runs keep rep a s) = true.
Proof.
  intros Hrep. induction s as [|c s IH]; intros a; simpl; [reflexivity|].
  destruct (keep c) eqn:Hk.
  - simpl. destruct (Ascii.eqb_spec c rep) as [->|_]; [congruence | apply IH].
  - destruct a; [apply IH|]. simpl. rewrite Ascii.eqb_refl. simpl. apply IH.
Qed.

Lemma sub_runs_id (keep : ascii -> bool) (rep : ascii) (s : string) :
  keep rep = false ->
  forall a,
    all_chars (fun c => keep c || Ascii.eqb c rep) s = true ->
    no_run rep a s = true ->
    sub_runs keep rep a s = s.
Proof.
  intros Hrep. induction s as [|c s IH]; intros a; simpl; [reflexivity|].
  rewrite all_chars_cons. intros Hall Hrun.
  apply andb_prop in Hall as [Hc Hall].
  destruct (keep c) eqn:Hk.
  - destruct (Ascii.eqb_spec c rep) as [->|_]; [congruence|].
    f_equal. now apply IH.
  - simpl in Hc. rewrite Hc in Hrun. apply Ascii.eqb_eq in Hc. subst c.
    apply andb_prop in Hrun as [Ha Hrun]. destruct a; [discriminate|].
    f_equal. now apply IH.
Qed.

Lemma no_run_contains (rep : ascii) (s : string) :
  forall a, no_run rep a s = true ->
            contains (String rep (String rep EmptyString)) s = false.
Proof.
  induction s as [|c s IH]; intros a; [reflexivity|].
  cbn [contains startswith no_run]. intros H.
  rewrite (Ascii.eqb_sym rep c).
  destruct (Ascii.eqb c rep) eqn:Hc.
  - apply andb_prop in H as [_ H]. rewrite (IH _ H), orb_false_r.
    destruct s as [|x s]; [reflexivity|].
    cbn [no_run] in H. cbn [startswith]. rewrite (Ascii.eqb_sym rep x).
    destruct (Ascii.eqb x rep); [discriminate H | reflexivity].
  - simpl. eapply IH, H.
Qed.

Lemma endswith_split (suf s : string) :
  endswith suf s = true -> exists a, s = a ++ suf.
Proof.
  induction s as [|c s IH]; cbn [endswith]; intros H.
  - rewrite orb_false_r in H. apply String.eqb_eq in H. subst suf.
    now exists EmptyString.
  - apply orb_prop in H as [H|H].
    + apply String.eqb_eq in H. subst suf. now exists EmptyString.
    + destruct (IH H) as [a ->]. now exists (String c a).
Qed.

Definition is_underscore (c : ascii) : bool := Ascii.eqb c PdfUtil.underscore.

Lemma head_free_startswith (s : string) :
  head_free is_underscore s = true -> startswith "_" s = false.
Proof.
  destruct s as [|c s]; [reflexivity|]. cbn [head_free startswith].
  unfold is_underscore, PdfUtil.underscore. rewrite (Ascii.eqb_sym "_"%char c).
  destruct (Ascii.eqb c "_"%char); [discriminate | reflexivity].
Qed.

Lemma head_free_endswith (s : string) :
  head_free is_underscore (rev s) = true -> endswith "_" s = false.
Proof.
  intros H. destruct (endswith "_" s) eqn:He; [|reflexivity].
  apply endswith_split in He as [a ->]. rewrite rev_app in H. discriminate H.
Qed.

(** The three facts on the shape of a slug, in the form the stages of
    [slugify] use them. *)
Lemma slugify_inner (s : string) :
  head_free is_underscore (PdfUtil.slugify s) = true
  /\ head_free is_underscore (rev (PdfUtil.slugify s)) = true
  /\ no_run PdfUtil.underscore false (PdfUtil.slugify s) = true.
Proof.
  unfold PdfUtil.slugify.
  set (s2 := sub_runs PdfUtil.is_slug_char PdfUtil.underscore false _).
  set (s3 := sub_runs _ PdfUtil.underscore false s2).
  unfold strip. fold is_underscore. set (y := lstrip is_underscore s3).
  destruct (rstrip_prefix is_underscore y) as [t Ht].
  split; [|split].
  - eapply head_free_prefix. rewrite <- Ht. apply lstrip_head.
  - unfold rstrip. rewrite rev_rev. apply lstrip_head.
  - destruct (lstrip_suffix is_underscore s3) as [pre Hpre]. fold y in Hpre.
    assert (H3 : no_run PdfUtil.underscore false s3 = true).
    { apply sub_runs_no_run. reflexivity. }
    rewrite Hpre in H3. apply no_run_suffix in H3.
    rewrite Ht in H3. eapply no_run_prefix, H3.
Qed.

(** X1.  A slug never starts with an underscore, never ends with one and never
    holds two underscores in a row: [slugify] yields words of lower-case
    letters and digits joined by single underscores. *)
Theorem slugify_shape (s : string) :
  startswith "_" (PdfUtil.slugify s) = false
  /\ endswith "_" (PdfUtil.slugify s) = false
  /\ contains "__" (PdfUtil.slugify s) = false.
Proof.
  destruct (slugify_inner s) as (Hh & Hr & Hn). split; [|split].
  - now apply head_free_startswith.
  - now apply head_free_endswith.
  - eapply (no_run_contains "_"%char), Hn.
Qed.

Lemma slug_not_upper (c : ascii) :
  Filenames.slug_or_underscore c = true -> is_upper c = false.
Proof.
  destruct c as [[] [] [] [] [] [] [] []]; vm_compute; intros H;
    first [reflexivity | discriminate H].
Qed.

Lemma slug_not_space (c : ascii) :
  PdfUtil.is_slug_char c = true -> is_space c = false.
Proof.
  destruct c as [[] [] [] [] [] [] [] []]; vm_compute; intros H;
    first [reflexivity | discriminate H].
Qed.

Lemma lower_id (s : string) :
  all_chars (fun c => negb (is_upper c)) s = true -> lower s = s.
Proof.
  induction s as [|c s IH]; simpl; [reflexivity|].
  rewrite all_chars_cons. intros H. apply andb_prop in H as [Hc Hs].
  unfold lower_char. destruct (is_upper c); [discriminate|].
  now rewrite IH.
Qed.

Lemma slug_head_not_space (s : string) :
  all_chars Filenames.slug_or_underscore s = true ->
  head_free is_underscore s = true ->
  head_free is_space s = true.
Proof.
  destruct s as [|c s]; [reflexivity|].
  rewrite all_chars_cons. cbn [head_free]. intros Hall Hh.
  apply andb_prop in Hall as [Hc _].
  unfold Filenames.slug_or_underscore in Hc. unfold is_underscore in Hh.
  destruct (Ascii.eqb c PdfUtil.underscore); [discriminate|].
  rewrite orb_false_r in Hc. now rewrite slug_not_space.
Qed.

(** X2.  [slugify] is idempotent: the slug of a slug is the slug itself. *)
Theorem slugify_idempotent (s : string) :
  PdfUtil.slugify (PdfUtil.slugify s) = PdfUtil.slugify s.
Proof.
  destruct (slugify_inner s) as (Hh & Hr & Hn).
  pose proof (Filenames.slugify_chars s) as Hc.
  set (t := PdfUtil.slugify s) in *.
  unfold PdfUtil.slugify at 1.
  assert (H1 : lower t = t).
  { apply lower_id. eapply all_chars_weaken; [|exact Hc].
    intros c H. now rewrite slug_not_upper. }
  rewrite H1.
  assert (H2 : strip is_space t = t).
  { unfold strip. rewrite (lstrip_id is_space t).
    - apply rstrip_id. apply slug_head_not_space; [now apply all_chars_rev | exact Hr].
    - now apply slug_head_not_space. }
  rewrite H2.
  rewrite (sub_runs_id PdfUtil.is_slug_char PdfUtil.underscore t);
    [|reflexivity | exact Hc | exact Hn].
  rewrite (sub_runs_id _ PdfUtil.underscore t); [|reflexivity | | exact Hn].
  - unfold strip. fold is_underscore. rewrite (lstrip_id _ t Hh).
    now apply rstrip_id.
  - eapply all_chars_weaken; [|exact Hc]. intros c _.
    now destruct (Ascii.eqb c PdfUtil.underscore).
Qed.

End SlugShape.

(** ** Facts on the pure helpers *)

Module PureFacts.
Import PyStr Stated StrFacts Browser.

Lemma all_chars_app (P : ascii -> bool) (a b : string) :
  all_chars P (a ++ b) = all_chars P a && all_chars P b.
Proof.
  induction a as [|c a IH]; [reflexivity|].
  change (String c a ++ b) with (String c (a ++ b)).
  now rewrite !all_chars_cons, IH, andb_assoc.
Qed.

Lemma all_chars_prefix (P : ascii -> bool) (p : string) :
  forall s, startswith p s = true -> all_chars P s = true -> all_chars P p = true.
Proof.
  induction p as [|a p IH]; intros [|b s]; simpl; try reflexivity; try discriminate.
  rewrite !all_chars_cons. intros H1 H2.
  apply andb_prop in H1 as [Hab Hp]. apply andb_prop in H2 as [Hb Hs].
  apply Ascii.eqb_eq in Hab. subst b. now rewrite Hb, (IH s).
Qed.

Lemma has_char_all (P : ascii -> bool) (c : ascii) (s : string) :
  all_chars P s = true -> P c = false -> has_char c s = false.
Proof.
  intros Hall Hc. induction s as [|x s IH]; [reflexivity|].
  rewrite all_chars_cons in Hall. apply andb_prop in Hall as [Hx Hs].
  simpl. rewrite (IH Hs), orb_false_r.
  destruct (Ascii.eqb_spec x c) as [->|_]; [congruence | reflexivity].
Qed.

Lemma split_no_sep (sep : ascii) (s : string) :
  has_char sep s = false -> split sep s = [s].
Proof.
  induction s as [|c s IH]; simpl; [reflexivity|].
  intros H. apply orb_false_elim in H as [Hc Hs].
  now rewrite Hc, (IH Hs).
Qed.

Lemma endswith_refl (s : string) : endswith s s = true.
Proof. destruct s; cbn [endswith]; now rewrite String.eqb_refl. Qed.

Lemma endswith_app (suf a : string) : endswith suf (a ++ suf) = true.
Proof.
  induction a as [|c a IH]; [apply endswith_refl|].
  change (String c a ++ suf) with (String c (a ++ suf)).
  cbn [endswith]. rewrite IH. apply orb_true_r.
Qed.

Definition filename_char (c : ascii) : bool :=
  Filenames.slug_or_underscore c || Ascii.eqb c "."%char.

(** X3.  The file name [safe_filename] derives is accepted by [is_pdf_url],
    and it consists of lower-case letters, digits, underscores and dots
    only, so it holds no path separator and names a file directly in the
    download directory. *)
Theorem safe_filename_is_pdf (institution : string) :
  PdfUtil.is_pdf_url (PdfUtil.safe_filename institution) = true
  /\ all_chars filename_char (PdfUtil.safe_filename institution) = true.
Proof.
  unfold PdfUtil.safe_filename.
  set (short := join "_" _).
  assert (Hshort : all_chars Filenames.slug_or_underscore short = true).
  { eapply all_chars_prefix; [|apply (Filenames.slugify_chars institution)].
    apply (join_firstn_split_prefix "_"%char). }
  assert (Hall : all_chars filename_char (short ++ "_2026.pdf") = true).
  { rewrite all_chars_app. apply andb_true_intro. split; [|reflexivity].
    eapply all_chars_weaken; [|exact Hshort].
    intros c Hc. unfold filename_char. now rewrite Hc. }
  split; [|exact Hall].
  unfold PdfUtil.is_pdf_url.
  rewrite split_no_sep by (eapply has_char_all; [exact Hall | reflexivity]).
  cbn [hd]. rewrite lower_app.
  change (lower "_2026.pdf") with ("_2026" ++ ".pdf").
  rewrite <- StrFacts.app_assoc. apply endswith_app.
Qed.

Lemma endswith_pdf_contains (s : string) :
  endswith ".pdf" s = true -> contains "pdf" s = true.
Proof.
  induction s as [|c s IH]; cbn [endswith contains]; intros H.
  - discriminate H.
  - apply orb_prop in H as [H|H].
    + apply String.eqb_eq in H. injection H as -> ->. reflexivity.
    + rewrite (IH H). apply orb_true_r.
Qed.

(** X4.  The score [_try_fallback_links] gives a link is one of 0, 3, 5, 8, 15
    and 18: an href that ends in .pdf also contains pdf, so the 10 points
    never come without the 5.  The score is at least 15 exactly when the
    lower-cased href ends in .pdf, and at least 5 exactly when it contains
    pdf. *)
Theorem link_score_values (href : string) (text : option string) :
  In (Harvester.link_score href text) [0; 3; 5; 8; 15; 18]%Z
  /\ (endswith ".pdf" (lower href) = true <-> (15 <= Harvester.link_score href text)%Z)
  /\ (contains "pdf" (lower href) = true <-> (5 <= Harvester.link_score href text)%Z).
Proof.
  unfold Harvester.link_score.
  destruct (endswith ".pdf" (lower href)) eqn:He.
  - rewrite (endswith_pdf_contains _ He).
    destruct (match text with Some t => _ | None => false end);
      simpl; repeat split; auto 10; try lia.
  - destruct (contains "pdf" (lower href));
      destruct (match text with Some t => _ | None => false end);
      simpl; repeat split; auto 10; try lia; try discriminate.
Qed.

(** What [on_response] tests of a response. *)
Definition announces_pdf (resp : Response) : bool :=
  contains "application/pdf"
    (lower (match resp_content_type resp with Some v => v | None => EmptyString end))
  || contains ".pdf"
       (lower (match resp_content_disposition resp with Some v => v | None => EmptyString end)).

(** X5.  The sniffer keeps the address of the most recent response that
    announces a PDF (a content type holding application/pdf, or a content
    disposition holding .pdf, case folded); when no response announces one,
    the recorded address is as it was. *)
Theorem sniffer_most_recent (responses : list Response) (init : string) :
  fold_left PdfHarvester.on_response responses init
  = match find announces_pdf (List.rev responses) with
    | Some r => resp_url r
    | None => init
    end.
Proof.
  induction responses as [|r rs IH] using rev_ind; [reflexivity|].
  rewrite fold_left_app, rev_app_distr. cbn [List.rev app fold_left find].
  change (PdfHarvester.on_response ?a r)
    with (if announces_pdf r then resp_url r else a).
  destruct (announces_pdf r); [reflexivity | exact IH].
Qed.

(** X6.  On a response whose address holds no question mark the two PDF checks
    agree: [_is_pdf_response] answers the content-type test or what
    [is_pdf_url] answers on the address. *)
Theorem pdf_checks_agree (r : Response) :
  has_char "?"%char (resp_url r) = false ->
  Harvester._is_pdf_response (Some r)
  = contains "application/pdf"
      (lower (match resp_content_type r with Some v => v | None => EmptyString end))
    || PdfUtil.is_pdf_url (resp_url r).
Proof.
  intros H. unfold Harvester._is_pdf_response, PdfUtil.is_pdf_url.
  now rewrite split_no_sep.
Qed.

Definition plain_response : Response :=
  {| resp_url := "https://example.org/Outlook.PDF";
     resp_content_type := Some "text/html";
     resp_content_disposition := None |}.

Lemma pdf_checks_agree_witness :
  has_char "?"%char (resp_url plain_response) = false
  /\ Harvester._is_pdf_response (Some plain_response)
     = contains "application/pdf" (lower "text/html")
       || PdfUtil.is_pdf_url (resp_url plain_response).
Proof. split; [reflexivity | apply (pdf_checks_agree plain_response); reflexivity]. Defined.

(** X7.  When the date holds none of the characters [sanitize_filename] deletes
    and no space (as the digits of %Y%m%d do), the whole file name holds
    none of them either, whatever the institution name is. *)
Theorem sanitize_filename_clean (institution date : string) :
  all_chars Filenames.plain_name_char date = true ->
  all_chars Filenames.plain_name_char (Utils.sanitize_filename institution date) = true.
Proof.
  intros Hd. unfold Utils.sanitize_filename.
  rewrite !all_chars_app, Filenames.sanitized_chars, Hd. reflexivity.
Qed.

Lemma sanitize_filename_clean_witness :
  all_chars Filenames.plain_name_char "20261104" = true
  /\ all_chars Filenames.plain_name_char
       (Utils.sanitize_filename "A/B: Capital" "20261104") = true.
Proof.
  split; [reflexivity | apply (sanitize_filename_clean "A/B: Capital" "20261104"); reflexivity].
Defined.

Lemma lower_char_idem (c : ascii) : lower_char (lower_char c) = lower_char c.
Proof. destruct c as [[] [] [] [] [] [] [] []]; reflexivity. Qed.

Lemma lower_idem (s : string) : lower (lower s) = lower s.
Proof.
  induction s as [|c s IH]; simpl; [reflexivity|].
  now rewrite lower_char_idem, IH.
Qed.

(** X8.  [contains_any] ignores case, of the text and of the hints: lower-casing
    either beforehand does not change its answer. *)
Theorem contains_any_ignores_case (text : string) (hints : list string) :
  PdfUtil.contains_any (lower text) hints = PdfUtil.contains_any text hints
  /\ PdfUtil.contains_any text (map lower hints) = PdfUtil.contains_any text hints.
Proof.
  unfold PdfUtil.contains_any. rewrite lower_idem. split; [reflexivity|].
  induction hints as [|h hints IH]; simpl; [reflexivity|].
  now rewrite lower_idem, IH.
Qed.

End PureFacts.

Module Stable.
Import PyStr Stated ListFacts EitherOr.
Import PdfHarvester.

Lemma filter_all {A} (f : A -> bool) (l : list A) :
  (forall x, In x l -> f x = true) -> filter f l = l.
Proof.
  induction l as [|x l IH]; simpl; intros H; [reflexivity|].
  rewrite (H x) by now left. f_equal. apply IH. intros y Hy. apply H. now right.
Qed.

Lemma dedup_id (l : list string) : NoDup l -> dedup l = l.
Proof.
  induction l as [|x l IH]; intros H; [reflexivity|].
  inversion H as [|? ? Hx Hl]; subst. simpl. rewrite (IH Hl). f_equal.
  apply filter_all. intros y Hy.
  destruct (String.eqb_spec y x) as [->|_]; [contradiction | reflexivity].
Qed.

Lemma existsb_none {A} (f : A -> bool) (l : list A) :
  (forall x, In x l -> f x = false) -> existsb f l = false.
Proof.
  induction l as [|x l IH]; simpl; intros H; [reflexivity|].
  rewrite (H x) by now left. apply IH. intros y Hy. apply H. now right.
Qed.

Lemma capped_fixed (f : string -> bool) (l : list string) :
  let res := firstn 10 (dedup (filter f l)) in
  firstn 10 (dedup (filter f res)) = res.
Proof.
  intros res.
  assert (Hin : forall x, In x res -> f x = true).
  { intros x Hx. apply firstn_In, dedup_incl, filter_In in Hx. tauto. }
  rewrite (filter_all f res Hin).
  rewrite dedup_id by apply firstn_NoDup, dedup_NoDup.
  apply firstn_all2. apply firstn_le_length.
Qed.

(** X9.  The candidate collector is stable: applied to its own result it
    returns that result unchanged. *)
Theorem candidate_links_stable (hrefs : list string) :
  candidate_links_of (candidate_links_of hrefs) = candidate_links_of hrefs.
Proof.
  rewrite (candidate_links_passes hrefs).
  destruct (existsb PdfUtil.is_pdf_url hrefs) eqn:He.
  - set (res := firstn 10 _). rewrite candidate_links_passes.
    destruct (existsb PdfUtil.is_pdf_url res) eqn:Hr.
    + apply capped_fixed.
    + destruct res as [|x res'] eqn:Hres; [reflexivity|].
      assert (Hx : PdfUtil.is_pdf_url x = true).
      { assert (Hin : In x (firstn 10 (dedup (filter PdfUtil.is_pdf_url hrefs)))).
        { fold res. rewrite Hres. now left. }
        apply firstn_In, dedup_incl, filter_In in Hin. tauto. }
      simpl in Hr. rewrite Hx in Hr. discriminate.
  - set (res := firstn 10 _). rewrite candidate_links_passes.
    rewrite existsb_none.
    + apply capped_fixed.
    + intros x Hx. apply firstn_In, dedup_incl, filter_In in Hx as [Hx _].
      destruct (PdfUtil.is_pdf_url x) eqn:Hp; [|reflexivity].
      assert (existsb PdfUtil.is_pdf_url hrefs = true)
        by (apply existsb_exists; now exists x).
      congruence.
Qed.

End Stable.

(** ** The matcher [click_by_text] *)

Module Matcher.
Import PyStr Browser Runs Rules PdfFacts.
Import PdfHarvester.
Local Open Scope list_scope.

(** The look-ups [click_by_text] makes when nothing is clicked: every text
    in order, as a button first and as a link next. *)
Definition probes (p : PageId) (texts : list string) : list Event :=
  flat_map (fun t => [EvRoleCount p role_button t; EvRoleCount p role_link t]) texts.

Definition is_count (e : Event) : bool :=
  match e with
  | EvRoleCount _ _ _ => true
  | _ => false
  end.

(** A click on page [p] on an element named by one of [texts]. *)
Definition click_on (p : PageId) (texts : list string) (e : Event) : bool :=
  match e with
  | EvRoleClick q _ t => Nat.eqb q p && existsb (String.eqb t) texts
  | _ => false
  end.

Definition count_or_click (p : PageId) (texts : list string) (e : Event) : bool :=
  is_count e || click_on p texts e.

(** What a run of the matcher that answered [b] has added to the trace. *)
Definition matcher_trace (p : PageId) (texts : list string) (b : bool)
           (evs : list Event) : Prop :=
  forallb (count_or_click p texts) evs = true
  /\ if b
     then (exists pre r t, evs = pre ++ [EvRoleClick p r t] /\ In t texts)
          /\ exists k, filter is_count evs = firstn k (probes p texts)
     else filter is_count evs = probes p texts.

Lemma click_on_here (p : PageId) (r : Role) (t : string) (texts : list string) :
  count_or_click p (t :: texts) (EvRoleClick p r t) = true.
Proof. unfold count_or_click. simpl. now rewrite Nat.eqb_refl, String.eqb_refl. Qed.

Lemma count_or_click_more (p : PageId) (t : string) (texts : list string) (e : Event) :
  count_or_click p texts e = true -> count_or_click p (t :: texts) e = true.
Proof.
  unfold count_or_click. destruct e; simpl; auto.
  intros H. apply andb_prop in H as [-> ->]. simpl. apply orb_true_r.
Qed.

Section Facts.
Variable E : Engine.

(** One [try] block of the matcher. *)
Lemma click_role_run p r t ms (st : St E HarvestResult) :
  exists b w' tail,
    click_role E p r t ms st
    = (Ok b, mkSt w' (trace st ++ EvRoleCount p r t :: tail) (obj st))
    /\ (tail = [] \/ tail = [EvRoleClick p r t])
    /\ (b = true -> tail = [EvRoleClick p r t]).
Proof.
  unfold click_role, try_catch, bind, call, ret. cbn [world trace obj].
  destruct (role_count E p r t (world st)) as [[n|e] w1]; cbn [world trace obj].
  - destruct (0 <? n)%nat.
    + cbn [world trace obj].
      destruct (role_click_first E p r t ms w1) as [[[]|e] w2]; cbn [world trace obj].
      * exists true, w2, [EvRoleClick p r t]. rewrite <- app_assoc. auto.
      * exists false, w2, [EvRoleClick p r t]. rewrite <- app_assoc.
        split; [reflexivity|]. split; [now right | discriminate].
    + exists false, w1, []. split; [reflexivity|]. split; [now left | discriminate].
  - exists false, w1, []. split; [reflexivity|]. split; [now left | discriminate].
Qed.

Lemma click_by_text_run p texts ms :
  forall st : St E HarvestResult,
  exists b st' evs,
    click_by_text E p texts ms st = (Ok b, st')
    /\ obj st' = obj st
    /\ trace st' = trace st ++ evs
    /\ matcher_trace p texts b evs.
Proof.
  induction texts as [|t rest IH]; intros st.
  - exists false, st, []. simpl. rewrite app_nil_r. repeat split; reflexivity.
  - cbn [click_by_text]. rewrite run_bind.
    destruct (click_role_run p role_button t ms st) as (b1 & w1 & tail1 & H1 & Ht1 & Hb1).
    rewrite H1. destruct b1.
    { rewrite (Hb1 eq_refl). do 3 eexists. split; [reflexivity|].
      split; [reflexivity|]. split; [reflexivity|]. split.
      - cbn [forallb]. rewrite click_on_here. reflexivity.
      - split.
        + exists [EvRoleCount p role_button t], role_button, t. split; [reflexivity | now left].
        + exists 1. reflexivity. }
    rewrite run_bind.
    match goal with |- context [click_role E p role_link t ms ?s] => set (s1 := s) end.
    destruct (click_role_run p role_link t ms s1) as (b2 & w2 & tail2 & H2 & Ht2 & Hb2).
    rewrite H2. subst s1. cbn [world trace obj].
    assert (Hf1 : forallb (count_or_click p (t :: rest)) tail1 = true
                  /\ filter is_count tail1 = []).
    { destruct Ht1 as [->| ->]; [split; reflexivity|].
      cbn [forallb filter is_count]. rewrite click_on_here. split; reflexivity. }
    destruct Hf1 as [Hf1 Hc1].
    destruct b2.
    { rewrite (Hb2 eq_refl). do 3 eexists. split; [reflexivity|].
      split; [reflexivity|]. split; [rewrite <- app_assoc; reflexivity|]. split.
      - cbn [forallb app]. rewrite forallb_app, Hf1. cbn [forallb].
        rewrite click_on_here. reflexivity.
      - split.
        + exists (EvRoleCount p role_button t :: tail1 ++ [EvRoleCount p role_link t]),
            role_link, t.
          split; [|now left]. cbn [app]. rewrite <- app_assoc. reflexivity.
        + exists 2. cbn [app filter is_count]. rewrite filter_app, Hc1. reflexivity. }
    match goal with |- context [click_by_text E p rest ms ?s] =>
      destruct (IH s) as (b & st' & evs & Hrun & Hobj & Htr & Hall & Hshape) end.
    rewrite Hrun. cbn [world trace obj] in Hobj, Htr.
    assert (Hf2 : forallb (count_or_click p (t :: rest)) tail2 = true
                  /\ filter is_count tail2 = []).
    { destruct Ht2 as [->| ->]; [split; reflexivity|].
      cbn [forallb filter is_count]. rewrite click_on_here. split; reflexivity. }
    destruct Hf2 as [Hf2 Hc2].
    exists b, st', (EvRoleCount p role_button t :: tail1
                    ++ EvRoleCount p role_link t :: tail2 ++ evs).
    split; [reflexivity|]. split; [exact Hobj|]. split.
    { rewrite Htr. repeat (rewrite <- app_assoc; cbn [app]). reflexivity. }
    assert (Hcount : filter is_count
                       (EvRoleCount p role_button t :: tail1
                        ++ EvRoleCount p role_link t :: tail2 ++ evs)
                     = EvRoleCount p role_button t :: EvRoleCount p role_link t
                       :: filter is_count evs).
    { cbn [filter is_count]. rewrite filter_app, Hc1. cbn [app filter is_count].
      now rewrite filter_app, Hc2. }
    split.
    { cbn [forallb]. rewrite forallb_app, Hf1. cbn [forallb].
      rewrite forallb_app, Hf2. cbn [andb count_or_click is_count orb].
      rewrite forallb_forall in *. intros e He.
      now apply count_or_click_more, Hall. }
    destruct b.
    + destruct Hshape as [(pre & r & t' & Hevs & Hin) [k Hk]]. split.
      * exists (EvRoleCount p role_button t :: tail1
                ++ EvRoleCount p role_link t :: tail2 ++ pre), r, t'.
        split; [|now right]. rewrite Hevs. cbn [app].
        rewrite <- !app_assoc. cbn [app]. rewrite <- !app_assoc. reflexivity.
      * exists (S (S k)). rewrite Hcount, Hk. reflexivity.
    + rewrite Hcount, Hshape. reflexivity.
Qed.

End Facts.


End Matcher.

(** ** The names and the action tags of a result *)

Module Labels.
Import PyStr Browser Runs Rules PdfFacts.
Import PdfHarvester.
Local Open Scope list_scope.

(** The tags the handlers append to the actions of a result. *)
Definition handler_tags : list string :=
  ["accepted_cookies"; "handled_linkedin_redirect"; "closed_modal";
   "closed_modal_x"; "gate_detected"; "gate_continued"].

Definition known_tag (profile : string) (t : string) : Prop :=
  In t handler_tags
  \/ t = ("gate_selected_" ++ profile)%string
  \/ exists h, In h DOWNLOAD_HINTS /\ t = ("downloaded_via_click:" ++ h)%string.

(** The result object still names the same institution and start address,
    and its actions grew by known tags. *)
Definition labelled_obj (profile : string) (r r' : HarvestResult) : Prop :=
  institution r' = institution r
  /\ start_url r' = start_url r
  /\ exists tags, actions r' = actions r ++ tags /\ Forall (known_tag profile) tags.

Definition labelled (profile : string) {E : Engine} (st st' : St E HarvestResult)
  : Prop :=
  labelled_obj profile (obj st) (obj st').

Lemma labelled_obj_refl (profile : string) (r : HarvestResult) :
  labelled_obj profile r r.
Proof.
  split; [reflexivity|]. split; [reflexivity|].
  exists []. split; [now rewrite app_nil_r | constructor].
Qed.

Lemma labelled_obj_trans (profile : string) (a b c : HarvestResult) :
  labelled_obj profile a b -> labelled_obj profile b c -> labelled_obj profile a c.
Proof.
  intros (Hi1 & Hs1 & t1 & Ha1 & Hk1) (Hi2 & Hs2 & t2 & Ha2 & Hk2).
  split; [congruence|]. split; [congruence|].
  exists (t1 ++ t2). split.
  - now rewrite Ha2, Ha1, app_assoc.
  - apply Forall_app. now split.
Qed.

Lemma labelled_obj_tag (profile t : string) (r : HarvestResult) :
  known_tag profile t -> labelled_obj profile r (append_action t r).
Proof.
  intros H. split; [reflexivity|]. split; [reflexivity|].
  exists [t]. split; [reflexivity | now constructor].
Qed.

Section Laws.
Variable E : Engine.
Variable profile : string.

Local Abbreviation M := (@Browser.M E HarvestResult).
Local Abbreviation labels m := (steps (E:=E) (labelled profile) m).

Lemma labelled_refl (st : St E HarvestResult) : labelled profile st st.
Proof. apply labelled_obj_refl. Qed.

Lemma labelled_trans (a b c : St E HarvestResult) :
  labelled profile a b -> labelled profile b c -> labelled profile a c.
Proof. apply labelled_obj_trans. Qed.

Lemma lab_ret {A} (a : A) : labels (ret a : M A).
Proof. apply steps_ret, labelled_refl. Qed.

Lemma lab_raise {A} (e : string) : labels (raise e : M A).
Proof. apply steps_raise, labelled_refl. Qed.

Lemma lab_observe {A} (f : World E -> A) : labels (observe f : M A).
Proof. apply steps_observe, labelled_refl. Qed.

Lemma lab_get_obj : labels (get_obj : M HarvestResult).
Proof. apply steps_get_obj, labelled_refl. Qed.

Lemma lab_bind {A B} (m : M A) (k : A -> M B) :
  labels m -> (forall a, labels (k a)) -> labels (bind m k).
Proof. apply steps_bind, labelled_trans. Qed.

Lemma lab_try {A} (m : M A) (h : string -> M A) :
  labels m -> (forall e, labels (h e)) -> labels (try_catch m h).
Proof. apply steps_try, labelled_trans. Qed.

Lemma lab_finally {A} (m : M A) (p : PageId) :
  labels m -> labels (finally m (closing p)).
Proof.
  intros Hm. apply steps_finally; [apply labelled_trans | exact Hm|].
  intros st. apply labelled_obj_refl.
Qed.

Lemma lab_call {A} (ev : Event) (op : World E -> outcome A * World E) :
  labels (call ev op : M A).
Proof. intros st. unfold call. destruct (op (world st)). apply labelled_obj_refl. Qed.

Lemma lab_call_total (ev : Event) (op : World E -> World E) :
  labels (call_total ev op : M unit).
Proof. intros st. apply labelled_obj_refl. Qed.

Lemma lab_enter (c : Component) : labels (enter c : M unit).
Proof. intros st. apply labelled_obj_refl. Qed.

Lemma lab_open_page : labels (open_page : M PageId).
Proof.
  intros st. unfold open_page. destruct (new_page E (world st)).
  apply labelled_obj_refl.
Qed.

Lemma lab_modify (f : HarvestResult -> HarvestResult) :
  (forall r, labelled_obj profile r (f r)) -> labels (modify f : M unit).
Proof. intros H st. apply H. Qed.

End Laws.

(** A tag is known. *)
Ltac known :=
  first [ left; simpl; tauto
        | right; left; reflexivity
        | right; right; eexists; split; [eassumption | reflexivity] ].

(** An assignment to a field other than the two names, or an appended
    known tag. *)
Ltac lab_obj :=
  intros ?;
  first [ apply labelled_obj_tag; known
        | split; [reflexivity|]; split; [reflexivity|];
          exists []; split; [symmetry; apply app_nil_r | constructor] ].

Ltac lab_step :=
  first
    [ apply lab_bind; [|intros ?]
    | apply lab_try; [|intros ?]
    | apply lab_finally
    | apply lab_ret
    | apply lab_raise
    | apply lab_observe
    | apply lab_get_obj
    | apply lab_call
    | apply lab_call_total
    | apply lab_enter
    | apply lab_open_page
    | apply lab_modify; lab_obj ].

Ltac lab_with known_fact :=
  repeat first
    [ known_fact
    | lab_step
    | match goal with
      | |- steps _ (if ?b then _ else _) => destruct b
      | |- steps _ (match ?x with _ => _ end) => destruct x
      | |- steps _ (let (_, _) := ?x in _) => destruct x
      end ].

Ltac lab_auto := lab_with fail.

Section Facts.
Variable E : Engine.
Variable profile : string.

Local Abbreviation labels m := (steps (E:=E) (labelled profile) m).

Lemma lab_click_by_text p texts ms : labels (click_by_text E p texts ms).
Proof.
  induction texts as [|t rest IH]; simpl; [lab_auto|].
  unfold click_role. lab_with ltac:(exact IH).
Qed.

Lemma lab_body_text p : labels (body_text E p).
Proof. unfold body_text. lab_auto. Qed.

Lemma lab_handle_cookies p : labels (handle_cookies E p).
Proof. unfold handle_cookies. lab_with ltac:(apply lab_click_by_text). Qed.

Lemma lab_close_icons p sels : labels (close_icons E p sels).
Proof.
  induction sels as [|sel rest IH]; simpl; [lab_auto|].
  lab_with ltac:(exact IH).
Qed.

Lemma lab_close_modals p : labels (close_modals E p).
Proof.
  unfold close_modals.
  lab_with ltac:(first [apply lab_click_by_text | apply lab_close_icons]).
Qed.

Lemma lab_handle_linkedin_interstitial p :
  labels (handle_linkedin_interstitial E p).
Proof.
  unfold handle_linkedin_interstitial.
  lab_with ltac:(first [apply lab_body_text | apply lab_click_by_text]).
Qed.

Lemma lab_scroll_page p : labels (scroll_page E p).
Proof. unfold scroll_page. lab_auto. Qed.

Lemma lab_open_and_clear page url : labels (open_and_clear E page url).
Proof.
  unfold open_and_clear.
  lab_with
    ltac:(first [ apply lab_handle_linkedin_interstitial | apply lab_scroll_page
                | apply lab_handle_cookies | apply lab_close_modals ]).
Qed.

Lemma lab_resolve_gate p : labels (resolve_gate E profile p).
Proof.
  unfold resolve_gate, detect_gate.
  lab_with
    ltac:(first [ apply lab_body_text | apply lab_click_by_text
                | apply lab_handle_cookies | apply lab_close_modals ]).
Qed.

Lemma lab_try_hint p inst hint :
  In hint DOWNLOAD_HINTS -> labels (try_hint E p inst hint).
Proof. intros Hin. unfold try_hint. lab_with ltac:(apply lab_click_by_text). Qed.

Lemma lab_try_hints p inst hints :
  incl hints DOWNLOAD_HINTS -> labels (try_hints E p inst hints).
Proof.
  induction hints as [|h rest IH]; intros Hincl; simpl; [lab_auto|].
  apply lab_bind; [apply lab_try_hint, Hincl; now left|].
  intros [out|]; [lab_auto|]. apply IH. intros x Hx. apply Hincl. now right.
Qed.

Lemma lab_try_download_event p inst : labels (try_download_event E p inst).
Proof.
  unfold try_download_event. apply lab_bind; [lab_auto|]. intros _.
  apply lab_try_hints, incl_refl.
Qed.

Lemma lab_last_pdf_url p : labels (last_pdf_url E p).
Proof. unfold last_pdf_url. lab_auto. Qed.

Lemma lab_collect_candidate_links p : labels (collect_candidate_links E p).
Proof. unfold collect_candidate_links. lab_auto. Qed.

Lemma lab_mark_downloaded out q : labels (mark_downloaded E out q).
Proof. unfold mark_downloaded. lab_auto. Qed.

Lemma lab_follow_pdf_url q inst url :
  labels url -> labels (follow_pdf_url E q inst url).
Proof.
  intros Hurl. unfold follow_pdf_url.
  lab_with ltac:(first [ exact Hurl | apply lab_try_download_event
                       | apply lab_mark_downloaded ]).
Qed.

Lemma lab_visit_candidate p2 inst cand :
  labels (visit_candidate E profile p2 inst cand).
Proof.
  unfold visit_candidate.
  lab_with
    ltac:(first [ apply lab_handle_cookies | apply lab_close_modals
                | apply lab_resolve_gate | apply lab_try_download_event
                | apply lab_mark_downloaded | apply lab_last_pdf_url
                | apply lab_follow_pdf_url ]).
Qed.

Lemma lab_crawl inst candidates : labels (crawl E profile inst candidates).
Proof.
  induction candidates as [|c rest IH]; simpl; [lab_auto|].
  lab_with ltac:(first [exact IH | apply lab_visit_candidate]).
Qed.

Lemma lab_click_then_crawl page inst :
  labels (click_then_crawl E profile page inst).
Proof.
  unfold click_then_crawl.
  lab_with
    ltac:(first [ apply lab_try_download_event | apply lab_mark_downloaded
                | apply lab_last_pdf_url | apply lab_follow_pdf_url
                | apply lab_collect_candidate_links | apply lab_crawl ]).
Qed.

Lemma lab_after_gate page inst g : labels (after_gate E profile page inst g).
Proof.
  unfold after_gate.
  lab_with
    ltac:(first [ apply lab_try_download_event | apply lab_last_pdf_url
                | apply lab_click_then_crawl ]).
Qed.

Lemma lab_on_error page inst e : labels (on_error E page inst e).
Proof. unfold on_error. lab_auto. Qed.

(** The task, once the fresh result object is in place. *)
Definition guarded_task (inst url : string) : M (E:=E) (R:=HarvestResult) HarvestResult :=
  bind open_page
       (fun page =>
          bind (finally
                  (try_catch
                     (bind (open_and_clear E page url)
                           (fun _ => bind (resolve_gate E profile page)
                                          (fun g => after_gate E profile page inst g)))
                     (on_error E page inst))
                  (closing page))
               (fun _ => get_obj)).

Lemma lab_guarded_task inst url : labels (guarded_task inst url).
Proof.
  unfold guarded_task.
  lab_with
    ltac:(first [ apply lab_open_and_clear | apply lab_resolve_gate
                | apply lab_after_gate | apply lab_on_error ]).
Qed.

Lemma guarded_task_returns_obj inst url (st : St E HarvestResult) :
  exists st', guarded_task inst url st = (Ok (obj st'), st').
Proof.
  unfold guarded_task. rewrite run_bind. unfold open_page at 1.
  destruct (new_page E (world st)) as [page w0]. rewrite run_bind.
  match goal with |- context [finally ?m ?f ?s] =>
    destruct (total_run (finally m f) s) as ([] & s1 & H1) end.
  { apply total_finally, total_try. intros e. apply total_on_error. }
  rewrite H1. now exists s1.
Qed.

End Facts.

Lemma harvest_one_labelled (E : Engine) (profile inst url : string)
      (st : St E HarvestResult) :
  exists r st',
    harvest_one E profile inst url st = (Ok r, st')
    /\ obj st' = r
    /\ institution r = inst
    /\ start_url r = url
    /\ Forall (known_tag profile) (actions r).
Proof.
  change (harvest_one E profile inst url)
    with (bind (modify (fun _ => new_result inst url))
               (fun _ => guarded_task E profile inst url)).
  rewrite run_bind. cbn [modify].
  match goal with |- context [guarded_task E profile inst url ?s] => set (s0 := s) end.
  destruct (guarded_task_returns_obj E profile inst url s0) as [st' Hrun].
  pose proof (steps_run _ _ _ _ _ (lab_guarded_task E profile inst url) Hrun)
    as (Hi & Hs & tags & Ha & Hk).
  rewrite Hrun. exists (obj st'), st'. split; [reflexivity|].
  split; [reflexivity|]. split; [exact Hi|]. split; [exact Hs|].
  rewrite Ha. exact Hk.
Qed.


End Labels.

(** ** The gate resolver, the download trigger, and load failures *)

Module GateFacts.
Import PyStr Browser Runs Rules PdfFacts Matcher Labels.
Import PdfHarvester.
Local Open Scope list_scope.

(** What [detect_gate] answers in a world: an unreadable page text counts
    as the empty text. *)
Definition gate_seen (E : Engine) (p : PageId) (w : World E) : bool :=
  match fst (inner_text_body E p w) with
  | Ok txt => PdfUtil.contains_any txt GATE_HINTS
  | Raise _ => false
  end.

Lemma detect_gate_run (E : Engine) (p : PageId) (st : St E HarvestResult) :
  detect_gate E p st
  = (Ok (gate_seen E p (world st)),
     mkSt (snd (inner_text_body E p (world st))) (trace st ++ [EvInnerText p]) (obj st)).
Proof.
  unfold detect_gate, body_text, bind, try_catch, call, ret, gate_seen.
  destruct (inner_text_body E p (world st)) as [[txt|e] w]; reflexivity.
Qed.

(** X12.  [resolve_gate] fails open: when the page text holds no gate hint, or
    cannot be read at all, it reports the gate as handled with the note
    no_gate, whatever the profile; it has only read the text and the result
    object is as before. *)
Theorem resolve_gate_no_gate (E : Engine) (profile : string) (p : PageId)
        (st : St E HarvestResult) :
  gate_seen E p (world st) = false ->
  resolve_gate E profile p st
  = (Ok (true, "no_gate"%string),
     mkSt (snd (inner_text_body E p (world st)))
          (trace st ++ [EvEnter CGate; EvInnerText p]) (obj st)).
Proof.
  intros Hg. unfold resolve_gate.
  erewrite run_bind_ok; [|reflexivity].
  erewrite run_bind_ok; [|apply detect_gate_run].
  cbn [world trace obj]. rewrite Hg. cbn [negb ret].
  now rewrite <- app_assoc.
Qed.

Definition offline_start : St Offline.offline_engine HarvestResult :=
  mkSt (tt : World Offline.offline_engine) []
       (new_result "Acme Capital" "https://example.org/outlook").

Lemma resolve_gate_no_gate_witness :
  gate_seen Offline.offline_engine 0 (world offline_start) = false
  /\ resolve_gate Offline.offline_engine "professional" 0 offline_start
     = (Ok (true, "no_gate"%string),
        mkSt (tt : World Offline.offline_engine) [EvEnter CGate; EvInnerText 0]
             (new_result "Acme Capital" "https://example.org/outlook")).
Proof.
  split; [reflexivity|].
  apply (resolve_gate_no_gate Offline.offline_engine "professional" 0 offline_start).
  reflexivity.
Defined.


End GateFacts.

Module Trigger.
Import PyStr Browser Runs Rules PdfFacts Matcher.
Import PdfHarvester.
Local Open Scope list_scope.

(** What a run of the download trigger that answered [o] has done: on a
    path, the click on a hint, the download event and the save under that
    path are the last three calls, and the click is tagged; otherwise the
    result object is as before. *)
Definition trigger_result (p : PageId) (inst : string) (hints : list string)
           (o : option string) (evs : list Event) (r r' : HarvestResult) : Prop :=
  match o with
  | Some out =>
      out = path_join DOWNLOAD_DIR (PdfUtil.safe_filename inst)
      /\ exists hint pre role d,
           In hint hints
           /\ evs = pre ++ [EvRoleClick p role hint; EvDownloadValue p; EvSaveAs d out]
           /\ r' = append_action ("downloaded_via_click:" ++ hint)%string r
  | None => r' = r
  end.

Section Facts.
Variable E : Engine.

Lemma try_hint_run p inst hint (st : St E HarvestResult) :
  exists o st' evs,
    try_hint E p inst hint st = (Ok o, st')
    /\ trace st' = trace st ++ evs
    /\ trigger_result p inst [hint] o evs (obj st) (obj st').
Proof.
  unfold try_hint, try_catch. rewrite run_bind. unfold call at 1.
  destruct (expect_download E p 3000%N (world st)) as [[[]|e] w1].
  2:{ exists None. do 2 eexists. split; [reflexivity|]. split; reflexivity. }
  rewrite run_bind.
  match goal with |- context [click_by_text E p [hint] ?ms ?s] =>
    destruct (click_by_text_run E p [hint] ms s)
      as (b & s2 & evs1 & Hrun & Hobj & Htr & Hall & Hshape) end.
  rewrite Hrun. cbn [world trace obj] in Hobj, Htr.
  rewrite run_bind. unfold call at 1.
  destruct (download_value E p (world s2)) as [[d|e] w3].
  2:{ exists None. do 2 eexists. split; [reflexivity|]. cbn [trace obj].
      split; [rewrite Htr, <- !app_assoc; reflexivity | exact Hobj]. }
  destruct b; cbn [negb].
  2:{ exists None. do 2 eexists. split; [reflexivity|]. cbn [trace obj].
      split; [rewrite Htr, <- !app_assoc; reflexivity | exact Hobj]. }
  rewrite run_bind. unfold call at 1. cbn [world trace obj].
  match goal with |- context [save_as E d ?out w3] =>
    destruct (save_as E d out w3) as [[[]|e] w4] end.
  2:{ exists None. do 2 eexists. split; [reflexivity|]. cbn [trace obj].
      split; [rewrite Htr, <- !app_assoc; reflexivity | exact Hobj]. }
  erewrite run_bind_ok; [|reflexivity].
  destruct Hshape as [(pre & r & t & Hevs & Hin) _].
  destruct Hin as [<-|[]].
  eexists (Some _). do 2 eexists. split; [reflexivity|]. cbn [trace obj].
  split.
  - rewrite Htr, Hevs. repeat (rewrite <- app_assoc; cbn [app]). reflexivity.
  - split; [reflexivity|].
    exists hint, (EvExpectDownload p :: pre), r, d.
    split; [now left|]. split; [reflexivity | now rewrite Hobj].
Qed.

Lemma trigger_result_more p inst h hints o evs0 evs r r' :
  trigger_result p inst hints o evs r r' ->
  trigger_result p inst (h :: hints) o (evs0 ++ evs) r r'.
Proof.
  destruct o as [out|]; [|auto].
  intros (Hout & hint & pre & role & d & Hin & Hevs & Hr).
  split; [exact Hout|]. exists hint, (evs0 ++ pre), role, d.
  split; [now right|]. split; [|exact Hr].
  rewrite Hevs. now rewrite app_assoc.
Qed.

Lemma try_hints_run p inst hints :
  forall st : St E HarvestResult,
  exists o st' evs,
    try_hints E p inst hints st = (Ok o, st')
    /\ trace st' = trace st ++ evs
    /\ trigger_result p inst hints o evs (obj st) (obj st').
Proof.
  induction hints as [|h rest IH]; intros st.
  - exists None, st, []. split; [reflexivity|]. split; [now rewrite app_nil_r | reflexivity].
  - cbn [try_hints]. rewrite run_bind.
    destruct (try_hint_run p inst h st) as (o & s1 & evs1 & H1 & Ht1 & Hr1).
    rewrite H1. destruct o as [out|].
    + exists (Some out), s1, evs1. split; [reflexivity|]. split; [exact Ht1|].
      destruct Hr1 as (Hout & hint & pre & role & d & Hin & Hevs & Hr).
      split; [exact Hout|]. exists hint, pre, role, d.
      split; [|now split]. destruct Hin as [<-|[]]. now left.
    + destruct (IH s1) as (o & s2 & evs2 & H2 & Ht2 & Hr2).
      exists o, s2, (evs1 ++ evs2). split; [exact H2|].
      split; [now rewrite Ht2, Ht1, app_assoc|].
      cbn [trigger_result] in Hr1. rewrite <- Hr1.
      now apply trigger_result_more.
Qed.

Lemma try_download_event_run p inst (st : St E HarvestResult) :
  exists o st' evs,
    try_download_event E p inst st = (Ok o, st')
    /\ trace st' = trace st ++ EvEnter CDownload :: evs
    /\ trigger_result p inst DOWNLOAD_HINTS o evs (obj st) (obj st').
Proof.
  unfold try_download_event. erewrite run_bind_ok; [|reflexivity].
  match goal with |- context [try_hints E p inst DOWNLOAD_HINTS ?s] =>
    destruct (try_hints_run p inst DOWNLOAD_HINTS s) as (o & s1 & evs & H1 & Ht & Hr) end.
  exists o, s1, evs. split; [exact H1|]. split; [|exact Hr].
  rewrite Ht. cbn [trace]. now rewrite <- app_assoc.
Qed.

End Facts.

(** X14.  [try_download_event] never raises.  When it returns a path, the path is
    the download directory joined with [safe_filename] of the institution,
    the last three browser calls are the click on one of the download hints,
    the wait for the download event and [save_as] with that very path, and
    the result gained exactly the tag downloaded_via_click: followed by that
    hint.  When it returns nothing the result object is as before. *)
Theorem try_download_event_record (E : Engine) (p : PageId) (inst : string)
        (st : St E HarvestResult) :
  exists o st' evs,
    try_download_event E p inst st = (Ok o, st')
    /\ trace st' = trace st ++ EvEnter CDownload :: evs
    /\ match o with
       | Some out =>
           out = path_join DOWNLOAD_DIR (PdfUtil.safe_filename inst)
           /\ exists hint pre role d,
                In hint DOWNLOAD_HINTS
                /\ evs = pre ++ [EvRoleClick p role hint; EvDownloadValue p;
                                 EvSaveAs d out]
                /\ obj st' = append_action ("downloaded_via_click:" ++ hint)%string
                                           (obj st)
       | None => obj st' = obj st
       end.
Proof. apply try_download_event_run. Qed.

End Trigger.

Module LoadFailure.
Import PyStr Browser Runs Rules.
Local Open Scope list_scope.




Definition offline_dict : St Offline.offline_engine Harvester.ResultDict :=
  mkSt (tt : World Offline.offline_engine) []
       (Harvester.mkDict EmptyString EmptyString EmptyString EmptyString EmptyString).


End LoadFailure.

(** ** Invariants of runs *)

Module Hoare.
Import Browser Runs Rules.
Local Open Scope list_scope.

Section Laws.
Context {E : Engine} {R : Type}.
Local Abbreviation M := (@Browser.M E R).
Local Abbreviation St := (Browser.St E R).

(** From a state in [P], the outcome and the final state of [m] are in [Q]. *)
Definition hoare {A} (P : St -> Prop) (m : M A) (Q : outcome A -> St -> Prop)
  : Prop :=
  forall st, P st -> Q (fst (m st)) (snd (m st)).

(** [m] keeps the invariant [I], whatever its outcome. *)
Definition preserves (I : St -> Prop) {A} (m : M A) : Prop :=
  hoare I m (fun _ => I).

Lemma hoare_run {A} (P : St -> Prop) (m : M A) (Q : outcome A -> St -> Prop)
      (st st' : St) (o : outcome A) :
  hoare P m Q -> P st -> m st = (o, st') -> Q o st'.
Proof. intros H HP Hr. specialize (H st HP). now rewrite Hr in H. Qed.

Lemma hoare_bind {A B} (P : St -> Prop) (m : M A) (k : A -> M B)
      (Q1 : outcome A -> St -> Prop) (Q : outcome B -> St -> Prop) :
  hoare P m Q1 ->
  (forall a, hoare (Q1 (Ok a)) (k a) Q) ->
  (forall e st, Q1 (Raise e) st -> Q (Raise e) st) ->
  hoare P (bind m k) Q.
Proof.
  intros Hm Hk Hr st HP. specialize (Hm st HP). unfold bind.
  destruct (m st) as [[a|e] st']; simpl in *; [now apply Hk | now apply Hr].
Qed.

Lemma hoare_try {A} (P : St -> Prop) (m : M A) (h : string -> M A)
      (Q1 Q : outcome A -> St -> Prop) :
  hoare P m Q1 ->
  (forall a st, Q1 (Ok a) st -> Q (Ok a) st) ->
  (forall e, hoare (Q1 (Raise e)) (h e) Q) ->
  hoare P (try_catch m h) Q.
Proof.
  intros Hm Hok Hh st HP. specialize (Hm st HP). unfold try_catch.
  destruct (m st) as [[a|e] st']; simpl in *; [now apply Hok | now apply Hh].
Qed.

Lemma hoare_finally {A} (P : St -> Prop) (m : M A) (f : St -> St)
      (Q1 Q : outcome A -> St -> Prop) :
  hoare P m Q1 ->
  (forall o st, Q1 o st -> Q o (f st)) ->
  hoare P (finally m f) Q.
Proof.
  intros Hm Hf st HP. specialize (Hm st HP). unfold finally.
  destruct (m st) as [o st']; simpl in *. now apply Hf.
Qed.

Lemma hoare_weaken {A} (P P' : St -> Prop) (m : M A)
      (Q Q' : outcome A -> St -> Prop) :
  hoare P' m Q' ->
  (forall st, P st -> P' st) ->
  (forall o st, Q' o st -> Q o st) ->
  hoare P m Q.
Proof. intros H HP HQ st Hst. apply HQ, H, HP, Hst. Qed.

Section Invariant.
Variable I : St -> Prop.
(** The trace entries the invariant survives; it does not depend on the
    world. *)
Variable ok : Event -> bool.
Hypothesis I_stable :
  forall st w ev, ok ev = true -> I st -> I (mkSt w (trace st ++ [ev]) (obj st)).

Lemma pres_ret {A} (a : A) : preserves I (ret a : M A).
Proof. intros st H. exact H. Qed.

Lemma pres_raise {A} (e : string) : preserves I (raise e : M A).
Proof. intros st H. exact H. Qed.

Lemma pres_observe {A} (f : World E -> A) : preserves I (observe f : M A).
Proof. intros st H. exact H. Qed.

Lemma pres_get_obj : preserves I (get_obj : M R).
Proof. intros st H. exact H. Qed.

Lemma pres_bind {A B} (m : M A) (k : A -> M B) :
  preserves I m -> (forall a, preserves I (k a)) -> preserves I (bind m k).
Proof. intros Hm Hk. eapply hoare_bind; [exact Hm | exact Hk | auto]. Qed.

Lemma pres_try {A} (m : M A) (h : string -> M A) :
  preserves I m -> (forall e, preserves I (h e)) -> preserves I (try_catch m h).
Proof. intros Hm Hh. eapply hoare_try; [exact Hm | auto | exact Hh]. Qed.

Lemma pres_finally {A} (m : M A) (p : PageId) :
  ok (EvClose p) = true -> preserves I m -> preserves I (finally m (closing p)).
Proof.
  intros Hok Hm. eapply hoare_finally; [exact Hm|].
  intros o st H. now apply I_stable.
Qed.

Lemma pres_call {A} (ev : Event) (op : World E -> outcome A * World E) :
  ok ev = true -> preserves I (call ev op : M A).
Proof.
  intros Hok st H. unfold call. destruct (op (world st)). now apply I_stable.
Qed.

Lemma pres_call_total (ev : Event) (op : World E -> World E) :
  ok ev = true -> preserves I (call_total ev op : M unit).
Proof. intros Hok st H. now apply I_stable. Qed.

Lemma pres_enter (c : Component) :
  ok (EvEnter c) = true -> preserves I (enter c : M unit).
Proof. intros Hok st H. now apply I_stable. Qed.

Lemma pres_open_page :
  (forall p, ok (EvNewPage p) = true) -> preserves I (open_page : M PageId).
Proof.
  intros Hok st H. unfold open_page. destruct (new_page E (world st)).
  now apply I_stable.
Qed.

End Invariant.

Lemma pres_modify (I : St -> Prop) (f : R -> R) :
  (forall st, I st -> I (mkSt (world st) (trace st) (f (obj st)))) ->
  preserves I (modify f : M unit).
Proof. intros H st HI. now apply H. Qed.

End Laws.

(** One step of a proof that a composed run keeps an invariant: [stable]
    proves that the invariant is stable, [okev] that a trace entry is one it
    survives, [assign] that an assignment to the result object keeps it. *)
Ltac inv_step stable okev assign :=
  lazymatch goal with
  | |- preserves _ (bind _ _) => apply pres_bind; [|intros ?]
  | |- preserves _ (try_catch _ _) => apply pres_try; [|intros ?]
  | |- preserves _ (finally _ (closing _)) => eapply pres_finally; [stable | okev |]
  | |- preserves _ (ret _) => apply pres_ret
  | |- preserves _ (raise _) => apply pres_raise
  | |- preserves _ (observe _) => apply pres_observe
  | |- preserves _ get_obj => apply pres_get_obj
  | |- preserves _ (call _ _) => eapply pres_call; [stable | okev]
  | |- preserves _ (call_total _ _) => eapply pres_call_total; [stable | okev]
  | |- preserves _ (enter _) => eapply pres_enter; [stable | okev]
  | |- preserves _ open_page => eapply pres_open_page; [stable | intros ?; okev]
  | |- preserves _ (modify _) => apply pres_modify; assign
  end.

Ltac inv_with stable okev assign known :=
  repeat first
    [ known
    | inv_step stable okev assign
    | match goal with
      | |- preserves _ (if ?b then _ else _) => destruct b
      | |- preserves _ (match ?x with _ => _ end) => destruct x
      | |- preserves _ (let (_, _) := ?x in _) => destruct x
      end ].

End Hoare.

(** ** Invariants of the handlers *)

Module HandlerInv.
Import PyStr Browser Runs Rules Hoare.
Local Open Scope list_scope.

(** The trace entries of the handlers: everything but the opening and
    closing of pages and the saving of a download. *)
Definition handler_event (e : Event) : bool :=
  match e with
  | EvNewPage _ | EvClose _ | EvSaveAs _ _ => false
  | _ => true
  end.

Section Pdf.
Import PdfHarvester.
Variable E : Engine.
Variable profile : string.

Local Abbreviation St := (Browser.St E HarvestResult).

Variable I : St -> Prop.
Variable ok : Event -> bool.
Hypothesis I_stable :
  forall st w ev, ok ev = true -> I st -> I (mkSt w (trace st ++ [ev]) (obj st)).
Hypothesis ok_handler : forall ev, handler_event ev = true -> ok ev = true.
(** The invariant survives every assignment that keeps the file path. *)
Hypothesis I_assign :
  forall (f : HarvestResult -> HarvestResult) st,
    (forall r, file_path (f r) = file_path r) ->
    I st -> I (mkSt (world st) (trace st) (f (obj st))).

Ltac stable := exact I_stable.
Ltac okev := apply ok_handler; reflexivity.
Ltac assign := intros ? ?; apply I_assign; [intros ?; reflexivity | assumption].
Ltac inv_using known := inv_with stable okev assign known.
Ltac inv_auto := inv_using fail.

Local Abbreviation keeps m := (preserves I m).

Lemma inv_click_by_text p texts ms : keeps (click_by_text E p texts ms).
Proof.
  induction texts as [|t rest IH]; simpl; [inv_auto|].
  unfold click_role. inv_using ltac:(exact IH).
Qed.

Lemma inv_body_text p : keeps (body_text E p).
Proof. unfold body_text. inv_auto. Qed.

Lemma inv_handle_cookies p : keeps (handle_cookies E p).
Proof. unfold handle_cookies. inv_using ltac:(apply inv_click_by_text). Qed.

Lemma inv_close_icons p sels : keeps (close_icons E p sels).
Proof.
  induction sels as [|sel rest IH]; simpl; [inv_auto|].
  inv_using ltac:(exact IH).
Qed.

Lemma inv_close_modals p : keeps (close_modals E p).
Proof.
  unfold close_modals.
  inv_using ltac:(first [apply inv_click_by_text | apply inv_close_icons]).
Qed.

Lemma inv_handle_linkedin_interstitial p :
  keeps (handle_linkedin_interstitial E p).
Proof.
  unfold handle_linkedin_interstitial.
  inv_using ltac:(first [apply inv_body_text | apply inv_click_by_text]).
Qed.

Lemma inv_scroll_page p : keeps (scroll_page E p).
Proof. unfold scroll_page. inv_auto. Qed.

Lemma inv_open_and_clear page url : keeps (open_and_clear E page url).
Proof.
  unfold open_and_clear.
  inv_using
    ltac:(first [ apply inv_handle_linkedin_interstitial | apply inv_scroll_page
                | apply inv_handle_cookies | apply inv_close_modals ]).
Qed.

Lemma inv_resolve_gate p : keeps (resolve_gate E profile p).
Proof.
  unfold resolve_gate, detect_gate.
  inv_using
    ltac:(first [ apply inv_body_text | apply inv_click_by_text
                | apply inv_handle_cookies | apply inv_close_modals ]).
Qed.

Lemma inv_last_pdf_url p : keeps (last_pdf_url E p).
Proof. unfold last_pdf_url. inv_auto. Qed.

Lemma inv_collect_candidate_links p : keeps (collect_candidate_links E p).
Proof. unfold collect_candidate_links. inv_auto. Qed.

Lemma inv_on_error page inst e : keeps (on_error E page inst e).
Proof. unfold on_error. inv_auto. Qed.

End Pdf.

(** The assignments [process_url] and its methods make outside
    [_save_download]: they keep the start address and the file path, and
    never set the status downloaded. *)
Definition pipeline_assign (f : Harvester.ResultDict -> Harvester.ResultDict)
  : Prop :=
  (forall r, Harvester.start_url (f r) = Harvester.start_url r)
  /\ (forall r, Harvester.file_path (f r) = Harvester.file_path r)
  /\ (forall r, Harvester.status r <> "downloaded"%string ->
                Harvester.status (f r) <> "downloaded"%string).

Section Pkg.
Import Harvester.
Variable E : Engine.
Variables profile DOWNLOAD_DIR SCREENSHOT_DIR : string.
Variable os_bound : bool.

Local Abbreviation St := (Browser.St E ResultDict).

Variable I : St -> Prop.
Variable ok : Event -> bool.
Hypothesis I_stable :
  forall st w ev, ok ev = true -> I st -> I (mkSt w (trace st ++ [ev]) (obj st)).
Hypothesis ok_handler : forall ev, handler_event ev = true -> ok ev = true.
Hypothesis I_assign :
  forall (f : ResultDict -> ResultDict) st,
    pipeline_assign f -> I st -> I (mkSt (world st) (trace st) (f (obj st))).
Hypothesis I_save :
  forall d institution,
    preserves I (_save_download E DOWNLOAD_DIR os_bound d institution).

Ltac stable := exact I_stable.
Ltac okev := apply ok_handler; reflexivity.
Ltac assign :=
  intros ? ?; apply I_assign;
  [ split; [|split]; intros ?;
    [ reflexivity | reflexivity | first [ intros _; discriminate | exact (fun H => H) ] ]
  | assumption ].
Ltac inv_using known := inv_with stable okev assign known.
Ltac inv_auto := inv_using fail.

Local Abbreviation keeps m := (preserves I m).

Lemma inv_save_screenshot p name : keeps (save_screenshot E SCREENSHOT_DIR p name).
Proof. unfold save_screenshot. inv_auto. Qed.

Lemma inv_handle_cookies_loop p texts : keeps (_handle_cookies_loop E p texts).
Proof.
  induction texts as [|t rest IH]; simpl; [inv_auto|].
  inv_using ltac:(exact IH).
Qed.

Lemma inv_pkg_handle_cookies p : keeps (_handle_cookies E p).
Proof. unfold _handle_cookies. inv_using ltac:(apply inv_handle_cookies_loop). Qed.

Lemma inv_click_visible p sels : keeps (click_visible E p sels).
Proof.
  induction sels as [|sel rest IH]; simpl; [inv_auto|].
  inv_using ltac:(exact IH).
Qed.

Lemma inv_handle_popups p : keeps (_handle_popups E p).
Proof. unfold _handle_popups. inv_using ltac:(apply inv_click_visible). Qed.

Lemma inv_try_elements p institution elements :
  keeps (try_elements E DOWNLOAD_DIR os_bound p institution elements).
Proof.
  induction elements as [|el rest IH]; simpl; [inv_auto|].
  inv_using ltac:(first [exact IH | apply I_save]).
Qed.

Lemma inv_try_keywords p institution keywords :
  keeps (try_keywords E DOWNLOAD_DIR os_bound p institution keywords).
Proof.
  induction keywords as [|k rest IH]; simpl; [inv_auto|].
  inv_using ltac:(first [exact IH | apply inv_try_elements]).
Qed.

Lemma inv_try_download_buttons p institution :
  keeps (_try_download_buttons E DOWNLOAD_DIR os_bound p institution).
Proof. unfold _try_download_buttons. inv_using ltac:(apply inv_try_keywords). Qed.

Lemma inv_check_compliance_gate p : keeps (_check_compliance_gate E profile p).
Proof. unfold _check_compliance_gate. inv_auto. Qed.

Lemma inv_read_anchors links : keeps (read_anchors E links).
Proof.
  induction links as [|l rest IH]; simpl; [inv_auto|].
  inv_using ltac:(exact IH).
Qed.

Lemma inv_try_candidates p institution top :
  keeps (try_candidates E DOWNLOAD_DIR os_bound p institution top).
Proof.
  induction top as [|[score href] rest IH]; simpl; [inv_auto|].
  inv_using ltac:(first [exact IH | apply I_save | apply inv_try_download_buttons]).
Qed.

Lemma inv_try_fallback_links p institution :
  keeps (_try_fallback_links E DOWNLOAD_DIR os_bound p institution).
Proof.
  unfold _try_fallback_links.
  inv_using ltac:(first [apply inv_read_anchors | apply inv_try_candidates]).
Qed.

Lemma inv_before_gate page institution :
  keeps (before_gate E DOWNLOAD_DIR os_bound page institution).
Proof.
  unfold before_gate.
  inv_using ltac:(first [ apply inv_pkg_handle_cookies | apply inv_handle_popups
                        | apply inv_try_download_buttons ]).
Qed.

Lemma inv_after_gate_check page institution gate_status :
  keeps (after_gate_check E DOWNLOAD_DIR SCREENSHOT_DIR os_bound page institution
           gate_status).
Proof.
  unfold after_gate_check.
  inv_using ltac:(first [ apply inv_save_screenshot | apply inv_try_download_buttons
                        | apply inv_try_fallback_links ]).
Qed.

Lemma inv_scan_page page institution :
  keeps (scan_page E profile DOWNLOAD_DIR SCREENSHOT_DIR os_bound page institution).
Proof.
  unfold scan_page.
  inv_using ltac:(first [ apply inv_before_gate | apply inv_check_compliance_gate
                        | apply inv_after_gate_check ]).
Qed.

Lemma inv_load_page page institution url :
  keeps (load_page E SCREENSHOT_DIR page institution url).
Proof. unfold load_page. inv_using ltac:(apply inv_save_screenshot). Qed.

Lemma inv_pkg_on_error page institution e :
  keeps (Harvester.on_error E SCREENSHOT_DIR page institution e).
Proof. unfold Harvester.on_error. inv_using ltac:(apply inv_save_screenshot). Qed.

(** What [process_url] runs between the opening of its page and the
    [finally] clause. *)
Definition guarded (page : PageId) (institution url : string)
  : M (E:=E) (R:=ResultDict) Returned :=
  try_catch
    (bind (load_page E SCREENSHOT_DIR page institution url)
          (fun loaded =>
             match loaded with
             | None => bind get_obj (fun r => ret (RetResult r))
             | Some response =>
                 if _is_pdf_response response then
                   bind (_handle_direct_pdf_download E) (fun _ => ret RetFalse)
                 else
                   bind (scan_page E profile DOWNLOAD_DIR SCREENSHOT_DIR os_bound
                           page institution)
                        (fun _ => bind get_obj (fun r => ret (RetResult r)))
             end))
    (Harvester.on_error E SCREENSHOT_DIR page institution).

Lemma inv_guarded page institution url : keeps (guarded page institution url).
Proof.
  unfold guarded, _handle_direct_pdf_download.
  inv_using ltac:(first [ apply inv_load_page | apply inv_scan_page
                        | apply inv_pkg_on_error ]).
Qed.

Lemma on_error_returns_obj page institution e (st : St) :
  exists st',
    Harvester.on_error E SCREENSHOT_DIR page institution e st
    = (Ok (RetResult (obj st')), st').
Proof.
  unfold Harvester.on_error, save_screenshot, bind, modify, observe,
    try_catch, call, get_obj, ret. cbn [world trace obj].
  match goal with |- context [screenshot E ?p ?f ?w] =>
    destruct (screenshot E p f w) as [[[]|e'] w'] end; eexists; reflexivity.
Qed.

(** The dictionary [process_url] returns is the result object it leaves. *)
Lemma guarded_returns_obj page institution url (st : St) :
  exists o st',
    guarded page institution url st = (o, st')
    /\ match o with
       | Ok (RetResult r) => r = obj st'
       | Ok RetFalse => True
       | Raise _ => False
       end.
Proof.
  unfold guarded, try_catch. rewrite run_bind.
  destruct (load_page E SCREENSHOT_DIR page institution url st)
    as [[[response|]|e] s1].
  - destruct (_is_pdf_response response).
    + do 2 eexists. split; [reflexivity | exact Logic.I].
    + rewrite run_bind.
      destruct (scan_page E profile DOWNLOAD_DIR SCREENSHOT_DIR os_bound page
                  institution s1) as [[[]|e] s2].
      * do 2 eexists. split; reflexivity.
      * destruct (on_error_returns_obj page institution e s2) as [s3 H3].
        rewrite H3. do 2 eexists. split; reflexivity.
  - do 2 eexists. split; reflexivity.
  - destruct (on_error_returns_obj page institution e s1) as [s3 H3].
    rewrite H3. do 2 eexists. split; reflexivity.
Qed.

End Pkg.

End HandlerInv.

(** ** Runs over page calls that may raise *)

Module RaisingRules.
Import Browser Runs Rules Hoare Raising.
Local Open Scope list_scope.

Section Laws.
Context {E : Engine} {R : Type}.
Variable C : PageCalls E.
Local Abbreviation M := (@Browser.M E R).
Local Abbreviation St := (Browser.St E R).

(** The two outcomes of opening a page. *)
Lemma opening_cases (st : St) :
  (exists p w', new_page_call C (world st) = (Ok p, w')
                /\ opening C st = (Ok p, mkSt w' (trace st ++ [EvNewPage p]) (obj st)))
  \/ (exists e w', new_page_call C (world st) = (Raise e, w')
                   /\ opening C st = (Raise e, mkSt w' (trace st) (obj st))).
Proof.
  unfold opening. destruct (new_page_call C (world st)) as [[p|e] w'].
  - left. now exists p, w'.
  - right. now exists e, w'.
Qed.

(** A [finally] clause that closes a page: the run of the body, then the
    call. *)
Lemma finally_close_run {A} (m : M A) (p : PageId) (st s1 : St) (o : outcome A) :
  m st = (o, s1) ->
  finally_do m (close_page C p) st
  = (match fst (close_call C p (world s1)) with
     | Ok _ => o
     | Raise e => Raise e
     end,
     mkSt (snd (close_call C p (world s1))) (trace s1 ++ [EvClose p]) (obj s1)).
Proof.
  intros Hm. unfold finally_do, close_page, call. rewrite Hm.
  destruct (close_call C p (world s1)) as [[[]|e] w']; reflexivity.
Qed.

(** When the call returns, the outcome is that of the body. *)
Lemma finally_close_returns {A} (m : M A) (p : PageId) (st s1 : St) (o : outcome A) :
  close_returns C ->
  m st = (o, s1) ->
  exists w',
    finally_do m (close_page C p) st
    = (o, mkSt w' (trace s1 ++ [EvClose p]) (obj s1)).
Proof.
  intros Hclose Hm. rewrite (finally_close_run m p st s1 o Hm).
  destruct (Hclose p (world s1)) as [w' Hw]. rewrite Hw. now exists w'.
Qed.

(** *** Steps along a relation on the result object *)

Section Steps.
Variable Rel : St -> St -> Prop.
Hypothesis Rel_trans : forall a b c, Rel a b -> Rel b c -> Rel a c.
(** The relation looks at the result object only. *)
Hypothesis Rel_obj : forall st w tr, Rel st (mkSt w tr (obj st)).

Lemma steps_opening : steps Rel (opening C : M PageId).
Proof.
  intros st. unfold opening.
  destruct (new_page_call C (world st)) as [[p|e] w']; apply Rel_obj.
Qed.

Lemma steps_close_page (p : PageId) : steps Rel (close_page C p : M unit).
Proof.
  intros st. unfold close_page, call.
  destruct (close_call C p (world st)) as [o w']. apply Rel_obj.
Qed.

Lemma steps_finally_do {A} (m : M A) (f : M unit) :
  steps Rel m -> steps Rel f -> steps Rel (finally_do m f).
Proof.
  intros Hm Hf st. unfold finally_do. specialize (Hm st).
  destruct (m st) as [o s1]. specialize (Hf s1).
  destruct (f s1) as [[[]|e] s2]; simpl in *; eapply Rel_trans; eassumption.
Qed.

End Steps.

End Laws.

End RaisingRules.

(** ** Page calls that always return *)

Module TotalCalls.
Import PyStr Browser Rules Raising.
Local Open Scope list_scope.

Section Laws.
Context {E : Engine} {R : Type}.
Local Abbreviation M := (@Browser.M E R).
Local Abbreviation St := (Browser.St E R).

Lemma total_calls_close_returns : close_returns (total_calls E).
Proof. intros p w. now exists (close E p w). Qed.

Lemma bind_ext {A B} (m m' : M A) (k k' : A -> M B) (st : St) :
  (forall s, m s = m' s) -> (forall a s, k a s = k' a s) ->
  bind m k st = bind m' k' st.
Proof.
  intros Hm Hk. unfold bind. rewrite Hm.
  destruct (m' st) as [[a|e] s1]; [apply Hk | reflexivity].
Qed.

Lemma try_ext {A} (m m' : M A) (h : string -> M A) (st : St) :
  (forall s, m s = m' s) -> try_catch m h st = try_catch m' h st.
Proof. intros Hm. unfold try_catch. now rewrite Hm. Qed.

Lemma opening_total (st : St) : opening (total_calls E) st = open_page st.
Proof.
  unfold opening, open_page, total_calls. cbn [new_page_call].
  destruct (new_page E (world st)); reflexivity.
Qed.

Lemma finally_total {A} (m m' : M A) (p : PageId) (st : St) :
  (forall s, m s = m' s) ->
  finally_do m (close_page (total_calls E) p) st = finally m' (closing p) st.
Proof.
  intros Hm. unfold finally_do, finally, close_page, call, closing. rewrite Hm.
  destruct (m' st) as [o s1]. reflexivity.
Qed.

End Laws.

Ltac ext_step :=
  lazymatch goal with
  | |- bind _ _ _ = bind _ _ _ => apply bind_ext; [intros ?|intros ? ?]
  | |- try_catch _ _ _ = try_catch _ _ _ => apply try_ext; intros ?
  | |- finally_do _ _ _ = finally _ _ _ => apply finally_total; intros ?
  | |- opening _ _ = open_page _ => apply opening_total
  | |- (if ?b then _ else _) _ = _ => destruct b
  | |- (match ?x with _ => _ end) _ = _ => destruct x
  end.

Ltac same_sides :=
  lazymatch goal with
  | |- ?a = ?a => reflexivity
  end.

Ltac ext_with known := repeat first [same_sides | known | ext_step].

Section Pdf.
Variable E : Engine.
Variable profile : string.

Lemma follow_pdf_url_total q inst url (st : St E PdfHarvester.HarvestResult) :
  Pdf.follow_pdf_url E (total_calls E) q inst url st
  = PdfHarvester.follow_pdf_url E q inst url st.
Proof.
  unfold Pdf.follow_pdf_url, PdfHarvester.follow_pdf_url. ext_with fail.
Qed.

Lemma visit_candidate_total p2 inst cand (st : St E PdfHarvester.HarvestResult) :
  Pdf.visit_candidate E (total_calls E) profile p2 inst cand st
  = PdfHarvester.visit_candidate E profile p2 inst cand st.
Proof.
  unfold Pdf.visit_candidate, PdfHarvester.visit_candidate.
  ext_with ltac:(apply follow_pdf_url_total).
Qed.

Lemma crawl_total inst candidates :
  forall st : St E PdfHarvester.HarvestResult,
    Pdf.crawl E (total_calls E) profile inst candidates st
    = PdfHarvester.crawl E profile inst candidates st.
Proof.
  induction candidates as [|c rest IH]; intros st; [reflexivity|].
  cbn [Pdf.crawl PdfHarvester.crawl].
  ext_with ltac:(first [apply visit_candidate_total | apply IH]).
Qed.

Lemma click_then_crawl_total page inst (st : St E PdfHarvester.HarvestResult) :
  Pdf.click_then_crawl E (total_calls E) profile page inst st
  = PdfHarvester.click_then_crawl E profile page inst st.
Proof.
  unfold Pdf.click_then_crawl, PdfHarvester.click_then_crawl.
  ext_with ltac:(first [apply follow_pdf_url_total | apply crawl_total]).
Qed.

Lemma after_gate_total page inst g (st : St E PdfHarvester.HarvestResult) :
  Pdf.after_gate E (total_calls E) profile page inst g st
  = PdfHarvester.after_gate E profile page inst g st.
Proof.
  unfold Pdf.after_gate, PdfHarvester.after_gate. destruct g as [handled note].
  ext_with ltac:(apply click_then_crawl_total).
Qed.

(** With page calls that always return, [harvest_one] is the
    [harvest_one] of module [PdfHarvester]. *)
Lemma harvest_one_total inst url (st : St E PdfHarvester.HarvestResult) :
  Pdf.harvest_one E (total_calls E) profile inst url st
  = PdfHarvester.harvest_one E profile inst url st.
Proof.
  unfold Pdf.harvest_one, PdfHarvester.harvest_one.
  ext_with ltac:(apply after_gate_total).
Qed.

Lemma harvest_all_total urls :
  forall st : St E PdfHarvester.HarvestResult,
    Pdf.harvest_all E (total_calls E) profile urls st
    = PdfMain.harvest_all E profile urls st.
Proof.
  induction urls as [|[inst url] rest IH]; intros st; [reflexivity|].
  cbn [Pdf.harvest_all PdfMain.harvest_all].
  ext_with ltac:(first [apply harvest_one_total | apply IH]).
Qed.

End Pdf.

Section Pkg.
Variable E : Engine.
Variables profile DOWNLOAD_DIR SCREENSHOT_DIR : string.
Variable os_bound : bool.

(** With page calls that always return, [process_url] is the
    [process_url] of module [Harvester]. *)
Lemma process_url_total institution url (st : St E Harvester.ResultDict) :
  Pkg.process_url E (total_calls E) profile DOWNLOAD_DIR SCREENSHOT_DIR os_bound
    institution url st
  = Harvester.process_url E profile DOWNLOAD_DIR SCREENSHOT_DIR os_bound
      institution url st.
Proof.
  unfold Pkg.process_url, Harvester.process_url. ext_with fail.
Qed.

End Pkg.

End TotalCalls.

(** ** The tasks over page calls that may raise *)

Module RaisingPdf.
Import PyStr Browser Runs Rules PdfFacts Stated Hoare Raising RaisingRules.
Import PdfHarvester.
Local Open Scope list_scope.

(** A result that is closed out: downloaded with its file, or one of the
    three other statuses and no file path. *)
Definition closed_out (r : HarvestResult) : Prop :=
  ResultInvariant.Pdf.done r
  \/ (In (status r) ["manual_required"; "not_found"; "error"]
      /\ file_path r = None).

Lemma closed_out_well_formed (r : HarvestResult) :
  closed_out r -> result_well_formed r.
Proof.
  intros [Hd|[Hs Hf]].
  - now apply ResultInvariant.Pdf.done_well_formed.
  - now apply ResultInvariant.Pdf.pending_well_formed.
Qed.

Section Names.
Variable E : Engine.
Variable C : PageCalls E.
Variable profile : string.

Local Abbreviation labels m := (steps (E:=E) (Labels.labelled profile) m).

Lemma labelled_obj_only (st : St E HarvestResult) w tr :
  Labels.labelled profile st (mkSt w tr (obj st)).
Proof. apply Labels.labelled_obj_refl. Qed.

Ltac lab_page :=
  lazymatch goal with
  | |- steps _ (finally_do _ _) =>
      apply (steps_finally_do (Labels.labelled profile)
               (Labels.labelled_trans E profile))
  | |- steps _ (opening _) =>
      apply (steps_opening C (Labels.labelled profile) labelled_obj_only)
  | |- steps _ (close_page _ _) =>
      apply (steps_close_page C (Labels.labelled profile) labelled_obj_only)
  end.

Ltac lab_using known_fact :=
  Labels.lab_with ltac:(first [known_fact | lab_page]).

Lemma names_follow_pdf_url q inst url :
  labels url -> labels (Pdf.follow_pdf_url E C q inst url).
Proof.
  intros Hurl. unfold Pdf.follow_pdf_url.
  lab_using
    ltac:(first [ exact Hurl | apply Labels.lab_try_download_event
                | apply Labels.lab_mark_downloaded ]).
Qed.

Lemma names_visit_candidate p2 inst cand :
  labels (Pdf.visit_candidate E C profile p2 inst cand).
Proof.
  unfold Pdf.visit_candidate.
  lab_using
    ltac:(first [ apply Labels.lab_handle_cookies | apply Labels.lab_close_modals
                | apply Labels.lab_resolve_gate | apply Labels.lab_try_download_event
                | apply Labels.lab_mark_downloaded | apply Labels.lab_last_pdf_url
                | apply names_follow_pdf_url ]).
Qed.

Lemma names_crawl inst candidates : labels (Pdf.crawl E C profile inst candidates).
Proof.
  induction candidates as [|c rest IH]; simpl; [Labels.lab_auto|].
  lab_using ltac:(first [exact IH | apply names_visit_candidate]).
Qed.

Lemma names_click_then_crawl page inst :
  labels (Pdf.click_then_crawl E C profile page inst).
Proof.
  unfold Pdf.click_then_crawl.
  lab_using
    ltac:(first [ apply Labels.lab_try_download_event | apply Labels.lab_mark_downloaded
                | apply Labels.lab_last_pdf_url | apply names_follow_pdf_url
                | apply Labels.lab_collect_candidate_links | apply names_crawl ]).
Qed.

Lemma names_after_gate page inst g : labels (Pdf.after_gate E C profile page inst g).
Proof.
  unfold Pdf.after_gate.
  lab_using
    ltac:(first [ apply Labels.lab_try_download_event | apply Labels.lab_last_pdf_url
                | apply names_click_then_crawl ]).
Qed.

(** The task, once the fresh result object is in place. *)
Definition task (inst url : string)
  : M (E:=E) (R:=HarvestResult) HarvestResult :=
  bind (opening C)
       (fun page =>
          bind (finally_do
                  (try_catch
                     (bind (open_and_clear E page url)
                           (fun _ => bind (resolve_gate E profile page)
                                          (fun g => Pdf.after_gate E C profile page inst g)))
                     (on_error E page inst))
                  (close_page C page))
               (fun _ => get_obj)).

Lemma names_task inst url : labels (task inst url).
Proof.
  unfold task.
  lab_using
    ltac:(first [ apply Labels.lab_open_and_clear | apply Labels.lab_resolve_gate
                | apply names_after_gate | apply Labels.lab_on_error ]).
Qed.

(** The result [harvest_one] returns names the institution and the address
    the task was given, whatever was raised and caught on the way. *)
Lemma harvest_one_named inst url (st st' : St E HarvestResult) r :
  Pdf.harvest_one E C profile inst url st = (Ok r, st') ->
  institution r = inst /\ start_url r = url.
Proof.
  change (Pdf.harvest_one E C profile inst url)
    with (bind (modify (fun _ => new_result inst url))
               (fun _ => task inst url)).
  rewrite run_bind. cbn [modify].
  match goal with |- context [task inst url ?s] => set (s0 := s) end.
  intros Hrun.
  pose proof (steps_run _ _ _ _ _ (names_task inst url) Hrun)
    as (Hi & Hs & _).
  assert (Hobj : r = obj st').
  { unfold task in Hrun. rewrite run_bind in Hrun.
    destruct (opening C s0) as [[page|e] s1]; [|discriminate].
    rewrite run_bind in Hrun.
    match type of Hrun with context [finally_do ?m ?f ?s] =>
      destruct (finally_do m f s) as [[[]|e] s2] end; [|discriminate].
    cbn [get_obj] in Hrun. now injection Hrun as <- <-. }
  subst r. split; [exact Hi | exact Hs].
Qed.

End Names.

(** *** The invariant of the result, when no close raises *)

Section Invariant.
Import ResultInvariant.Pdf.
Variable E : Engine.
Variable C : PageCalls E.
Variable profile : string.
Hypothesis Hclose : close_returns C.

Local Abbreviation M := (@Browser.M E HarvestResult).

(** A step that may finish the task and may raise: on [true] the result is
    marked as downloaded with its path; otherwise, and when it raises, the
    result is as before. *)
Definition seeks (m : M bool) : Prop :=
  forall st, pending (obj st) ->
    exists o st',
      m st = (o, st')
      /\ match o with
         | Ok true => done (obj st')
         | Ok false | Raise _ => pending (obj st')
         end.

Lemma finds_seeks (m : M bool) : finds E m -> seeks m.
Proof.
  intros H st Hp. destruct (H st Hp) as (b & st' & Hrun & Hres).
  exists (Ok b), st'. split; [exact Hrun|]. now destruct b.
Qed.

(** [try] ... [except Exception: pass] with the page closed in [finally]. *)
Lemma finds_block (m : M bool) (p : PageId) :
  seeks m ->
  finds E (finally_do (try_catch m (fun _ => ret false)) (close_page C p)).
Proof.
  intros Hm st Hp. destruct (Hm st Hp) as (o & s1 & Hrun & Hres).
  assert (Hin : exists b, try_catch m (fun _ => ret false) st = (Ok b, s1)
                          /\ if b then done (obj s1) else pending (obj s1)).
  { unfold try_catch. rewrite Hrun. destruct o as [[|]|e]; eexists; split;
      try reflexivity; exact Hres. }
  destruct Hin as (b & Hin & Hb).
  destruct (finally_close_returns C _ p st s1 (Ok b) Hclose Hin) as [w' Hfin].
  exists b. eexists. split; [exact Hfin | exact Hb].
Qed.

Lemma seeks_trigger_and_mark (q : PageId) (inst : string) :
  seeks (bind (try_download_event E q inst)
              (fun out => match out with
                          | Some o => bind (mark_downloaded E o q) (fun _ => ret true)
                          | None => ret false
                          end)).
Proof.
  apply finds_seeks. intros st Hp. now apply trigger_and_mark.
Qed.

Lemma follow_pdf_url_finds (q : PageId) (inst : string) (url : M string) :
  steps (E:=E) (keeping core) url ->
  finds E (Pdf.follow_pdf_url E C q inst url).
Proof.
  intros Hurl. unfold Pdf.follow_pdf_url. apply finds_block.
  intros st Hp. rewrite run_bind.
  destruct (url st) as [[u|e] s1] eqn:Hu;
    pose proof (steps_run _ _ _ _ _ Hurl Hu) as Hc1;
    assert (Hp1 : pending (obj s1)) by (eapply pending_core; eassumption).
  2:{ do 2 eexists. split; [reflexivity | exact Hp1]. }
  rewrite run_bind. unfold call at 1.
  destruct (goto E q u (world s1)) as [[r|e] w2].
  2:{ do 2 eexists. split; [reflexivity | exact Hp1]. }
  rewrite run_bind. unfold call_total at 1.
  apply seeks_trigger_and_mark. exact Hp1.
Qed.

Lemma visit_candidate_finds (p2 : PageId) (inst cand : string) :
  finds E (Pdf.visit_candidate E C profile p2 inst cand).
Proof.
  unfold Pdf.visit_candidate. apply finds_block.
  intros st Hp. rewrite run_bind. unfold call at 1.
  destruct (goto E p2 cand (world st)) as [[r|e] w1].
  2:{ do 2 eexists. split; [reflexivity | exact Hp]. }
  rewrite run_bind. unfold call_total at 1. cbv beta iota.
  match goal with |- context [bind ?m ?k ?s] => set (s1 := s) end.
  assert (Hp1 : pending (obj s1)) by exact Hp.
  rewrite run_bind.
  destruct (total_run _ s1 (total_handle_cookies E p2)) as ([] & s2 & H2).
  pose proof (steps_run _ _ _ _ _ (core_handle_cookies E p2) H2) as Hc2.
  rewrite H2. rewrite run_bind.
  destruct (total_run _ s2 (total_close_modals E p2)) as ([] & s3 & H3).
  pose proof (steps_run _ _ _ _ _ (core_close_modals E p2) H3) as Hc3.
  rewrite H3. rewrite run_bind.
  destruct (total_run _ s3 (total_resolve_gate E profile p2)) as (g & s4 & H4).
  pose proof (steps_run _ _ _ _ _ (core_resolve_gate E profile p2) H4) as Hc4.
  rewrite H4.
  assert (Hp4 : pending (obj s4)).
  { eapply pending_core; [exact Hc4|]. eapply pending_core; [exact Hc3|].
    eapply pending_core; [exact Hc2 | exact Hp1]. }
  destruct (negb (fst g)).
  { do 2 eexists. split; [reflexivity | exact Hp4]. }
  rewrite run_bind.
  destruct (total_run _ s4 (total_try_download_event E p2 inst)) as (out & s5 & H5).
  pose proof (steps_run _ _ _ _ _ (core_try_download_event E p2 inst) H5) as Hc5.
  pose proof (answers_run _ _ _ _ _ (path_try_download_event E p2 inst) H5) as Hpath.
  rewrite H5. destruct out as [o|].
  { exists (Ok true). eexists. split; [reflexivity|]. split; [reflexivity|].
    exists o. split; [reflexivity | now apply Hpath]. }
  assert (Hp5 : pending (obj s5)) by (eapply pending_core; eassumption).
  rewrite run_bind. unfold last_pdf_url at 1, observe at 1.
  match goal with |- context [truthy ?s] => destruct (truthy s) end.
  2:{ do 2 eexists. split; [reflexivity | exact Hp5]. }
  rewrite run_bind.
  destruct (opening_cases C s5) as [(p3 & w6 & _ & Hopen)|(e & w6 & _ & Hopen)];
    rewrite Hopen.
  - apply finds_seeks; [|exact Hp5].
    apply follow_pdf_url_finds. apply core_last_pdf_url.
  - do 2 eexists. split; [reflexivity | exact Hp5].
Qed.

Lemma seeks_crawl (inst : string) (candidates : list string) :
  seeks (Pdf.crawl E C profile inst candidates).
Proof.
  induction candidates as [|cand rest IH]; intros st Hp; simpl.
  - exists (Ok false), st. split; [reflexivity | exact Hp].
  - rewrite run_bind.
    destruct (opening_cases C st) as [(p2 & w1 & _ & Hopen)|(e & w1 & _ & Hopen)];
      rewrite Hopen.
    2:{ do 2 eexists. split; [reflexivity | exact Hp]. }
    rewrite run_bind.
    match goal with
    | |- context [Pdf.visit_candidate E C profile p2 inst cand ?s] =>
        destruct (visit_candidate_finds p2 inst cand s) as (b & s2 & H2 & Hres);
          [exact Hp|]
    end.
    rewrite H2. destruct b.
    + exists (Ok true), s2. split; [reflexivity | exact Hres].
    + apply IH. exact Hres.
Qed.

(** What the task leaves after the gate: a closed-out result when it
    returns, no file path when it raises. *)
Definition left_as (o : outcome unit) (r : HarvestResult) : Prop :=
  match o with
  | Ok _ => closed_out r
  | Raise _ => file_path r = None
  end.

Lemma screenshot_leaves (page : PageId) (path : string) (st : St E HarvestResult) :
  In (status (obj st)) ["manual_required"; "not_found"; "error"] ->
  file_path (obj st) = None ->
  exists o st',
    call (EvScreenshot page path) (screenshot E page path) st = (o, st')
    /\ left_as o (obj st').
Proof.
  intros Hs Hf. unfold call.
  destruct (screenshot E page path (world st)) as [[[]|e] w]; do 2 eexists;
    (split; [reflexivity|]); simpl.
  - right. now split.
  - exact Hf.
Qed.

Lemma click_then_crawl_leaves (page : PageId) (inst : string)
      (st : St E HarvestResult) :
  pending (obj st) ->
  exists o st',
    Pdf.click_then_crawl E C profile page inst st = (o, st')
    /\ left_as o (obj st').
Proof.
  intros Hp. unfold Pdf.click_then_crawl.
  rewrite run_bind.
  destruct (total_run _ st (total_try_download_event E page inst)) as (out & s1 & H1).
  pose proof (steps_run _ _ _ _ _ (core_try_download_event E page inst) H1) as Hc1.
  pose proof (answers_run _ _ _ _ _ (path_try_download_event E page inst) H1) as Hpath.
  rewrite H1. destruct out as [o|].
  { do 2 eexists. split; [reflexivity|]. left.
    split; [reflexivity|]. exists o. split; [reflexivity | now apply Hpath]. }
  assert (Hp1 : pending (obj s1)) by (eapply pending_core; eassumption).
  rewrite run_bind. unfold last_pdf_url at 1, observe at 1. cbv beta iota.
  rewrite run_bind.
  assert (Hfound : seeks
            (if truthy (fold_left on_response (responses_seen E page (world s1)) EmptyString)
             then bind (opening C)
                    (fun p2 => Pdf.follow_pdf_url E C p2 inst
                                 (ret (fold_left on_response (responses_seen E page (world s1)) EmptyString)))
             else ret false)).
  { destruct (truthy _).
    - intros s Hs. rewrite run_bind.
      destruct (opening_cases C s) as [(p2 & w2 & _ & Hopen)|(e & w2 & _ & Hopen)];
        rewrite Hopen.
      + apply finds_seeks; [|exact Hs].
        apply follow_pdf_url_finds. apply keeps_ret.
      + do 2 eexists. split; [reflexivity | exact Hs].
    - intros s Hs. exists (Ok false), s. split; [reflexivity | exact Hs]. }
  destruct (Hfound s1 Hp1) as (o & s2 & H2 & Hres). rewrite H2.
  destruct o as [[|]|e].
  { do 2 eexists. split; [reflexivity|]. now left. }
  2:{ do 2 eexists. split; [reflexivity | apply Hres]. }
  rewrite run_bind.
  destruct (total_run _ s2 (total_collect_candidate_links E page)) as (cands & s3 & H3).
  pose proof (steps_run _ _ _ _ _ (core_collect_candidate_links E page) H3) as Hc3.
  rewrite H3. rewrite run_bind.
  destruct (seeks_crawl inst cands s3) as (o & s4 & H4 & Hres4).
  { eapply pending_core; eassumption. }
  rewrite H4. destruct o as [[|]|e].
  { do 2 eexists. split; [reflexivity|]. now left. }
  2:{ do 2 eexists. split; [reflexivity | apply Hres4]. }
  do 4 (rewrite run_bind; cbn [observe modify]).
  apply screenshot_leaves; simpl; [right; now left | apply Hres4].
Qed.

Lemma after_gate_leaves (page : PageId) (inst : string) (g : bool * string)
      (st : St E HarvestResult) :
  pending (obj st) ->
  exists o st',
    Pdf.after_gate E C profile page inst g st = (o, st') /\ left_as o (obj st').
Proof.
  intros Hp. destruct g as [handled note]. unfold Pdf.after_gate.
  destruct handled; cbn [negb].
  2:{ do 4 (rewrite run_bind; cbn [observe modify]).
      apply screenshot_leaves; simpl; [now left | apply Hp]. }
  do 3 (rewrite run_bind; cbn [observe modify last_pdf_url]).
  match goal with |- context [bind ?m ?k ?s] => set (s1 := s) end.
  assert (Hp1 : pending (obj s1)) by exact Hp.
  rewrite run_bind.
  match goal with |- context [if ?c then _ else _] => destruct c end.
  - destruct (total_run _ s1 (total_try_download_event E page inst)) as (out & s2 & H2).
    pose proof (steps_run _ _ _ _ _ (core_try_download_event E page inst) H2) as Hc2.
    pose proof (answers_run _ _ _ _ _ (path_try_download_event E page inst) H2) as Hpath.
    rewrite H2. destruct out as [o|].
    + do 2 eexists. split; [reflexivity|]. left.
      split; [reflexivity|]. exists o. split; [reflexivity | now apply Hpath].
    + apply (click_then_crawl_leaves page inst s2).
      eapply pending_core; eassumption.
  - cbn [ret]. apply (click_then_crawl_leaves page inst s1 Hp1).
Qed.

(** [harvest_one] when no close raises: it returns a closed-out result, or
    raises what the opening of its own page raised. *)
Lemma harvest_one_closed_out (inst url : string) (st : St E HarvestResult) :
  exists o st',
    Pdf.harvest_one E C profile inst url st = (o, st')
    /\ match o with
       | Ok r => closed_out r
       | Raise e => exists w', new_page_call C (world st) = (Raise e, w')
       end.
Proof.
  unfold Pdf.harvest_one.
  rewrite run_bind. cbn [modify].
  rewrite run_bind.
  match goal with |- context [opening C ?s] =>
    destruct (opening_cases C s) as [(page & w0 & Hnew & Hopen)|(e & w0 & Hnew & Hopen)];
      rewrite Hopen; cbn [world trace obj] in Hnew end.
  2:{ do 2 eexists. split; [reflexivity|]. now exists w0. }
  cbv beta iota. rewrite run_bind.
  match goal with |- context [finally_do ?m ?f ?s] => set (s0 := s); set (body := m) end.
  assert (Hp0 : pending (obj s0)) by (split; [discriminate | reflexivity]).
  assert (Hbody : exists s1, body s0 = (Ok tt, s1) /\ closed_out (obj s1)).
  { unfold body, try_catch.
    assert (Herr : forall e s, file_path (obj s) = None ->
              exists s', on_error E page inst e s = (Ok tt, s')
                         /\ closed_out (obj s')).
    { intros e s Hf. unfold on_error, try_catch.
      do 4 (rewrite run_bind; cbn [observe modify]). unfold call.
      match goal with |- context [screenshot E ?p ?f ?w] =>
        destruct (screenshot E p f w) as [[[]|e'] w'] end;
        eexists; (split; [reflexivity|]);
        (right; split; [right; right; now left | exact Hf]). }
    rewrite run_bind.
    destruct (open_and_clear E page url s0) as [[[]|e] s1] eqn:H1;
      pose proof (steps_run _ _ _ _ _ (core_open_and_clear E page url) H1) as Hc1;
      assert (Hp1 : pending (obj s1)) by (eapply pending_core; eassumption).
    2:{ apply Herr. apply Hp1. }
    rewrite run_bind.
    destruct (total_run _ s1 (total_resolve_gate E profile page)) as (g & s2 & H2).
    pose proof (steps_run _ _ _ _ _ (core_resolve_gate E profile page) H2) as Hc2.
    rewrite H2.
    destruct (after_gate_leaves page inst g s2) as (o & s3 & H3 & Hs3).
    { eapply pending_core; eassumption. }
    rewrite H3. destruct o as [[]|e].
    - exists s3. split; [reflexivity | exact Hs3].
    - apply Herr. exact Hs3. }
  destruct Hbody as (s1 & Hbody & Hout).
  destruct (finally_close_returns C body page s0 s1 (Ok tt) Hclose Hbody) as [w' Hfin].
  rewrite Hfin. cbn [get_obj obj].
  do 2 eexists. split; [reflexivity | exact Hout].
Qed.

End Invariant.

End RaisingPdf.

Module RaisingPkg.
Import PyStr Browser Runs Rules PdfFacts Stated Hoare HandlerInv Raising RaisingRules.
Import Harvester.
Local Open Scope list_scope.

Section Facts.
Import ResultInvariant.Pkg.
Variable E : Engine.
Variable C : PageCalls E.
Variables profile DOWNLOAD_DIR SCREENSHOT_DIR : string.
Variable os_bound : bool.

Local Abbreviation St := (Browser.St E ResultDict).
Local Abbreviation guarded_part :=
  (guarded E profile DOWNLOAD_DIR SCREENSHOT_DIR os_bound).

(** The result object [process_url] sets up. *)
Definition fresh (url : string) : ResultDict :=
  mkDict url EmptyString "error" EmptyString EmptyString.

(** The part of [process_url] between the opening of the page and its
    [finally], from a result that reports no download: it returns False
    (the stub) or a well-formed dictionary. *)
Lemma guarded_settles page institution url (s0 : St) :
  pending (obj s0) ->
  exists ret s1,
    guarded_part page institution url s0 = (Ok ret, s1)
    /\ match ret with
       | RetResult r => dict_well_formed r
       | RetFalse => True
       end.
Proof.
  intros Hp0. unfold guarded, try_catch at 1.
  assert (Herr : forall e s, file_path (obj s) = EmptyString ->
            exists s' r, Harvester.on_error E SCREENSHOT_DIR page institution e s
                         = (Ok (RetResult r), s')
                         /\ dict_well_formed r).
  { intros e s Hf. unfold Harvester.on_error.
    do 2 (rewrite run_bind; cbn [modify]). rewrite run_bind.
    match goal with |- context [save_screenshot E _ page ?n ?s0] =>
      destruct (total_run _ s0 (total_save_screenshot E SCREENSHOT_DIR page n))
        as (o & s1 & H1);
      pose proof (steps_run _ _ _ _ _ (core_save_screenshot E SCREENSHOT_DIR page n) H1)
        as Hc end.
    rewrite H1. do 2 eexists. split; [reflexivity|].
    unfold keeping, core in Hc. inversion Hc as [[Hst Hfp]].
    apply dict_pending_well_formed; [right; right; left; congruence | congruence]. }
  rewrite run_bind. unfold load_page at 1, try_catch at 1.
  rewrite run_bind. unfold call at 1.
  destruct (goto E page url (world s0)) as [[response|e] w1].
  2:{ do 2 (rewrite run_bind; cbn [modify]).
      match goal with |- context [bind ?m ?k ?s] =>
        destruct (dict_screenshot_settles E SCREENSHOT_DIR page
                    (institution ++ "_load_error") s)
          as (s' & Hrun & Hwf) end;
        [right; right; now left | apply Hp0 |].
      rewrite run_bind in Hrun. rewrite run_bind.
      match type of Hrun with context [save_screenshot E _ page ?n ?s0] =>
        destruct (save_screenshot E SCREENSHOT_DIR page n s0) as [[o|e'] s1] end;
        [|discriminate].
      inversion Hrun; subst s'.
      do 2 eexists. split; [reflexivity | exact Hwf]. }
  do 2 (rewrite run_bind; cbn [observe modify world trace obj]).
  cbn [ret].
  destruct (_is_pdf_response response).
  { do 2 eexists. split; [reflexivity | exact Logic.I]. }
  rewrite run_bind.
  match goal with |- context [scan_page E _ _ _ _ page institution ?s] =>
    destruct (scan_page_settles E profile DOWNLOAD_DIR SCREENSHOT_DIR os_bound
                page institution s) as (o & s2 & H2 & Hs2) end.
  { exact Hp0. }
  rewrite H2. destruct o as [[]|e].
  - do 2 eexists. split; [reflexivity | exact Hs2].
  - destruct (Herr e s2 (proj2 Hs2)) as (s' & r & Hrun & Hwf). rewrite Hrun.
    do 2 eexists. split; [reflexivity | exact Hwf].
Qed.

(** [process_url] as a whole: it raises what the opening of its page
    raises; otherwise the guarded part runs on the fresh result object, the
    page is closed, and what the close raises replaces the answer. *)
Lemma process_url_run institution url (st : St) :
  (exists e w',
      new_page_call C (world st) = (Raise e, w')
      /\ Pkg.process_url E C profile DOWNLOAD_DIR SCREENSHOT_DIR os_bound
           institution url st
         = (Raise e, mkSt w' (trace st) (obj st)))
  \/ (exists page w0 ret s1,
         new_page_call C (world st) = (Ok page, w0)
         /\ guarded_part page institution url
              (mkSt w0 (trace st ++ [EvNewPage page]) (fresh url))
            = (Ok ret, s1)
         /\ match ret with
            | RetResult r => r = obj s1 /\ dict_well_formed r
            | RetFalse => True
            end
         /\ Pkg.process_url E C profile DOWNLOAD_DIR SCREENSHOT_DIR os_bound
              institution url st
            = (match fst (close_call C page (world s1)) with
               | Ok _ => Ok ret
               | Raise e => Raise e
               end,
               mkSt (snd (close_call C page (world s1)))
                    (trace s1 ++ [EvClose page]) (obj s1))).
Proof.
  change (Pkg.process_url E C profile DOWNLOAD_DIR SCREENSHOT_DIR os_bound
            institution url)
    with (bind (opening C)
            (fun page =>
               bind (modify (fun _ => fresh url))
                    (fun _ => finally_do (guarded_part page institution url)
                                         (close_page C page)))).
  rewrite run_bind.
  destruct (opening_cases C st) as [(page & w0 & Hnew & Hopen)|(e & w0 & Hnew & Hopen)];
    rewrite Hopen.
  2:{ left. now exists e, w0. }
  right. rewrite run_bind. cbn [modify world trace obj].
  match goal with |- context [finally_do _ _ ?s] => set (s0 := s) end.
  destruct (guarded_settles page institution url s0) as (ret & s1 & Hg & Hwf).
  { split; [discriminate | reflexivity]. }
  destruct (guarded_returns_obj E profile DOWNLOAD_DIR SCREENSHOT_DIR os_bound
              page institution url s0) as (o & s1' & Hg' & Hobj).
  rewrite Hg in Hg'. injection Hg' as <- <-.
  exists page, w0, ret, s1. split; [exact Hnew|]. split; [exact Hg|]. split.
  - destruct ret as [r|]; [now split | exact Logic.I].
  - apply finally_close_run. exact Hg.
Qed.

(** Every dictionary [process_url] returns is well formed. *)
Lemma process_url_dict institution url (st st' : St) r :
  Pkg.process_url E C profile DOWNLOAD_DIR SCREENSHOT_DIR os_bound institution url st
  = (Ok (RetResult r), st') ->
  dict_well_formed r.
Proof.
  intros Hrun.
  destruct (process_url_run institution url st)
    as [(e & w' & _ & H)|(page & w0 & ret & s1 & _ & _ & Hret & H)];
    rewrite H in Hrun; [discriminate|].
  destruct (fst (close_call C page (world s1))); [|discriminate].
  injection Hrun as -> _. apply Hret.
Qed.

(** What the guarded part keeps, [process_url] hands over: an invariant of
    the state that holds of the fresh result object and survives the
    handlers holds of the state the dictionary is returned in. *)
Lemma process_url_inv (I : St -> Prop) (ok : Event -> bool) institution url
      (st st' : St) r :
  (forall st w ev, ok ev = true -> I st -> I (mkSt w (trace st ++ [ev]) (obj st))) ->
  (forall ev, handler_event ev = true -> ok ev = true) ->
  (forall (f : ResultDict -> ResultDict) st,
      pipeline_assign f -> I st -> I (mkSt (world st) (trace st) (f (obj st)))) ->
  (forall d institution,
      preserves I (_save_download E DOWNLOAD_DIR os_bound d institution)) ->
  (forall page w0, I (mkSt w0 (trace st ++ [EvNewPage page]) (fresh url))) ->
  Pkg.process_url E C profile DOWNLOAD_DIR SCREENSHOT_DIR os_bound institution url st
  = (Ok (RetResult r), st') ->
  exists s1 page,
    I s1 /\ r = obj s1 /\ trace st' = trace s1 ++ [EvClose page].
Proof.
  intros Hstable Hok Hassign Hsave H0 Hrun.
  destruct (process_url_run institution url st)
    as [(e & w' & _ & H)|(page & w0 & ret & s1 & _ & Hg & Hret & H)];
    rewrite H in Hrun; [discriminate|].
  destruct (fst (close_call C page (world s1))); [|discriminate].
  injection Hrun as -> <-.
  exists s1, page. split; [|split; [apply Hret | reflexivity]].
  exact (hoare_run _ _ _ _ _ _
           (inv_guarded E profile DOWNLOAD_DIR SCREENSHOT_DIR os_bound I ok
              Hstable Hok Hassign Hsave page institution url)
           (H0 page w0) Hg).
Qed.

End Facts.

End RaisingPkg.

(** ** The invariant of a finalized result (claim C3) *)

Module FinalizedResult.
Import PyStr Browser Stated Raising.
Local Open Scope list_scope.

(** The result of the task below: the error status, and the path of the
    file that was saved. *)
Definition kept_file : PdfHarvester.HarvestResult :=
  PdfHarvester.mkResult "Acme Capital" Linked.start_address
    (Some Linked.start_address) "error"
    (Some "downloads/acme_capital_2026.pdf")
    (Some "Error: Page.close: Connection closed")
    ["downloaded_via_click:download full pdf"].



(** The state in which [process_url] returns on [Linked.linked_engine]. *)
Definition outlook_scanned : St Linked.linked_engine Harvester.ResultDict :=
  Eval vm_compute in
    snd (Pkg.process_url Linked.linked_engine Linked.sound_pages "unknown"
           "downloads" "logs/screenshots" Harvester.source_os_bound
           "Acme Capital" Linked.start_address
           (Linked.start (Harvester.mkDict EmptyString EmptyString EmptyString
                                           EmptyString EmptyString))).


End FinalizedResult.

(** ** A reported file was saved *)

Module SavedFile.
Import PyStr Browser Runs Rules PdfFacts Hoare HandlerInv.
Import PdfHarvester.
Local Open Scope list_scope.

(** The one path a task can save to. *)
Definition download_path (inst : string) : string :=
  path_join DOWNLOAD_DIR (PdfUtil.safe_filename inst).

Definition any_entry (e : Event) : bool := true.

Section Inv.
Variable E : Engine.
Variable profile inst : string.
(** The trace at the start of the task. *)
Variable base : list Event.

Local Abbreviation St := (Browser.St E HarvestResult).

(** Since the start of the task [save_as] was called with path [f]. *)
Definition save_called (f : string) (st : St) : Prop :=
  exists evs d, trace st = base ++ evs /\ In (EvSaveAs d f) evs.

(** The file path of the result, when set, is the download path of the
    institution, and [save_as] was called with it. *)
Definition file_saved (st : St) : Prop :=
  (exists evs, trace st = base ++ evs)
  /\ forall f, file_path (obj st) = Some f ->
               f = download_path inst /\ save_called f st.

Lemma save_called_stable f (st : St) w evs o :
  save_called f st -> save_called f (mkSt w (trace st ++ evs) o).
Proof.
  intros (evs0 & d & Ht & Hin). exists (evs0 ++ evs), d. cbn [trace]. split.
  - now rewrite Ht, app_assoc.
  - apply in_or_app. now left.
Qed.

Lemma file_saved_stable (st : St) w ev :
  any_entry ev = true ->
  file_saved st -> file_saved (mkSt w (trace st ++ [ev]) (obj st)).
Proof.
  intros _ [[evs0 Ht] Hf]. split.
  - exists (evs0 ++ [ev]). cbn [trace]. now rewrite Ht, app_assoc.
  - cbn [obj]. intros f Hsome. destruct (Hf f Hsome) as [Hp Hs].
    split; [exact Hp | now apply save_called_stable].
Qed.

Lemma any_entry_handler (ev : Event) : handler_event ev = true -> any_entry ev = true.
Proof. reflexivity. Qed.

Lemma file_saved_assign (f : HarvestResult -> HarvestResult) (st : St) :
  (forall r, file_path (f r) = file_path r) ->
  file_saved st -> file_saved (mkSt (world st) (trace st) (f (obj st))).
Proof.
  intros Hkeep [Ht Hf]. split; [exact Ht|]. cbn [obj]. intros x Hx.
  rewrite Hkeep in Hx. destruct (Hf x Hx) as [Hp (evs & d & He & Hin)].
  split; [exact Hp|]. now exists evs, d.
Qed.

Ltac stable := exact file_saved_stable.
Ltac okev := reflexivity.
Ltac assign := intros ? ?; apply file_saved_assign; [intros ?; reflexivity | assumption].
Ltac facts :=
  solve [ exact file_saved_stable | exact any_entry_handler | exact file_saved_assign ].
Ltac handler :=
  lazymatch goal with
  | |- preserves _ (handle_cookies _ _) => eapply inv_handle_cookies; facts
  | |- preserves _ (close_modals _ _) => eapply inv_close_modals; facts
  | |- preserves _ (resolve_gate _ _ _) => eapply inv_resolve_gate; facts
  | |- preserves _ (open_and_clear _ _ _) => eapply inv_open_and_clear; facts
  | |- preserves _ (last_pdf_url _ _) => eapply inv_last_pdf_url; facts
  | |- preserves _ (collect_candidate_links _ _) =>
      eapply inv_collect_candidate_links; facts
  | |- preserves _ (on_error _ _ _ _) => eapply inv_on_error; facts
  end.
Ltac saved_with known := inv_with stable okev assign ltac:(first [known | handler]).
Ltac saved_auto := saved_with fail.

Local Abbreviation keeps m := (preserves file_saved m).

(** The state after a run of the trigger that returned [out]. *)
Definition ready (out : option string) (st : St) : Prop :=
  file_saved st
  /\ match out with
     | Some o => o = download_path inst /\ save_called o st
     | None => True
     end.

Definition after_trigger (o : outcome (option string)) (st : St) : Prop :=
  match o with
  | Ok out => ready out st
  | Raise _ => file_saved st
  end.

Lemma saved_trigger q : hoare file_saved (try_download_event E q inst) after_trigger.
Proof.
  intros st [[evs0 Ht] Hf].
  destruct (Trigger.try_download_event_run E q inst st)
    as (o & st' & evs & Hrun & Htr & Hres).
  rewrite Hrun. cbn [fst snd after_trigger].
  assert (Hobj : file_path (obj st') = file_path (obj st)).
  { destruct o as [out|]; cbn [Trigger.trigger_result] in Hres.
    - destruct Hres as (_ & hint & pre & role & d & _ & _ & ->). reflexivity.
    - now rewrite Hres. }
  assert (HJ : file_saved st').
  { split.
    - exists (evs0 ++ EvEnter CDownload :: evs). now rewrite Htr, Ht, app_assoc.
    - intros f Hsome. rewrite Hobj in Hsome.
      destruct (Hf f Hsome) as [Hp (e1 & d & He & Hin)].
      split; [exact Hp|]. exists (e1 ++ EvEnter CDownload :: evs), d. split.
      + now rewrite Htr, He, app_assoc.
      + apply in_or_app. now left. }
  split; [exact HJ|].
  destruct o as [out|]; [|exact I].
  destruct Hres as (Hout & hint & pre & role & d & _ & Hevs & _).
  split; [exact Hout|].
  exists (evs0 ++ EvEnter CDownload :: evs), d. split.
  - now rewrite Htr, Ht, app_assoc.
  - apply in_or_app. right. right. rewrite Hevs. apply in_or_app. right.
    right. right. now left.
Qed.

Lemma ready_set_file_path (o : string) (st : St) (f : HarvestResult -> HarvestResult) :
  (forall r, file_path (f r) = Some o) ->
  ready (Some o) st -> file_saved (mkSt (world st) (trace st) (f (obj st))).
Proof.
  intros Hset [[Ht _] [Hp (evs & d & He & Hin)]]. split; [exact Ht|].
  cbn [obj]. intros x Hx. rewrite Hset in Hx. injection Hx as <-.
  split; [exact Hp|]. now exists evs, d.
Qed.

Lemma saved_mark_downloaded (o : string) (q : PageId) :
  hoare (ready (Some o)) (mark_downloaded E o q) (fun _ => file_saved).
Proof.
  intros st Hr. unfold mark_downloaded, bind, modify, observe.
  cbn [fst snd world trace obj].
  apply (ready_set_file_path o st
           (fun r => set_final_url (page_url E q (world st))
                       (set_file_path o (set_status "downloaded" r)))); auto.
Qed.

(** Running the trigger and going on with its answer. *)
Lemma saved_after_trigger {B} (trigger : M (E:=E) (R:=HarvestResult) (option string))
      (k : option string -> M (E:=E) (R:=HarvestResult) B) :
  hoare file_saved trigger after_trigger ->
  (forall o, hoare (ready (Some o)) (k (Some o)) (fun _ => file_saved)) ->
  keeps (k None) ->
  keeps (bind trigger k).
Proof.
  intros Ht Hsome Hnone.
  eapply hoare_bind; [exact Ht | | auto].
  intros [o|]; [apply Hsome|].
  eapply hoare_weaken; [exact Hnone | | auto]. now intros st [H _].
Qed.

Lemma saved_mark_then {B} (o : string) (q : PageId) (b : B) :
  hoare (ready (Some o)) (bind (mark_downloaded E o q) (fun _ => ret b))
        (fun _ => file_saved).
Proof.
  eapply hoare_bind; [apply saved_mark_downloaded | | auto].
  intros ?. apply pres_ret.
Qed.

Lemma saved_follow_pdf_url q url :
  keeps url -> keeps (follow_pdf_url E q inst url).
Proof.
  intros Hurl. unfold follow_pdf_url.
  eapply pres_finally; [stable | okev |].
  apply pres_try; [|intros; apply pres_ret].
  apply pres_bind; [exact Hurl|]. intros u.
  apply pres_bind; [saved_auto|]. intros _.
  apply pres_bind; [saved_auto|]. intros _.
  apply saved_after_trigger; [apply saved_trigger | | apply pres_ret].
  intros o. apply saved_mark_then.
Qed.

Lemma saved_visit_candidate p2 cand :
  keeps (visit_candidate E profile p2 inst cand).
Proof.
  unfold visit_candidate.
  eapply pres_finally; [stable | okev |].
  apply pres_try; [|intros; apply pres_ret].
  apply pres_bind; [saved_auto|]. intros _.
  apply pres_bind; [saved_auto|]. intros _.
  apply pres_bind; [handler|]. intros _.
  apply pres_bind; [handler|]. intros _.
  apply pres_bind; [handler|]. intros g.
  destruct (negb (fst g)); [apply pres_ret|].
  apply saved_after_trigger; [apply saved_trigger | |].
  - intros o. apply saved_mark_then.
  - apply pres_bind; [handler|]. intros s2.
    destruct (truthy s2); [|apply pres_ret].
    apply pres_bind; [saved_auto|]. intros p3.
    apply saved_follow_pdf_url. handler.
Qed.

Lemma saved_crawl candidates : keeps (crawl E profile inst candidates).
Proof.
  induction candidates as [|c rest IH]; simpl; [apply pres_ret|].
  apply pres_bind; [saved_auto|]. intros p2.
  apply pres_bind; [apply saved_visit_candidate|].
  intros [|]; [apply pres_ret | exact IH].
Qed.

Lemma saved_click_then_crawl page : keeps (click_then_crawl E profile page inst).
Proof.
  unfold click_then_crawl.
  apply saved_after_trigger; [apply saved_trigger | |].
  - intros o. apply saved_mark_downloaded.
  - apply pres_bind; [handler|]. intros s.
    apply pres_bind.
    { destruct (truthy s); [|apply pres_ret].
      apply pres_bind; [saved_auto|]. intros p2.
      apply saved_follow_pdf_url, pres_ret. }
    intros [|]; [apply pres_ret|].
    apply pres_bind; [handler|]. intros cands.
    apply pres_bind; [apply saved_crawl|].
    intros [|]; [apply pres_ret|]. saved_auto.
Qed.

Lemma saved_after_gate page g : keeps (after_gate E profile page inst g).
Proof.
  unfold after_gate. destruct g as [handled note].
  destruct (negb handled); [saved_auto|].
  apply pres_bind; [apply pres_observe|]. intros u.
  apply pres_bind; [apply pres_modify; assign|]. intros _.
  apply pres_bind; [handler|]. intros s.
  apply saved_after_trigger.
  - destruct (PdfUtil.is_pdf_url u || truthy s); [apply saved_trigger|].
    intros st H. split; [exact H | exact I].
  - intros o st Hr. unfold bind, modify. cbn [fst snd world trace obj].
    apply (ready_set_file_path o st
             (fun r => set_file_path o (set_status "downloaded" r))); auto.
  - apply saved_click_then_crawl.
Qed.

Lemma saved_guarded_task url : keeps (Labels.guarded_task E profile inst url).
Proof.
  unfold Labels.guarded_task.
  apply pres_bind; [saved_auto|]. intros page.
  apply pres_bind; [|intros; apply pres_get_obj].
  eapply pres_finally; [stable | okev |].
  apply pres_try; [|intros e; handler].
  apply pres_bind; [handler|]. intros _.
  apply pres_bind; [handler|]. intros g.
  apply saved_after_gate.
Qed.

End Inv.

Lemma download_path_nonempty (inst : string) : download_path inst <> EmptyString.
Proof. discriminate. Qed.

Lemma harvest_one_saved (E : Engine) (profile inst url : string)
      (st : St E HarvestResult) :
  exists r st' evs,
    harvest_one E profile inst url st = (Ok r, st')
    /\ trace st' = trace st ++ evs
    /\ (forall f, file_path r = Some f ->
          f = download_path inst
          /\ exists d, In (EvSaveAs d f) evs)
    /\ (status r = "downloaded"%string -> file_path r = Some (download_path inst)).
Proof.
  change (harvest_one E profile inst url)
    with (bind (modify (fun _ => new_result inst url))
               (fun _ => Labels.guarded_task E profile inst url)).
  rewrite run_bind. cbn [modify].
  match goal with |- context [Labels.guarded_task E profile inst url ?s] =>
    set (s0 := s) end.
  destruct (Labels.guarded_task_returns_obj E profile inst url s0) as [st' Hrun].
  assert (H0 : file_saved E inst (trace st) s0).
  { split; [exists []; now rewrite app_nil_r | discriminate]. }
  pose proof (hoare_run _ _ _ _ _ _
                (saved_guarded_task E profile inst (trace st) url) H0 Hrun)
    as [[evs Ht] Hf].
  destruct (ResultInvariant.Pdf.harvest_one_well_formed E profile inst url st)
    as (r & st1 & Hrun1 & _ & Hwf).
  change (harvest_one E profile inst url)
    with (bind (modify (fun _ => new_result inst url))
               (fun _ => Labels.guarded_task E profile inst url)) in Hrun1.
  rewrite run_bind in Hrun1. cbn [modify] in Hrun1. fold s0 in Hrun1.
  rewrite Hrun in Hrun1. injection Hrun1 as <- <-.
  rewrite Hrun. exists (obj st'), st', evs.
  split; [reflexivity|]. split; [exact Ht|].
  assert (Hsaved : forall f, file_path (obj st') = Some f ->
                     f = download_path inst /\ exists d, In (EvSaveAs d f) evs).
  { intros f Hsome. destruct (Hf f Hsome) as [Hp (evs1 & d & He & Hin)].
    split; [exact Hp|]. exists d. rewrite Ht in He.
    apply app_inv_head in He. now subst evs1. }
  split; [exact Hsaved|].
  intros Hs. apply Hwf in Hs as (f & Hsome & _).
  destruct (Hsaved f Hsome) as [-> _]. exact Hsome.
Qed.


End SavedFile.

(** ** Pages are closed *)

Module Pages.
Import PyStr Browser Runs Rules Hoare HandlerInv.
Local Open Scope list_scope.

(** The pages open after the entries [evs], from the pages [stack] open
    before them, the most recent first; [None] when a page is closed that is
    not the most recently opened one. *)
Fixpoint run_pages (evs : list Event) (stack : list PageId)
  : option (list PageId) :=
  match evs with
  | [] => Some stack
  | EvNewPage p :: rest => run_pages rest (p :: stack)
  | EvClose p :: rest =>
      match stack with
      | q :: s => if Nat.eqb q p then run_pages rest s else None
      | [] => None
      end
  | _ :: rest => run_pages rest stack
  end.

Definition page_free (e : Event) : bool :=
  match e with
  | EvNewPage _ | EvClose _ => false
  | _ => true
  end.

Lemma run_pages_app (evs1 evs2 : list Event) :
  forall s,
    run_pages (evs1 ++ evs2) s
    = match run_pages evs1 s with
      | Some s' => run_pages evs2 s'
      | None => None
      end.
Proof.
  induction evs1 as [|e evs1 IH]; intros s; [reflexivity|].
  destruct e; cbn [app run_pages]; try apply IH.
  destruct s as [|q s]; [reflexivity|]. destruct (Nat.eqb q p); [apply IH | reflexivity].
Qed.

Lemma page_free_handler (ev : Event) :
  handler_event ev = true -> page_free ev = true.
Proof. destruct ev; simpl; congruence. Qed.

Section Inv.
Context {E : Engine} {R : Type}.
(** The trace at the start of the task. *)
Variable base : list Event.

Local Abbreviation M := (@Browser.M E R).
Local Abbreviation St := (Browser.St E R).

(** Of the pages opened since the start, [stack] are still open. *)
Definition pages_open (stack : list PageId) (st : St) : Prop :=
  exists evs, trace st = base ++ evs /\ run_pages evs [] = Some stack.

Lemma po_stable (stack : list PageId) (st : St) w ev :
  page_free ev = true ->
  pages_open stack st -> pages_open stack (mkSt w (trace st ++ [ev]) (obj st)).
Proof.
  intros Hev (evs & Ht & Hr). exists (evs ++ [ev]). cbn [trace]. split.
  - now rewrite Ht, app_assoc.
  - rewrite run_pages_app, Hr. destruct ev; try reflexivity; discriminate.
Qed.

Lemma po_assign (stack : list PageId) (f : R -> R) (st : St) :
  pages_open stack st -> pages_open stack (mkSt (world st) (trace st) (f (obj st))).
Proof. intros H. exact H. Qed.

Lemma po_close (stack : list PageId) (p : PageId) (st : St) :
  pages_open (p :: stack) st -> pages_open stack (closing p st).
Proof.
  intros (evs & Ht & Hr). exists (evs ++ [EvClose p]). cbn [closing trace]. split.
  - now rewrite Ht, app_assoc.
  - rewrite run_pages_app, Hr. cbn [run_pages]. now rewrite Nat.eqb_refl.
Qed.

(** A page that is opened and handed to a scope that closes it. *)
Lemma po_scoped {A} (stack : list PageId) (k : PageId -> M A) :
  (forall p, hoare (pages_open (p :: stack)) (k p) (fun _ => pages_open stack)) ->
  preserves (pages_open stack) (bind open_page k).
Proof.
  intros Hk st (evs & Ht & Hr). unfold bind, open_page.
  destruct (new_page E (world st)) as [p w]. apply Hk.
  exists (evs ++ [EvNewPage p]). cbn [trace]. split.
  - now rewrite Ht, app_assoc.
  - rewrite run_pages_app, Hr. reflexivity.
Qed.

Lemma po_finally {A} (stack : list PageId) (p : PageId) (m : M A) :
  preserves (pages_open (p :: stack)) m ->
  hoare (pages_open (p :: stack)) (finally m (closing p)) (fun _ => pages_open stack).
Proof.
  intros Hm. eapply hoare_finally; [exact Hm|]. intros o st. apply po_close.
Qed.

Lemma po_then {A B} (stack : list PageId) (p : PageId) (m : M A) (k : A -> M B) :
  hoare (pages_open (p :: stack)) m (fun _ => pages_open stack) ->
  (forall a, preserves (pages_open stack) (k a)) ->
  hoare (pages_open (p :: stack)) (bind m k) (fun _ => pages_open stack).
Proof. intros Hm Hk. eapply hoare_bind; [exact Hm | exact Hk | auto]. Qed.

End Inv.

Ltac stable := exact (po_stable _ _).
Ltac okev := reflexivity.
Ltac assign := intros ? ?; assumption.

Section Pdf.
Import PdfHarvester.
Variable E : Engine.
Variable profile inst : string.
Variable base : list Event.

Local Abbreviation opened s := (pages_open (E:=E) (R:=HarvestResult) base s).

Ltac facts :=
  solve [ exact (po_stable base _)
        | exact page_free_handler
        | intros ? ? _ ?; apply po_assign; assumption ].
Ltac handler :=
  lazymatch goal with
  | |- preserves _ (click_by_text _ _ _ _) => eapply inv_click_by_text; facts
  | |- preserves _ (handle_cookies _ _) => eapply inv_handle_cookies; facts
  | |- preserves _ (close_modals _ _) => eapply inv_close_modals; facts
  | |- preserves _ (resolve_gate _ _ _) => eapply inv_resolve_gate; facts
  | |- preserves _ (open_and_clear _ _ _) => eapply inv_open_and_clear; facts
  | |- preserves _ (last_pdf_url _ _) => eapply inv_last_pdf_url; facts
  | |- preserves _ (collect_candidate_links _ _) =>
      eapply inv_collect_candidate_links; facts
  | |- preserves _ (on_error _ _ _ _) => eapply inv_on_error; facts
  end.
Ltac po_with known := inv_with stable okev assign ltac:(first [known | handler]).
Ltac po_auto := po_with fail.

Lemma po_try_hints s p hints : preserves (opened s) (try_hints E p inst hints).
Proof.
  induction hints as [|h rest IH]; simpl; [po_auto|].
  unfold try_hint. po_with ltac:(exact IH).
Qed.

Lemma po_try_download_event s p : preserves (opened s) (try_download_event E p inst).
Proof. unfold try_download_event. po_with ltac:(apply po_try_hints). Qed.

Lemma po_mark_downloaded s o q : preserves (opened s) (mark_downloaded E o q).
Proof. unfold mark_downloaded. po_auto. Qed.

Lemma po_follow_pdf_url s q url :
  preserves (opened (q :: s)) url ->
  hoare (opened (q :: s)) (follow_pdf_url E q inst url) (fun _ => opened s).
Proof.
  intros Hurl. unfold follow_pdf_url. apply po_finally.
  po_with ltac:(first [ exact Hurl | apply po_try_download_event
                      | apply po_mark_downloaded ]).
Qed.

Lemma po_visit_candidate s p2 cand :
  hoare (opened (p2 :: s)) (visit_candidate E profile p2 inst cand)
        (fun _ => opened s).
Proof.
  unfold visit_candidate. apply po_finally.
  po_with
    ltac:(first [ apply po_try_download_event | apply po_mark_downloaded
                | lazymatch goal with
                  | |- preserves _ (bind open_page _) =>
                      apply po_scoped; intros ?; apply po_follow_pdf_url; handler
                  end ]).
Qed.

Lemma po_crawl s candidates : preserves (opened s) (crawl E profile inst candidates).
Proof.
  induction candidates as [|c rest IH]; simpl; [apply pres_ret|].
  apply po_scoped. intros p2.
  apply po_then; [apply po_visit_candidate|].
  intros [|]; [apply pres_ret | exact IH].
Qed.

Lemma po_click_then_crawl s page :
  preserves (opened s) (click_then_crawl E profile page inst).
Proof.
  unfold click_then_crawl.
  po_with
    ltac:(first [ apply po_try_download_event | apply po_mark_downloaded
                | apply po_crawl
                | lazymatch goal with
                  | |- preserves _ (bind open_page _) =>
                      apply po_scoped; intros ?; apply po_follow_pdf_url;
                      apply pres_ret
                  end ]).
Qed.

Lemma po_after_gate s page g :
  preserves (opened s) (after_gate E profile page inst g).
Proof.
  unfold after_gate.
  po_with ltac:(first [ apply po_try_download_event | apply po_click_then_crawl ]).
Qed.

Lemma po_guarded_task s url :
  preserves (opened s) (Labels.guarded_task E profile inst url).
Proof.
  unfold Labels.guarded_task. apply po_scoped. intros page.
  apply po_then; [|intros; apply pres_get_obj].
  apply po_finally.
  po_with ltac:(apply po_after_gate).
Qed.

End Pdf.

Section Pkg.
Import Harvester.
Variable E : Engine.
Variables profile DOWNLOAD_DIR SCREENSHOT_DIR : string.
Variable os_bound : bool.
Variable base : list Event.

Local Abbreviation opened s := (pages_open (E:=E) (R:=ResultDict) base s).

Lemma po_save_download s d institution :
  preserves (opened s) (_save_download E DOWNLOAD_DIR os_bound d institution).
Proof.
  unfold _save_download, harvester_os_path_join.
  inv_with stable okev assign fail.
Qed.

Lemma po_guarded s page institution url :
  preserves (opened s)
    (guarded E profile DOWNLOAD_DIR SCREENSHOT_DIR os_bound page institution url).
Proof.
  eapply inv_guarded.
  - exact (po_stable base s).
  - exact page_free_handler.
  - intros f st _ H. apply po_assign. exact H.
  - intros d institution'. apply po_save_download.
Qed.

Lemma po_process_url s institution url :
  preserves (opened s)
    (process_url E profile DOWNLOAD_DIR SCREENSHOT_DIR os_bound institution url).
Proof.
  change (process_url E profile DOWNLOAD_DIR SCREENSHOT_DIR os_bound institution url)
    with (bind open_page
            (fun page =>
               bind (modify (fun _ => mkDict url EmptyString "error" EmptyString EmptyString))
                    (fun _ =>
                       finally
                         (guarded E profile DOWNLOAD_DIR SCREENSHOT_DIR os_bound
                                  page institution url)
                         (closing page)))).
  apply po_scoped. intros page.
  intros st H. unfold bind at 1. cbn [modify].
  apply (po_finally base s page); [apply po_guarded | exact H].
Qed.

End Pkg.


End Pages.

(** ** The package never downloads; gate answers; PDF responses; the task loops *)

Module NeverSaved.
Import PyStr Browser Runs Rules PdfFacts Hoare HandlerInv Stated Raising.
Import Harvester.
Local Open Scope list_scope.

Definition no_save (e : Event) : bool :=
  match e with
  | EvSaveAs _ _ => false
  | _ => true
  end.

Lemma no_save_handler (ev : Event) : handler_event ev = true -> no_save ev = true.
Proof. destruct ev; simpl; congruence. Qed.

Section Inv.
Variable E : Engine.
Variables profile DOWNLOAD_DIR SCREENSHOT_DIR : string.
Variable base : list Event.

Local Abbreviation St := (Browser.St E ResultDict).

(** Nothing was saved since the start of the task and the result reports
    no download. *)
Definition unsaved (st : St) : Prop :=
  status (obj st) <> "downloaded"%string
  /\ file_path (obj st) = EmptyString
  /\ exists evs, trace st = base ++ evs /\ forallb no_save evs = true.

Lemma unsaved_stable (st : St) w ev :
  no_save ev = true -> unsaved st -> unsaved (mkSt w (trace st ++ [ev]) (obj st)).
Proof.
  intros Hev (Hs & Hf & evs & Ht & Hall). split; [exact Hs|]. split; [exact Hf|].
  exists (evs ++ [ev]). cbn [trace]. split.
  - now rewrite Ht, app_assoc.
  - rewrite forallb_app, Hall. simpl. now rewrite Hev.
Qed.

Lemma unsaved_assign (f : ResultDict -> ResultDict) (st : St) :
  pipeline_assign f -> unsaved st ->
  unsaved (mkSt (world st) (trace st) (f (obj st))).
Proof.
  intros (_ & Hfile & Hstatus) (Hs & Hf & Hev). split; [now apply Hstatus|].
  split; [cbn [obj]; now rewrite Hfile | exact Hev].
Qed.

Lemma unsaved_save_download d institution :
  preserves unsaved (_save_download E DOWNLOAD_DIR source_os_bound d institution).
Proof.
  intros st H.
  now rewrite (DownloadTrigger.save_download_name_error E DOWNLOAD_DIR institution d st).
Qed.

Lemma unsaved_guarded page institution url :
  preserves unsaved
    (guarded E profile DOWNLOAD_DIR SCREENSHOT_DIR source_os_bound page institution url).
Proof.
  eapply inv_guarded.
  - exact unsaved_stable.
  - exact no_save_handler.
  - exact unsaved_assign.
  - exact unsaved_save_download.
Qed.

End Inv.

(** X19.  [process_url] as the source has it ([os] is not bound in
    harvester.py) never downloads, whatever the opening and the closing of
    its page do: it never calls [save_as], and a dictionary it returns has
    an empty file path and one of the statuses manual_required, not_found
    and error. *)
Theorem process_url_saves_nothing
        (E : Engine) (C : PageCalls E)
        (profile download_dir screenshot_dir institution url : string)
        (st : St E ResultDict) :
  (exists evs,
      trace (snd (Pkg.process_url E C profile download_dir screenshot_dir
                    source_os_bound institution url st))
      = trace st ++ evs
      /\ forallb no_save evs = true)
  /\ match fst (Pkg.process_url E C profile download_dir screenshot_dir
                  source_os_bound institution url st) with
     | Ok (RetResult r) =>
         In (status r) ["manual_required"; "not_found"; "error"]%string
         /\ file_path r = EmptyString
     | Ok RetFalse | Raise _ => True
     end.
Proof.
  destruct (RaisingPkg.process_url_run E C profile download_dir screenshot_dir
              source_os_bound institution url st)
    as [(e & w' & _ & H)|(page & w0 & ret & s1 & _ & Hg & Hret & H)];
    rewrite H; cbn [fst snd trace].
  { split; [|exact I]. exists []. split; [now rewrite app_nil_r | reflexivity]. }
  assert (H0 : unsaved E (trace st)
                 (mkSt w0 (trace st ++ [EvNewPage page]) (RaisingPkg.fresh url))).
  { split; [discriminate|]. split; [reflexivity|].
    exists [EvNewPage page]. split; reflexivity. }
  pose proof (hoare_run _ _ _ _ _ _
                (unsaved_guarded E profile download_dir screenshot_dir (trace st)
                   page institution url) H0 Hg)
    as (Hs & Hf & evs & Ht & Hall).
  split.
  - exists (evs ++ [EvClose page]). split; [now rewrite Ht, app_assoc|].
    rewrite forallb_app, Hall. reflexivity.
  - destruct (fst (close_call C page (world s1))); [|exact I].
    destruct ret as [r|]; [|exact I].
    destruct Hret as [-> [Hin _]]. split; [|exact Hf].
    destruct Hin as [Hd|Hin]; [|exact Hin]. now symmetry in Hd.
Qed.

End NeverSaved.

Module PkgGate.
Import PyStr Browser Runs Rules.
Import Harvester.
Local Open Scope list_scope.


End PkgGate.

Module PdfResponse.
Import PyStr Browser Runs Rules.
Import Harvester.
Local Open Scope list_scope.

Lemma process_url_direct_pdf
      (E : Engine) (profile download_dir screenshot_dir : string) (os_bound : bool)
      (institution url : string) (st : St E ResultDict) page w0 response w1 :
  new_page E (world st) = (page, w0) ->
  goto E page url w0 = (Ok response, w1) ->
  _is_pdf_response response = true ->
  process_url E profile download_dir screenshot_dir os_bound institution url st
  = (Ok RetFalse,
     mkSt (close E page w1)
          (trace st ++ [EvNewPage page; EvGoto page url; EvClose page])
          (mkDict url (page_url E page w1) "error" EmptyString EmptyString)).
Proof.
  intros Hnew Hgoto Hpdf.
  unfold process_url, load_page, _handle_direct_pdf_download.
  unfold finally, try_catch, bind, modify, open_page, call, observe, get_obj, ret, closing.
  cbn [world trace obj]. rewrite Hnew. cbn [world trace obj]. rewrite Hgoto.
  cbn [world trace obj]. rewrite Hpdf. cbn [world trace obj].
  repeat (rewrite <- app_assoc; cbn [app]). reflexivity.
Qed.


Definition pdf_address : string := "https://example.org/outlook-2026.pdf".

Definition blank_start : St Fake.fake_engine ResultDict :=
  Fake.start (Fake.page_with "Outlook 2026" [] [] [])
             (mkDict EmptyString EmptyString EmptyString EmptyString EmptyString).

Definition pdf_opened : Fake.FakeWorld :=
  Eval vm_compute in snd (new_page Fake.fake_engine (world blank_start)).

Definition pdf_loaded : Fake.FakeWorld :=
  Eval vm_compute in snd (goto Fake.fake_engine 0 pdf_address pdf_opened).


End PdfResponse.

Module Loops.
Import PyStr Browser Runs Rules PdfFacts Hoare HandlerInv Stated Raising.
Local Open Scope list_scope.

(** *** The loop of [main] in [pdf_harvester.py] *)

Definition named (r : PdfHarvester.HarvestResult) : string * string :=
  (PdfHarvester.institution r, PdfHarvester.start_url r).

Lemma harvest_all_run (E : Engine) (C : PageCalls E) (profile : string)
      (urls : list (string * string)) :
  close_returns C ->
  forall st : St E PdfHarvester.HarvestResult,
  exists o st',
    Pdf.harvest_all E C profile urls st = (o, st')
    /\ match o with
       | Ok results =>
           map named results = urls /\ Forall RaisingPdf.closed_out results
       | Raise e => exists w w', new_page_call C w = (Raise e, w')
       end.
Proof.
  intros Hclose. induction urls as [|[inst url] rest IH]; intros st.
  - exists (Ok []), st. repeat split; constructor.
  - cbn [Pdf.harvest_all]. rewrite run_bind.
    destruct (RaisingPdf.harvest_one_closed_out E C profile Hclose inst url st)
      as (o & s1 & H1 & Hres).
    rewrite H1. destruct o as [r|e].
    2:{ do 2 eexists. split; [reflexivity|]. destruct Hres as [w' Hw].
        now exists (world st), w'. }
    destruct (RaisingPdf.harvest_one_named E C profile inst url st s1 r H1)
      as [Hi Hu].
    rewrite run_bind.
    destruct (IH s1) as (o & s2 & H2 & Hrest). rewrite H2.
    destruct o as [results|e].
    + exists (Ok (r :: results)), s2. split; [reflexivity|].
      destruct Hrest as [Hmap Hall]. split.
      * cbn [map]. unfold named at 1. now rewrite Hi, Hu, Hmap.
      * now constructor.
    + exists (Raise e), s2. split; [reflexivity | exact Hrest].
Qed.

Lemma failed_closed_out (results : list PdfHarvester.HarvestResult) :
  Forall RaisingPdf.closed_out results ->
  Forall (fun r => PdfHarvester.file_path r = None
                   /\ In (PdfHarvester.status r)
                         ["manual_required"; "not_found"; "error"]%string)
         (PdfMain.failed results).
Proof.
  intros Hall. apply Forall_forall. intros r Hin.
  unfold PdfMain.failed in Hin. apply filter_In in Hin as [Hin Hs].
  rewrite Forall_forall in Hall.
  apply negb_true_iff, String.eqb_neq in Hs.
  destruct (Hall r Hin) as [[Hd _]|[Hst Hf]]; [contradiction | now split].
Qed.

(** X22.  When no [page.close()] raises, the loop of [main] in
    pdf_harvester.py either yields one result per input pair, in input
    order, each naming the institution and address of its pair and each
    well formed, or raises what a [context.new_page()] raised.  The results
    [write_reports] lists as failed carry no file path and one of the
    statuses manual_required, not_found and error. *)
Theorem harvest_all_results (E : Engine) (C : PageCalls E) (profile : string)
        (urls : list (string * string)) (st : St E PdfHarvester.HarvestResult) :
  close_returns C ->
  exists o st',
    Pdf.harvest_all E C profile urls st = (o, st')
    /\ match o with
       | Ok results =>
           map named results = urls
           /\ Forall result_well_formed results
           /\ Forall (fun r => PdfHarvester.file_path r = None
                               /\ In (PdfHarvester.status r)
                                     ["manual_required"; "not_found"; "error"]%string)
                     (PdfMain.failed results)
       | Raise e => exists w w', new_page_call C w = (Raise e, w')
       end.
Proof.
  intros Hclose.
  destruct (harvest_all_run E C profile urls Hclose st) as (o & st' & Hrun & Hres).
  exists o, st'. split; [exact Hrun|].
  destruct o as [results|e]; [|exact Hres].
  destruct Hres as [Hmap Hall]. split; [exact Hmap|]. split.
  - eapply Forall_impl; [|exact Hall]. apply RaisingPdf.closed_out_well_formed.
  - now apply failed_closed_out.
Qed.

(** The theorem at work on [Linked.linked_engine] with pages that open and
    close. *)
Lemma harvest_all_results_witness :
  exists o st',
    Pdf.harvest_all Linked.linked_engine Linked.sound_pages "unknown"
      [("Acme Capital", Linked.start_address)]
      (Linked.start (PdfHarvester.new_result EmptyString EmptyString))
    = (o, st')
    /\ match o with
       | Ok results =>
           map named results = [("Acme Capital", Linked.start_address)]
           /\ Forall result_well_formed results
           /\ Forall (fun r => PdfHarvester.file_path r = None
                               /\ In (PdfHarvester.status r)
                                     ["manual_required"; "not_found"; "error"]%string)
                     (PdfMain.failed results)
       | Raise e =>
           exists w w', new_page_call Linked.sound_pages w = (Raise e, w')
       end.
Proof.
  apply (harvest_all_results Linked.linked_engine Linked.sound_pages "unknown"
           [("Acme Capital", Linked.start_address)]
           (Linked.start (PdfHarvester.new_result EmptyString EmptyString))).
  intros p w. exists w. reflexivity.
Defined.

(** *** The loop of [main] in [main.py] *)

Section Pkg.
Import Harvester.
Variable E : Engine.
Variables profile DOWNLOAD_DIR SCREENSHOT_DIR : string.
Variable os_bound : bool.
Variable iso_now : World E -> string.

Local Abbreviation St := (Browser.St E ResultDict).

(** The result object still holds the address the task was given. *)
Definition started_at (url : string) (st : St) : Prop := start_url (obj st) = url.

Lemma started_stable url (st : St) w ev :
  any_event ev = true ->
  started_at url st -> started_at url (mkSt w (trace st ++ [ev]) (obj st)).
Proof. intros _ H. exact H. Qed.

Lemma started_assign url (f : ResultDict -> ResultDict) (st : St) :
  pipeline_assign f -> started_at url st ->
  started_at url (mkSt (world st) (trace st) (f (obj st))).
Proof. intros (Hstart & _) H. unfold started_at. cbn [obj]. now rewrite Hstart. Qed.

Lemma started_save_download url d institution :
  preserves (started_at url) (_save_download E DOWNLOAD_DIR os_bound d institution).
Proof.
  unfold _save_download, harvester_os_path_join.
  inv_with ltac:(exact (started_stable url)) ltac:(reflexivity)
           ltac:(intros ? H; exact H) fail.
Qed.

Definition subscript_error : string := "TypeError: 'bool' object is not subscriptable".

End Pkg.

Section Rows.
Import Harvester.
Variable E : Engine.
Variable C : PageCalls E.
Variables profile DOWNLOAD_DIR SCREENSHOT_DIR : string.
Variable os_bound : bool.
Variable iso_now : World E -> string.

Local Abbreviation St := (Browser.St E ResultDict).

(** The exception was raised by a [new_page()] or by a [close()]. *)
Definition raised_by_page_call (e : string) : Prop :=
  (exists w w', new_page_call C w = (Raise e, w'))
  \/ (exists p w w', close_call C p w = (Raise e, w')).

Lemma process_url_outcome institution url (st : St) :
  match fst (Pkg.process_url E C profile DOWNLOAD_DIR SCREENSHOT_DIR os_bound
               institution url st) with
  | Ok (RetResult r) => start_url r = url
  | Ok RetFalse => True
  | Raise e => raised_by_page_call e
  end.
Proof.
  destruct (Pkg.process_url E C profile DOWNLOAD_DIR SCREENSHOT_DIR os_bound
              institution url st) as [o st'] eqn:Hrun. cbn [fst].
  destruct o as [[r|]|e]; [| exact I |].
  - destruct (RaisingPkg.process_url_inv E C profile DOWNLOAD_DIR SCREENSHOT_DIR
                os_bound (started_at E url) any_event institution url st st' r
                (started_stable E url) (fun ev _ => eq_refl) (started_assign E url)
                (started_save_download E DOWNLOAD_DIR os_bound url)
                (fun page w0 => eq_refl) Hrun)
      as (s1 & page & Hs & -> & _).
    exact Hs.
  - destruct (RaisingPkg.process_url_run E C profile DOWNLOAD_DIR SCREENSHOT_DIR
                os_bound institution url st)
      as [(e' & w' & Hnew & H)|(page & w0 & ret & s1 & _ & _ & _ & H)];
      rewrite H in Hrun.
    + injection Hrun as -> _. left. now exists (world st), w'.
    + destruct (close_call C page (world s1)) as [[[]|e'] w2] eqn:Hc;
        cbn [fst] in Hrun; [discriminate|].
      injection Hrun as -> _. right. now exists page, (world s1), w2.
Qed.

(** The rows of the input table that are processed, with their address. *)
Definition processed (rows : list (string * Pkg.Cell)) : list (string * string) :=
  flat_map (fun row =>
              match snd row with
              | Pkg.CellText u =>
                  if HarvesterMain.is_blank (Some u) then [] else [(fst row, u)]
              | _ => []
              end) rows.

Definition attribute_error (type_name : string) : string :=
  "AttributeError: '" ++ type_name ++ "' object has no attribute 'strip'".

Lemma process_rows_run (rows : list (string * Pkg.Cell)) :
  forall st : St,
    match fst (Pkg.process_rows E C profile DOWNLOAD_DIR SCREENSHOT_DIR os_bound
                 iso_now rows st) with
    | Ok summary =>
        map (fun row => (HarvesterMain.Institution row, HarvesterMain.Start_URL row))
            summary
        = processed rows
    | Raise e =>
        e = subscript_error
        \/ (exists type_name, e = attribute_error type_name)
        \/ raised_by_page_call e
    end.
Proof.
  induction rows as [|[institution [|u|type_name]] rest IH]; intros st.
  - reflexivity.
  - cbn [Pkg.process_rows processed flat_map fst snd]. apply IH.
  - cbn [Pkg.process_rows processed flat_map fst snd].
    destruct (HarvesterMain.is_blank (Some u)); [apply IH|].
    rewrite run_bind.
    pose proof (process_url_outcome institution u st) as Hret.
    destruct (Pkg.process_url E C profile DOWNLOAD_DIR SCREENSHOT_DIR os_bound
                institution u st) as [[[r|]|e] s1]; cbn [fst] in Hret.
    + rewrite run_bind. cbn [observe]. rewrite run_bind.
      specialize (IH s1).
      destruct (Pkg.process_rows E C profile DOWNLOAD_DIR SCREENSHOT_DIR
                  os_bound iso_now rest s1) as [[summary|e] s2]; cbn [fst] in *.
      * cbv beta iota.
        cbn [ret fst map app HarvesterMain.Institution HarvesterMain.Start_URL].
        now rewrite IH, Hret.
      * exact IH.
    + left. reflexivity.
    + right. right. exact Hret.
  - cbn [Pkg.process_rows fst raise]. right. left. now exists type_name.
Qed.

End Rows.

(** X23.  The loop of [main] in main.py either yields one summary row per input
    row whose address is a string that is not blank, in input order,
    carrying the institution and the address of that row, or raises.  What
    it raises is the TypeError of subscripting the False that [process_url]
    returned, the AttributeError of [url.strip()] on a cell that is neither
    missing nor a string, or what a [new_page()] or a [close()] raised. *)
Theorem process_rows_outcome
        (E : Engine) (C : PageCalls E)
        (profile download_dir screenshot_dir : string) (os_bound : bool)
        (iso_now : World E -> string) (rows : list (string * Pkg.Cell))
        (st : St E Harvester.ResultDict) :
  match fst (Pkg.process_rows E C profile download_dir screenshot_dir os_bound
               iso_now rows st) with
  | Ok summary =>
      map (fun row => (HarvesterMain.Institution row, HarvesterMain.Start_URL row))
          summary
      = processed rows
  | Raise e =>
      e = subscript_error
      \/ (exists type_name, e = attribute_error type_name)
      \/ raised_by_page_call E C e
  end.
Proof. apply process_rows_run. Qed.



End Loops.

(** ** Boundaries of the handlers and the reporting of errors *)

Module Boundaries.
Import PyStr Browser Runs Rules PdfFacts.
Local Open Scope list_scope.

Section Pkg.
Import Harvester.
Variable E : Engine.
Variables DOWNLOAD_DIR SCREENSHOT_DIR : string.
Variable os_bound : bool.

Lemma total_save_download d institution :
  total (_save_download E DOWNLOAD_DIR os_bound d institution).
Proof. unfold _save_download. total_auto. Qed.

Lemma total_try_keywords p institution keywords :
  total (try_keywords E DOWNLOAD_DIR os_bound p institution keywords).
Proof.
  induction keywords as [|k rest IH]; simpl; [total_auto|].
  apply total_bind; [total_auto|]. intros [b|]; [total_auto | exact IH].
Qed.

Lemma total_try_download_buttons p institution :
  total (_try_download_buttons E DOWNLOAD_DIR os_bound p institution).
Proof.
  unfold _try_download_buttons. apply total_bind; [total_auto|]. intros _.
  apply total_try_keywords.
Qed.

End Pkg.

(** X25.  No exception leaves the handlers: [click_by_text], [handle_cookies],
    [handle_linkedin_interstitial], [close_modals], [resolve_gate],
    [try_download_event] and [collect_candidate_links] of pdf_harvester.py,
    and [save_screenshot], [_handle_cookies], [_handle_popups],
    [_try_download_buttons] and [_save_download] of the package, return on
    every page and in every state. *)
Theorem handlers_never_raise (E : Engine) :
  (forall (profile : string) (p : PageId) (inst : string) (texts : list string) (ms : N),
      total (PdfHarvester.click_by_text E p texts ms)
      /\ total (PdfHarvester.handle_cookies E p)
      /\ total (PdfHarvester.handle_linkedin_interstitial E p)
      /\ total (PdfHarvester.close_modals E p)
      /\ total (PdfHarvester.resolve_gate E profile p)
      /\ total (PdfHarvester.try_download_event E p inst)
      /\ total (PdfHarvester.collect_candidate_links E p))
  /\
  (forall (download_dir screenshot_dir : string) (os_bound : bool) (p : PageId)
          (institution name : string) (d : DownloadId),
      total (Harvester.save_screenshot E screenshot_dir p name)
      /\ total (Harvester._handle_cookies E p)
      /\ total (Harvester._handle_popups E p)
      /\ total (Harvester._try_download_buttons E download_dir os_bound p institution)
      /\ total (Harvester._save_download E download_dir os_bound d institution)).
Proof.
  split.
  - intros profile p inst texts ms.
    split; [apply total_click_by_text|].
    split; [apply total_handle_cookies|].
    split; [apply total_handle_linkedin_interstitial|].
    split; [apply total_close_modals|].
    split; [apply total_resolve_gate|].
    split; [apply total_try_download_event | apply total_collect_candidate_links].
  - intros download_dir screenshot_dir os_bound p institution name d.
    split; [apply ResultInvariant.Pkg.total_save_screenshot|].
    split; [apply ResultInvariant.Pkg.pkg_total_handle_cookies|].
    split; [apply ResultInvariant.Pkg.total_handle_popups|].
    split; [apply total_try_download_buttons | apply total_save_download].
Qed.

(** X26.  On a page whose address does not contain linkedin.com,
    [handle_linkedin_interstitial] does nothing: no browser call is made and
    the state is as before. *)
Theorem linkedin_handler_elsewhere (E : Engine) (p : PageId)
        (st : St E PdfHarvester.HarvestResult) :
  contains "linkedin.com" (page_url E p (world st)) = false ->
  PdfHarvester.handle_linkedin_interstitial E p st = (Ok tt, st).
Proof.
  intros H. unfold PdfHarvester.handle_linkedin_interstitial.
  erewrite run_bind_ok; [|reflexivity]. now rewrite H.
Qed.

Lemma linkedin_handler_elsewhere_witness :
  contains "linkedin.com" (page_url Stale.stale_engine 0 tt) = false
  /\ PdfHarvester.handle_linkedin_interstitial Stale.stale_engine 0
       (mkSt (tt : World Stale.stale_engine) []
             (PdfHarvester.new_result "Acme Capital" "https://example.org/outlook"))
     = (Ok tt,
        mkSt (tt : World Stale.stale_engine) []
             (PdfHarvester.new_result "Acme Capital" "https://example.org/outlook")).
Proof.
  split; [reflexivity|].
  apply (linkedin_handler_elsewhere Stale.stale_engine 0
           (mkSt (tt : World Stale.stale_engine) []
                 (PdfHarvester.new_result "Acme Capital" "https://example.org/outlook"))).
  reflexivity.
Defined.


Definition stale_start : St Stale.stale_engine Harvester.ResultDict :=
  mkSt (tt : World Stale.stale_engine) []
       (Harvester.mkDict EmptyString EmptyString EmptyString EmptyString EmptyString).

Definition stale_loaded : St Stale.stale_engine Harvester.ResultDict :=
  Eval vm_compute in
    snd (Harvester.load_page Stale.stale_engine "logs/screenshots" 0 "Acme Capital"
           "https://example.org/outlook"
           (mkSt (tt : World Stale.stale_engine) [EvNewPage 0]
                 (Harvester.mkDict "https://example.org/outlook" EmptyString "error"
                                   EmptyString EmptyString))).

Definition stale_scanned : St Stale.stale_engine Harvester.ResultDict :=
  Eval vm_compute in
    snd (Harvester.scan_page Stale.stale_engine "professional" "downloads"
           "logs/screenshots" Harvester.source_os_bound 0 "Acme Capital" stale_loaded).


End Boundaries.
